(** * Merkabah scoring-and-routing pipeline: a shallow embedding

    The Python sources embedded here are
    - [merkabah_whatsapp.py]   (class [WhatsAppExtractor]),
    - [platform_extractor_framework.py] (class [PlatformExtractor]),
    - [merkabah_joinity.py]    (class [JoinityOrchestrator]).

    Python [float] is IEEE 754 binary64: it is modelled by Rocq's primitive
    [float], whose operations are the same binary64 operations and whose
    literals are parsed to the nearest double, as Python's are.  A Python
    [int] is a [Z].  A Python [str] is modelled by [string], every [ascii]
    standing for one code point below 256. *)

From Stdlib Require Import ZArith Lia Bool List Ascii String DecimalString.
From Stdlib Require Import Floats.
Import ListNotations.

Set Warnings "-inexact-float,-register-all".

Local Open Scope string_scope.
Local Open Scope Z_scope.

(** ** Python numbers *)

Module PyFloat.

(** An integer as an unrounded binary pair: mantissa [z], exponent 0. *)
Definition Z2SF (z : Z) : spec_float :=
  match z with
  | Z0 => S754_zero false
  | Zpos p => S754_finite false p 0
  | Zneg p => S754_finite true p 0
  end.

(** [float(n)] for an [int]: the nearest double, ties to even.  (Python
    raises OverflowError from 2^1024 on, where this gives infinity; no
    length or count of this program comes near.) *)
Definition float_of_int (n : Z) : float :=
  SF2Prim (binary_normalize prec emax n 0 false).

(** [a / b] for two [int]s, [b <> 0]: the correctly rounded quotient. *)
Definition int_truediv (a b : Z) : float :=
  SF2Prim (SF64div (Z2SF a) (Z2SF b)).

(** Python's [min(a, b)] and [max(a, b)]: the first argument unless the
    second is strictly smaller (larger). *)
Definition py_min (a b : float) : float := if (b <? a)%float then b else a.
Definition py_max (a b : float) : float := if (a <? b)%float then b else a.

(** Round-half-even of [num / 2^k] to an integer, for [num >= 0]. *)
Definition rhe_shift (num : Z) (k : Z) : Z :=
  let den := Z.pow 2 k in
  let q := num / den in
  let r := num mod den in
  match Z.compare (2 * r) den with
  | Lt => q
  | Gt => q + 1
  | Eq => if Z.even q then q else q + 1
  end.

(** [round(x, 3)]: CPython prints [x] with three digits after the point,
    correctly rounded from the exact binary value (ties to even), and reads
    that decimal back as the nearest double. *)
Definition round3 (x : float) : float :=
  match Prim2SF x with
  | S754_finite s m e =>
      let k := if 0 <=? e then Z.pos m * 1000 * Z.pow 2 e
               else rhe_shift (Z.pos m * 1000) (- e) in
      if k =? 0 then (if s then neg_zero else zero)
      else int_truediv (if s then - k else k) 1000
  | _ => x
  end.

(** [0.0 <= x <= 1.0] *)
Definition in_unit (x : float) : bool := ((0 <=? x) && (x <=? 1))%float.

End PyFloat.
Import PyFloat.

(** ** Python strings *)

Module PyStr.

Definition code (c : ascii) : N := N_of_ascii c.

(** [c.isspace()] for one code point below 256; also the regex class
    [\s] on a [str] pattern. *)
Definition isspace (c : ascii) : bool :=
  let n := code c in
  ((9 <=? n) && (n <=? 13) || (28 <=? n) && (n <=? 32)
   || (n =? 133) || (n =? 160))%N.

(** [c.lower()] for one code point below 256: A-Z and the Latin-1
    capitals move up by 32. *)
Definition lower_char (c : ascii) : ascii :=
  let n := code c in
  if ((65 <=? n) && (n <=? 90)
      || (192 <=? n) && (n <=? 222) && negb (n =? 215))%N
  then ascii_of_N (n + 32) else c.

(** [s.lower()] *)
Fixpoint lower (s : string) : string :=
  match s with
  | EmptyString => EmptyString
  | String c s' => String (lower_char c) (lower s')
  end.

(** [len(s)] *)
Definition len (s : string) : Z := Z.of_nat (String.length s).

(** [s.startswith(w)] *)
Fixpoint startswith (w s : string) : bool :=
  match w, s with
  | EmptyString, _ => true
  | String _ _, EmptyString => false
  | String a w', String b s' => Ascii.eqb a b && startswith w' s'
  end.

(** [w in s]: [w] occurs in [s] as a contiguous run. *)
Fixpoint contains (w s : string) : bool :=
  if startswith w s then true
  else match s with
       | EmptyString => false
       | String _ s' => contains w s'
       end.

Fixpoint rev_string (acc s : string) : string :=
  match s with
  | EmptyString => acc
  | String c s' => rev_string (String c acc) s'
  end.

(** [s.split()]: the maximal runs of non-whitespace characters; [cur] is
    the run being read, reversed. *)
Fixpoint split_aux (cur : string) (s : string) : list string :=
  match s with
  | EmptyString =>
      match cur with EmptyString => [] | _ => [rev_string "" cur] end
  | String c s' =>
      if isspace c then
        match cur with
        | EmptyString => split_aux "" s'
        | _ => rev_string "" cur :: split_aux "" s'
        end
      else split_aux (String c cur) s'
  end.

Definition split (s : string) : list string := split_aux "" s.

(** [s.lstrip()], [s.rstrip()], [s.strip()] *)
Fixpoint lstrip (s : string) : string :=
  match s with
  | String c s' => if isspace c then lstrip s' else s
  | EmptyString => EmptyString
  end.

Fixpoint rstrip (s : string) : string :=
  match s with
  | EmptyString => EmptyString
  | String c s' =>
      match rstrip s' with
      | EmptyString => if isspace c then EmptyString else String c EmptyString
      | r => String c r
      end
  end.

Definition strip (s : string) : string := rstrip (lstrip s).

(** [sum(1 for c in s if p(c))] *)
Fixpoint count_chars (p : ascii -> bool) (s : string) : Z :=
  match s with
  | EmptyString => 0
  | String c s' => (if p c then 1 else 0) + count_chars p s'
  end.

(** [sum(1 for word in words if word in text)] *)
Fixpoint count_hits (words : list string) (text : string) : Z :=
  match words with
  | [] => 0
  | word :: ws => (if contains word text then 1 else 0) + count_hits ws text
  end.

(** The end of a line, as [readlines] leaves it on each line. *)
Definition newline : string := String "010"%char EmptyString.

(** [str(n)] for an [int] *)
Definition str_of_int (n : Z) : string := NilZero.string_of_int (Z.to_int n).

End PyStr.
Import PyStr.

(** ** Regular expressions, as Python's backtracking matcher runs them

    A pattern maps the text to its matches in the order the matcher tries
    them, each with the text left over; [re.match] takes the first. *)

Module Re.

Definition pattern (A : Type) : Type := string -> list (A * string).

Definition ret {A : Type} (a : A) : pattern A := fun s => [(a, s)].

Definition bind {A B : Type} (p : pattern A) (f : A -> pattern B) : pattern B :=
  fun s => flat_map (fun ar => f (fst ar) (snd ar)) (p s).

(** One character of the class [cls]. *)
Definition one (cls : ascii -> bool) : pattern string :=
  fun s =>
    match s with
    | String c s' => if cls c then [(String c EmptyString, s')] else []
    | EmptyString => []
    end.

(** The literal character [c]. *)
Definition lit (c : ascii) : pattern string := one (Ascii.eqb c).

(** [cls*], greedy: the longest run first, then each shorter one. *)
Fixpoint star (cls : ascii -> bool) (s : string) : list (string * string) :=
  match s with
  | String c s' =>
      if cls c
      then map (fun mr => (String c (fst mr), snd mr)) (star cls s') ++ [(EmptyString, s)]
      else [(EmptyString, s)]
  | EmptyString => [(EmptyString, EmptyString)]
  end.

(** The longest run of [cls] at the start of [s], and the rest of [s]. *)
Fixpoint longest (cls : ascii -> bool) (s : string) : string * string :=
  match s with
  | String c s' =>
      if cls c
      then let (m, r) := longest cls s' in (String c m, r)
      else (EmptyString, s)
  | EmptyString => (EmptyString, EmptyString)
  end.

(** [cls+], greedy. *)
Definition plus (cls : ascii -> bool) : pattern string :=
  bind (one cls) (fun c => bind (star cls) (fun m => ret (c ++ m))).

(** [\d], [.] (no DOTALL flag) and [[^:]]. *)
Definition digit (c : ascii) : bool := ((48 <=? code c) && (code c <=? 57))%N.
Definition dot (c : ascii) : bool := negb (Ascii.eqb c "010"%char).
Definition not_colon (c : ascii) : bool := negb (Ascii.eqb c ":"%char).

(** [re.match(p, s)]: the groups of the first match at the start of [s]. *)
Definition re_match {A : Type} (p : pattern A) (s : string) : option A :=
  match p s with
  | [] => None
  | (a, _) :: _ => Some a
  end.

End Re.

(** ** The four faces and the four actions *)

Inductive Face : Type := EAGLE | LION | OX | MAN.
Inductive Action : Type := ARCHIVE | VERIFY | PROCESS | REVIEW.

(** One extracted message: the dict built in [extract_from_txt]. *)
Module Message.
Record t : Type := Build {
  timestamp : string;
  contact : string;
  message : string;
  length : Z;
  word_count : Z
}.
End Message.

(** ** merkabah_whatsapp.py *)

Module WhatsAppExtractor.

Import Re.
Local Notation "x <- p ;; q" := (bind p (fun x => q))
  (at level 61, p at next level, right associativity).

Definition digits2 : pattern string :=
  a <- one digit ;; b <- one digit ;; ret (a ++ b).

(** The regular expression of [extract_from_txt], as the source writes it. *)
Definition line_regex : string :=
  "\[(\d{2}:\d{2}),\s*(\d{2}/\d{2}/\d{4})\]\s*([^:]+):\s*(.*)".

(** [line_regex] as a pattern, with its four groups. *)
Definition line_pattern : pattern (string * string * string * string) :=
  _ <- lit "[" ;;
  hh <- digits2 ;; _ <- lit ":" ;; mi <- digits2 ;;
  _ <- lit "," ;; _ <- star isspace ;;
  dd <- digits2 ;; _ <- lit "/" ;; mo <- digits2 ;; _ <- lit "/" ;;
  y1 <- digits2 ;; y2 <- digits2 ;;
  _ <- lit "]" ;; _ <- star isspace ;;
  contact <- plus not_colon ;;
  _ <- lit ":" ;; _ <- star isspace ;;
  message <- star dot ;;
  ret (hh ++ ":" ++ mi, dd ++ "/" ++ mo ++ "/" ++ y1 ++ y2, contact, message).

(** The body of the loop over the lines: the message of one line, if the
    line matches. *)
Definition parse_line (line : string) : option Message.t :=
  match re_match line_pattern line with
  | Some (time_str, date_str, contact, message) =>
      Some {| Message.timestamp := date_str ++ " " ++ time_str;
              Message.contact := strip contact;
              Message.message := strip message;
              Message.length := len message;
              Message.word_count := Z.of_nat (List.length (split message)) |}
  | None => None
  end.

Fixpoint parse_lines (lines : list string) : list Message.t :=
  match lines with
  | [] => []
  | line :: rest =>
      match parse_line line with
      | Some m => m :: parse_lines rest
      | None => parse_lines rest
      end
  end.

(** What the file system holds at a path: nothing, a file that cannot be
    read as UTF-8 text (with the text of the exception), or its lines as
    [readlines] returns them. *)
Inductive file : Type :=
| Missing
| Unreadable (error : string)
| Lines (lines : list string).

Inductive extract_result : Type :=
| ExtractError (message : string)
| ExtractSuccess (messages_extracted : Z).

(** [extract_from_txt]: the new value of [self.messages] and the result. *)
Definition extract_from_txt (fs : string -> file) (self_messages : list Message.t)
    (file_path : string) : list Message.t * extract_result :=
  match fs file_path with
  | Missing => (self_messages, ExtractError ("File not found: " ++ file_path))
  | Unreadable e => (self_messages, ExtractError e)
  | Lines lines =>
      let messages := parse_lines lines in
      (messages, ExtractSuccess (Z.of_nat (List.length messages)))
  end.

Definition positive_words : list string :=
  ["good"; "great"; "love"; "happy"; "yes"; "thanks"; "please"].
Definition negative_words : list string :=
  ["bad"; "hate"; "angry"; "sad"; "no"; "never"; "sorry"].

(** The locals of [calculate_harmony_score], one definition each. *)
Definition length_score (message : string) : float :=
  py_min 1.0 (float_of_int (len message) / 200.0).
Definition word_count (message : string) : Z :=
  Z.of_nat (List.length (split message)).
Definition word_score (message : string) : float :=
  py_min 1.0 (float_of_int (word_count message) / 50.0).
Definition positive_count (message : string) : Z :=
  count_hits positive_words (lower message).
Definition negative_count (message : string) : Z :=
  count_hits negative_words (lower message).
Definition sentiment_score (message : string) : float :=
  let sentiment_score :=
    (float_of_int (positive_count message - negative_count message) / 10.0)%float in
  py_max 0.0 (py_min 1.0 (sentiment_score + 0.5)).
Definition punctuation_count (message : string) : Z :=
  count_chars (fun c => contains (String c EmptyString) ".,!?;:") message.
Definition punctuation_score (message : string) : float :=
  py_min 1.0 (float_of_int (punctuation_count message) / 5.0).

Definition calculate_harmony_score (message : string) : float :=
  let harmony :=
    (length_score message * 0.25 + word_score message * 0.25
     + sentiment_score message * 0.25 + punctuation_score message * 0.25)%float in
  round3 harmony.

(** The [if]/[elif] chain of [pipe_through_merkabah]. *)
Definition route (harmony : float) : Face * Action :=
  if (0.8 <? harmony)%float then (EAGLE, ARCHIVE)
  else if (0.6 <? harmony)%float then (LION, VERIFY)
  else if (0.4 <? harmony)%float then (OX, PROCESS)
  else (MAN, REVIEW).

Record piped : Type := {
  message : string;
  harmony_score : float;
  assigned_face : Face;
  action : Action;
  timestamp : string
}.

(** [utcnow] is the clock's reading, [datetime.utcnow().isoformat()]. *)
Definition pipe_through_merkabah (utcnow : string) (message : string) : piped :=
  let harmony := calculate_harmony_score message in
  let (face, action) := route harmony in
  {| message := message; harmony_score := harmony;
     assigned_face := face; action := action; timestamp := utcnow |}.

End WhatsAppExtractor.

(** ** platform_extractor_framework.py *)

Module PlatformExtractor.

Definition positive_words : list string :=
  ["good"; "great"; "love"; "happy"; "yes"; "thanks"].
Definition negative_words : list string :=
  ["bad"; "hate"; "angry"; "sad"; "no"; "never"].

(** The locals of [calculate_harmony], one definition each. *)
Definition length_score (message : string) : float :=
  py_min 1.0 (float_of_int (len message) / 200.0).
Definition word_score (message : string) : float :=
  py_min 1.0 (float_of_int (Z.of_nat (List.length (split message))) / 50.0).
Definition positive (message : string) : Z :=
  count_hits positive_words (lower message).
Definition negative (message : string) : Z :=
  count_hits negative_words (lower message).
Definition sentiment (message : string) : float :=
  py_max 0.0
    (py_min 1.0 (float_of_int (positive message - negative message) / 10.0 + 0.5)).
Definition punctuation (message : string) : Z :=
  count_chars (fun c => contains (String c EmptyString) ".,!?;:") message.
Definition punctuation_score (message : string) : float :=
  py_min 1.0 (float_of_int (punctuation message) / 5.0).

Definition calculate_harmony (message : string) : float :=
  round3 (length_score message * 0.25 + word_score message * 0.25
          + sentiment message * 0.25 + punctuation_score message * 0.25).

Definition assign_face (harmony : float) : Face :=
  if (0.8 <? harmony)%float then EAGLE
  else if (0.6 <? harmony)%float then LION
  else if (0.4 <? harmony)%float then OX
  else MAN.

End PlatformExtractor.

(** ** merkabah_joinity.py *)

Module JoinityOrchestrator.

(** A decoded JSON value, as [response.json()] returns it and as the
    payload of a request is built. *)
Inductive json : Type :=
| JNull
| JBool (b : bool)
| JInt (n : Z)
| JFloat (f : float)
| JStr (s : string)
| JArr (items : list json)
| JObj (fields : list (string * json)).

(** A subscript: [v["k"]] or [v[i]]. *)
Inductive key : Type := KStr (s : string) | KInt (i : Z).

(** An exception object, known by its [str(e)]. *)
Record exn : Type := Exception { str_of_exn : string }.

Inductive outcome (A : Type) : Type :=
| Return (a : A)
| Raise (e : exn).
Arguments Return {A} a.
Arguments Raise {A} e.

Definition obind {A B : Type} (o : outcome A) (f : A -> outcome B) : outcome B :=
  match o with
  | Return a => f a
  | Raise e => Raise e
  end.

Record request : Type := {
  url : string;
  payload : json;
  headers : list (string * string);
  timeout : Z
}.

(** A response object: its status code and what [response.json()] does. *)
Record response : Type := {
  status_code : Z;
  json_body : outcome json
}.

(** The network traffic of a run, in order: a request handed to
    [requests.post], and the return of that call. *)
Inductive event : Type :=
| Sent (r : request)
| Received (o : outcome response).

(** A Python dict with [str] keys, in insertion order. *)
Definition dict (V : Type) : Type := list (string * V).

Fixpoint dict_get {V : Type} (k : string) (d : dict V) : option V :=
  match d with
  | [] => None
  | (k', v) :: d' => if String.eqb k k' then Some v else dict_get k d'
  end.

(** [d[k] = v] *)
Fixpoint dict_set {V : Type} (k : string) (v : V) (d : dict V) : dict V :=
  match d with
  | [] => [(k, v)]
  | (k', v') :: d' =>
      if String.eqb k k' then (k, v) :: d' else (k', v') :: dict_set k v d'
  end.

(** [seq[i]] for a list, with Python's negative indices. *)
Definition py_index {A : Type} (l : list A) (i : Z) : option A :=
  let n := Z.of_nat (List.length l) in
  let j := if i <? 0 then i + n else i in
  if (0 <=? j) && (j <? n) then nth_error l (Z.to_nat j) else None.

Fixpoint chars (s : string) : list string :=
  match s with
  | EmptyString => []
  | String c s' => String c EmptyString :: chars s'
  end.

Record orchestration : Type := {
  prompt : string;
  responses : dict json;
  harmony_score : float;
  timestamp : string;
  status : string
}.

(** The two attributes of the orchestrator that [orchestrate] assigns. *)
Record self : Type := {
  self_responses : dict json;
  self_harmony_score : float
}.

Section World.

(** The process environment, [os.getenv]. *)
Variable getenv : string -> option string.
(** What [requests.post] does with a request, given the traffic so far:
    it returns a response or raises (timeout, connection failure, ...). *)
Variable network : list event -> request -> outcome response.
(** The clock's reading, [datetime.utcnow().isoformat()]. *)
Variable utcnow : string.
(** [str(e)] of the KeyError, IndexError or TypeError that a failed
    subscript raises. *)
Variable subscript_error : json -> key -> string.
(** [str(v)] of a value that is not a [str]. *)
Variable str_other : json -> string.

(** [str(v)] *)
Definition str (v : json) : string :=
  match v with
  | JStr s => s
  | _ => str_other v
  end.

(** [v[k]] *)
Definition getitem (v : json) (k : key) : outcome json :=
  let fail := Raise (Exception (subscript_error v k)) in
  match v, k with
  | JObj fields, KStr s =>
      match dict_get s fields with Some x => Return x | None => fail end
  | JArr items, KInt i =>
      match py_index items i with Some x => Return x | None => fail end
  | JStr s, KInt i =>
      match py_index (chars s) i with Some c => Return (JStr c) | None => fail end
  | _, _ => fail
  end.

(** A computation that talks to the network: from the traffic so far to
    a result or an exception, and the traffic after. *)
Definition io (A : Type) : Type := list event -> outcome A * list event.

Definition ret {A : Type} (a : A) : io A := fun t => (Return a, t).

Definition bind {A B : Type} (m : io A) (f : A -> io B) : io B :=
  fun t =>
    match m t with
    | (Return a, t') => f a t'
    | (Raise e, t') => (Raise e, t')
    end.

Definition lift {A : Type} (o : outcome A) : io A := fun t => (o, t).

(** [try: body  except Exception as e: handler(e)] *)
Definition try_except {A : Type} (body : io A) (handler : exn -> io A) : io A :=
  fun t =>
    match body t with
    | (Return a, t') => (Return a, t')
    | (Raise e, t') => handler e t'
    end.

(** [requests.post(url, json=payload, headers=headers, timeout=timeout)] *)
Definition post (url : string) (payload : json) (headers : list (string * string))
    (timeout : Z) : io response :=
  fun t =>
    let r := {| url := url; payload := payload; headers := headers; timeout := timeout |} in
    let o := network t r in
    (o, (t ++ [Sent r; Received o])%list).

Local Notation "x <- m ;; k" := (bind m (fun x => k))
  (at level 61, m at next level, right associativity).
Local Notation "x <-- o ;; k" := (obind o (fun x => k))
  (at level 61, o at next level, right associativity).

(** [not api_key], for the value [os.getenv] returned *)
Definition not_key (api_key : option string) : bool :=
  match api_key with
  | None => true
  | Some k => String.eqb k ""
  end.

Definition user_messages (prompt : string) : json :=
  JArr [JObj [("role", JStr "user"); ("content", JStr prompt)]].

Definition query_openai (prompt : string) (model : string) : io json :=
  let api_key := getenv "OPENAI_API_KEY" in
  if not_key api_key then ret (JStr "[MAN] OpenAI API key not configured")
  else
    try_except
      (let headers :=
         [("Authorization", "Bearer " ++ match api_key with Some k => k | None => "" end)] in
       let payload := JObj [("model", JStr model); ("messages", user_messages prompt)] in
       response <- post "https://api.openai.com/v1/chat/completions" payload headers 30 ;;
       if status_code response =? 200 then
         lift (body <-- json_body response ;;
               choices <-- getitem body (KStr "choices") ;;
               choice <-- getitem choices (KInt 0) ;;
               message <-- getitem choice (KStr "message") ;;
               getitem message (KStr "content"))
       else ret (JStr ("[MAN] OpenAI error: " ++ str_of_int (status_code response))))
      (fun e => ret (JStr ("[MAN] Error: " ++ str_of_exn e))).

Definition query_anthropic (prompt : string) (model : string) : io json :=
  let api_key := getenv "ANTHROPIC_API_KEY" in
  if not_key api_key then ret (JStr "[LION] Anthropic API key not configured")
  else
    try_except
      (let headers :=
         [("x-api-key", match api_key with Some k => k | None => "" end);
          ("anthropic-version", "2023-06-01")] in
       let payload :=
         JObj [("model", JStr model); ("max_tokens", JInt 1024);
               ("messages", user_messages prompt)] in
       response <- post "https://api.anthropic.com/v1/messages" payload headers 30 ;;
       if status_code response =? 200 then
         lift (body <-- json_body response ;;
               content <-- getitem body (KStr "content") ;;
               block <-- getitem content (KInt 0) ;;
               getitem block (KStr "text"))
       else ret (JStr ("[LION] Anthropic error: " ++ str_of_int (status_code response))))
      (fun e => ret (JStr ("[LION] Error: " ++ str_of_exn e))).

Definition query_ollama (prompt : string) (model : string) : io json :=
  try_except
    (let payload :=
       JObj [("model", JStr model); ("prompt", JStr prompt); ("stream", JBool false)] in
     response <- post "http://localhost:11434/api/generate" payload [] 60 ;;
     if status_code response =? 200 then
       lift (body <-- json_body response ;;
             getitem body (KStr "response"))
     else ret (JStr ("[OX] Ollama error: " ++ str_of_int (status_code response))))
    (fun e => ret (JStr ("[OX] Ollama not running or error: " ++ str_of_exn e))).

Definition query_deepseek (prompt : string) : io json :=
  let api_key := getenv "DEEPSEEK_API_KEY" in
  if not_key api_key then ret (JStr "[EAGLE] DeepSeek API key not configured")
  else
    try_except
      (let headers :=
         [("Authorization", "Bearer " ++ match api_key with Some k => k | None => "" end)] in
       let payload :=
         JObj [("model", JStr "deepseek-chat"); ("messages", user_messages prompt)] in
       response <- post "https://api.deepseek.com/v1/chat/completions" payload headers 30 ;;
       if status_code response =? 200 then
         lift (body <-- json_body response ;;
               choices <-- getitem body (KStr "choices") ;;
               choice <-- getitem choices (KInt 0) ;;
               message <-- getitem choice (KStr "message") ;;
               getitem message (KStr "content"))
       else ret (JStr ("[EAGLE] DeepSeek error: " ++ str_of_int (status_code response))))
      (fun e => ret (JStr ("[EAGLE] Error: " ++ str_of_exn e))).

(** [a / b] on two [int]s, with its ZeroDivisionError. *)
Definition truediv (a b : Z) : outcome float :=
  if b =? 0 then Raise (Exception "division by zero")
  else Return (int_truediv a b).

(** [sum(len(str(r)) for r in responses.values())] *)
Fixpoint total_length (responses : dict json) : Z :=
  match responses with
  | [] => 0
  | (_, r) :: rest => len (str r) + total_length rest
  end.

Definition calculate_harmony (responses : dict json) : outcome float :=
  match responses with
  | [] => Return 0.0%float
  | _ =>
      avg_length <-- truediv (total_length responses) (Z.of_nat (List.length responses)) ;;
      let harmony := py_min 1.0 (avg_length / 1000.0) in
      Return (round3 harmony)
  end.

(** One turn of the loop over [faces]. *)
Definition ask (prompt : string) (face : string) (responses : dict json)
    : io (dict json) :=
  if String.eqb face "MAN" then
    r <- query_openai prompt "gpt-4" ;; ret (dict_set "MAN" r responses)
  else if String.eqb face "LION" then
    r <- query_anthropic prompt "claude-3-sonnet" ;; ret (dict_set "LION" r responses)
  else if String.eqb face "OX" then
    r <- query_ollama prompt "mistral" ;; ret (dict_set "OX" r responses)
  else if String.eqb face "EAGLE" then
    r <- query_deepseek prompt ;; ret (dict_set "EAGLE" r responses)
  else ret responses.

Fixpoint ask_all (prompt : string) (faces : list string) (responses : dict json)
    : io (dict json) :=
  match faces with
  | [] => ret responses
  | face :: rest =>
      responses' <- ask prompt face responses ;;
      ask_all prompt rest responses'
  end.

(** [orchestrate(prompt, faces)]; [None] is the default of [faces].  The
    result comes with the orchestrator's two attributes as assigned. *)
Definition orchestrate (prompt : string) (faces : option (list string))
    : io (orchestration * self) :=
  let faces :=
    match faces with
    | None => ["MAN"; "LION"; "OX"; "EAGLE"]
    | Some faces => faces
    end in
  responses <- ask_all prompt faces [] ;;
  harmony <- lift (calculate_harmony responses) ;;
  ret ({| prompt := prompt; responses := responses; harmony_score := harmony;
          timestamp := utcnow; status := "complete" |},
       {| self_responses := responses; self_harmony_score := harmony |}).

End World.

End JoinityOrchestrator.

(** ** The specification's components, in its own words *)

(** Section 4.1: four sub-scores, each against its target constant,
    averaged with weight 0.25 each and rounded to 3 decimals. *)
Module HarmonyScorer.

Section Lexicons.

Variables positive_lexicon negative_lexicon : list string.

Definition clamp (lo hi x : float) : float := py_max lo (py_min hi x).

Definition length_score (text : string) : float :=
  py_min 1 (float_of_int (len text) / 200).
Definition word_score (text : string) : float :=
  py_min 1 (float_of_int (Z.of_nat (List.length (split text))) / 50).
Definition positive_hits (text : string) : Z :=
  count_hits positive_lexicon (lower text).
Definition negative_hits (text : string) : Z :=
  count_hits negative_lexicon (lower text).
Definition sentiment_score (text : string) : float :=
  clamp 0 1 (0.5 + float_of_int (positive_hits text - negative_hits text) / 10).
Definition punctuation_score (text : string) : float :=
  py_min 1
    (float_of_int (count_chars (fun c => contains (String c EmptyString) ".,!?;:") text) / 5).

Definition score (text : string) : float :=
  round3 (0.25 * length_score text + 0.25 * word_score text
          + 0.25 * sentiment_score text + 0.25 * punctuation_score text).

End Lexicons.

End HarmonyScorer.

(** Section 4.2: the table of score ranges. *)
Module TierClassifier.

Definition in_range (tier : Action) (score : float) : bool :=
  match tier with
  | ARCHIVE => (0.8 <? score)%float
  | VERIFY => ((0.6 <? score) && (score <=? 0.8))%float
  | PROCESS => ((0.4 <? score) && (score <=? 0.6))%float
  | REVIEW => (score <=? 0.4)%float
  end.

End TierClassifier.

(** Section 4.4: the aggregate harmony of the collected response texts. *)
Module Orchestrator.

Definition total_characters (texts : list string) : Z :=
  fold_right (fun text n => len text + n) 0 texts.

Definition aggregate_harmony (texts : list string) : float :=
  let average := int_truediv (total_characters texts) (Z.of_nat (List.length texts)) in
  round3 (py_min 1 (average / 1000)).

End Orchestrator.

(** * Definitions that the facts below are stated with *)

Module Binary64.

(** A positive binary64 value, given by sign, mantissa and exponent as
    [SpecFloat] has them, at or above the 53-digit pair [(M, E)]: in the
    order of pairs of one precision, by exponent, then by mantissa. *)
Definition above (E M : Z) (r : spec_float) : Prop :=
  r = S754_infinity false \/
  exists m e, r = S754_finite false m e /\ Z.pos (digits2_pos m) = 53 /\
              -1074 <= e <= 971 /\ (E < e \/ (e = E /\ M <= Z.pos m)).

End Binary64.

Module Tables.

(** [lo], [lo + 1], ..., [lo + n - 1] *)
Definition Zrange (lo : Z) (n : nat) : list Z :=
  map (fun i => lo + Z.of_nat i) (seq 0 n).

(** [min(1.0, n / target)], the shape of three of the four sub-scores. *)
Definition ratio_score (target : float) (n : Z) : float :=
  py_min 1.0 (float_of_int n / target).

(** [max(0.0, min(1.0, d / 10.0 + 0.5))], the sentiment sub-score of a
    difference [d] of hit counts. *)
Definition sentiment_of (d : Z) : float :=
  py_max 0.0 (py_min 1.0 (float_of_int d / 10.0 + 0.5)).

(** The values a sub-score can take. *)
Definition length_scores : list float := map (ratio_score 200) (Zrange 0 201).
Definition word_scores : list float := map (ratio_score 50) (Zrange 0 51).
Definition punctuation_scores : list float := map (ratio_score 5) (Zrange 0 6).
Definition sentiment_scores : list float := map sentiment_of (Zrange (-7) 15).

(** The weighted sum of the four sub-scores, before rounding. *)
Definition weighted (a b c d : float) : float :=
  (a * 0.25 + b * 0.25 + c * 0.25 + d * 0.25)%float.

Definition weighted_in_unit_on (A B C D : list float) : bool :=
  forallb (fun a => forallb (fun b => forallb (fun c => forallb (fun d =>
    in_unit (weighted a b c d)) D) C) B) A.

(** The doubles nearest to 0.001, 0.002, ..., 1.000. *)
Definition thousandths : list float :=
  map (fun k => int_truediv k 1000) (Zrange 1 1000).

(** Over the differences -7 .. 7: the sentiment sub-score does not
    decrease, stays at or below 1.0, and is 1.0 from 5 on. *)
Definition sentiment_table_ok : bool :=
  let R := Zrange (-7) 15 in
  forallb (fun d1 => forallb (fun d2 =>
    implb (d1 <=? d2)
      ((sentiment_of d1 <=? sentiment_of d2)%float
       && (sentiment_of d2 <=? 1)%float
       && Bool.eqb (sentiment_of d2 =? 1)%float (5 <=? d2))) R) R.

End Tables.

(** The action each face stands for ([assign_face] names it in a comment,
    [pipe_through_merkabah] assigns the two together). *)
Definition action_of_face (f : Face) : Action :=
  match f with
  | EAGLE => ARCHIVE
  | LION => VERIFY
  | OX => PROCESS
  | MAN => REVIEW
  end.

Module Backends.

Import JoinityOrchestrator.

(** The four backend variants and what tells them apart. *)
Inductive backend : Type := OpenAI | Anthropic | Ollama | DeepSeek.

(** The environment variable that holds a backend's credential, if the
    backend uses one. *)
Definition credential (b : backend) : option string :=
  match b with
  | OpenAI => Some "OPENAI_API_KEY"
  | Anthropic => Some "ANTHROPIC_API_KEY"
  | Ollama => None
  | DeepSeek => Some "DEEPSEEK_API_KEY"
  end.

Definition missing_credential_text (b : backend) : string :=
  match b with
  | OpenAI => "[MAN] OpenAI API key not configured"
  | Anthropic => "[LION] Anthropic API key not configured"
  | Ollama => ""
  | DeepSeek => "[EAGLE] DeepSeek API key not configured"
  end.

Definition remote_error_text (b : backend) (code : Z) : string :=
  match b with
  | OpenAI => "[MAN] OpenAI error: "
  | Anthropic => "[LION] Anthropic error: "
  | Ollama => "[OX] Ollama error: "
  | DeepSeek => "[EAGLE] DeepSeek error: "
  end ++ str_of_int code.

Definition exception_text (b : backend) (detail : string) : string :=
  match b with
  | OpenAI => "[MAN] Error: "
  | Anthropic => "[LION] Error: "
  | Ollama => "[OX] Ollama not running or error: "
  | DeepSeek => "[EAGLE] Error: "
  end ++ detail.

Definition key_of (api_key : option string) : string :=
  match api_key with Some k => k | None => "" end.

(** The one request a backend sends. *)
Definition request_of (b : backend) (api_key : option string) (prompt model : string)
    : request :=
  match b with
  | OpenAI =>
      {| url := "https://api.openai.com/v1/chat/completions";
         payload := JObj [("model", JStr model); ("messages", user_messages prompt)];
         headers := [("Authorization", "Bearer " ++ key_of api_key)];
         timeout := 30 |}
  | Anthropic =>
      {| url := "https://api.anthropic.com/v1/messages";
         payload := JObj [("model", JStr model); ("max_tokens", JInt 1024);
                          ("messages", user_messages prompt)];
         headers := [("x-api-key", key_of api_key); ("anthropic-version", "2023-06-01")];
         timeout := 30 |}
  | Ollama =>
      {| url := "http://localhost:11434/api/generate";
         payload := JObj [("model", JStr model); ("prompt", JStr prompt);
                          ("stream", JBool false)];
         headers := [];
         timeout := 60 |}
  | DeepSeek =>
      {| url := "https://api.deepseek.com/v1/chat/completions";
         payload := JObj [("model", JStr "deepseek-chat");
                          ("messages", user_messages prompt)];
         headers := [("Authorization", "Bearer " ++ key_of api_key)];
         timeout := 30 |}
  end.

(** The subscripts that lead to the text in a backend's response body. *)
Definition field_path (b : backend) : list key :=
  match b with
  | OpenAI | DeepSeek => [KStr "choices"; KInt 0; KStr "message"; KStr "content"]
  | Anthropic => [KStr "content"; KInt 0; KStr "text"]
  | Ollama => [KStr "response"]
  end.

(** The face a backend answers for, and the backend asked for a face. *)
Definition face_of (b : backend) : string :=
  match b with
  | OpenAI => "MAN"
  | Anthropic => "LION"
  | Ollama => "OX"
  | DeepSeek => "EAGLE"
  end.

Definition backend_of_face (face : string) : option backend :=
  if String.eqb face "MAN" then Some OpenAI
  else if String.eqb face "LION" then Some Anthropic
  else if String.eqb face "OX" then Some Ollama
  else if String.eqb face "EAGLE" then Some DeepSeek
  else None.

(** The model [orchestrate] leaves to the default of each query's
    parameter (the DeepSeek query has none and always names its own). *)
Definition default_model (b : backend) : string :=
  match b with
  | OpenAI => "gpt-4"
  | Anthropic => "claude-3-sonnet"
  | Ollama => "mistral"
  | DeepSeek => "deepseek-chat"
  end.

(** The faces [orchestrate] asks: the given ones, or all four. *)
Definition requested (faces : option (list string)) : list string :=
  match faces with
  | None => ["MAN"; "LION"; "OX"; "EAGLE"]
  | Some faces => faces
  end.

(** The requests of a run, in the order they were sent. *)
Fixpoint requests_of (t : list event) : list request :=
  match t with
  | [] => []
  | Sent r :: t' => r :: requests_of t'
  | Received _ :: t' => requests_of t'
  end.


(** The traffic of calls made one after the other: each request is
    followed at once by the return of its own call. *)
Fixpoint one_at_a_time (t : list event) : bool :=
  match t with
  | [] => true
  | Sent _ :: Received _ :: t' => one_at_a_time t'
  | _ => false
  end.

Section World.

Variable getenv : string -> option string.
Variable network : list event -> request -> outcome response.
Variable subscript_error : json -> key -> string.

Fixpoint follow (v : json) (path : list key) : outcome json :=
  match path with
  | [] => Return v
  | k :: rest => obind (getitem subscript_error v k) (fun x => follow x rest)
  end.

(** The text a backend's response holds: the body decoded, then the
    backend's field path followed. *)
Definition extract (b : backend) (r : response) : outcome json :=
  obind (json_body r) (fun body => follow body (field_path b)).

(** The query of a backend. *)
Definition query (b : backend) (prompt model : string) : io json :=
  match b with
  | OpenAI => query_openai getenv network subscript_error prompt model
  | Anthropic => query_anthropic getenv network subscript_error prompt model
  | Ollama => query_ollama network subscript_error prompt model
  | DeepSeek => query_deepseek getenv network subscript_error prompt
  end.

(** What a backend answers once its request [r] is sent with traffic [t]
    behind it. *)
Definition answer (b : backend) (t : list event) (r : request) : json :=
  match network t r with
  | Raise e => JStr (exception_text b (str_of_exn e))
  | Return resp =>
      if status_code resp =? 200 then
        match extract b resp with
        | Return x => x
        | Raise e => JStr (exception_text b (str_of_exn e))
        end
      else JStr (remote_error_text b (status_code resp))
  end.

(** The backend uses a credential and the environment has none for it
    (or an empty one). *)
Definition lacks_credential (b : backend) : bool :=
  match credential b with
  | Some var => not_key (getenv var)
  | None => false
  end.

Definition api_key_of (b : backend) : option string :=
  match credential b with
  | Some var => getenv var
  | None => None
  end.

(** What a query returns and the traffic it adds, when [orchestrate]
    calls it. *)
Definition reply (b : backend) (prompt : string) (t : list event) : json :=
  if lacks_credential b then JStr (missing_credential_text b)
  else answer b t (request_of b (api_key_of b) prompt (default_model b)).

Definition traffic (b : backend) (prompt : string) (t : list event) : list event :=
  if lacks_credential b then []
  else let r := request_of b (api_key_of b) prompt (default_model b) in
       [Sent r; Received (network t r)].

(** The loop of [orchestrate] as a function: the dict and the traffic
    after the faces are asked in order. *)
Fixpoint collect (prompt : string) (faces : list string) (d : dict json)
    (t : list event) : dict json * list event :=
  match faces with
  | [] => (d, t)
  | face :: rest =>
      match backend_of_face face with
      | Some b =>
          collect prompt rest (dict_set (face_of b) (reply b prompt t) d)
            (t ++ traffic b prompt t)%list
      | None => collect prompt rest d t
      end
  end.

(** The endpoint a face's query posts to, when it posts. *)
Definition endpoint (prompt : string) (face : string) : list string :=
  match backend_of_face face with
  | Some b =>
      if lacks_credential b then []
      else [url (request_of b (api_key_of b) prompt (default_model b))]
  | None => []
  end.

End World.

End Backends.

(** Two small worlds to run the orchestrator in. *)
Module Demo.

Import JoinityOrchestrator.

(** No variable is set. *)
Definition empty_env : string -> option string := fun _ => None.

(** Only the OpenAI key is set. *)
Definition openai_env : string -> option string :=
  fun name => if String.eqb name "OPENAI_API_KEY" then Some "sk-demo" else None.

(** Every request is answered 200 with a body that holds "pong" at the
    field paths of the OpenAI-style and of the local-model backends. *)
Definition pong : response :=
  {| status_code := 200;
     json_body :=
       Return (JObj [("response", JStr "pong");
                     ("choices",
                      JArr [JObj [("message", JObj [("content", JStr "pong")])]])]) |}.

Definition pong_network : list event -> request -> outcome response :=
  fun _ _ => Return pong.

Definition clock : string := "2024-01-01T00:00:00".
Definition no_detail : json -> key -> string := fun _ _ => "".
Definition no_text : json -> string := fun _ => "".

End Demo.

Module Sign.

(** A sign-mantissa-exponent triple that is zero, positive or plus
    infinity. *)
Definition not_negative (r : spec_float) : Prop :=
  match r with
  | S754_zero _ => True
  | S754_finite s _ _ => s = false
  | S754_infinity s => s = false
  | S754_nan => False
  end.

End Sign.

(** ** platform_extractor_framework.py: the platform extractors *)

Module UnifiedExtractor.

Import JoinityOrchestrator.

(** What an extractor's [extract] returns. *)
Record descriptor : Type := {
  platform : string;
  status : string;
  methods : list string;
  data_types : list string
}.

(** The twelve subclasses of [PlatformExtractor]. *)
Inductive extractor : Type :=
| DiscordExtractor | TelegramExtractor | XExtractor | FacebookExtractor
| InstagramExtractor | RedditExtractor | LinkedInExtractor | TikTokExtractor
| TwitchExtractor | YouTubeExtractor | MastodonExtractor | BlueSkyExtractor.

(** [extractor.extract(source)] *)
Definition extract (e : extractor) (source : string) : descriptor :=
  match e with
  | DiscordExtractor =>
      {| platform := "Discord"; status := "ready";
         methods := ["json_export"; "api_token"];
         data_types := ["messages"; "reactions"; "threads"; "voice_logs"] |}
  | TelegramExtractor =>
      {| platform := "Telegram"; status := "ready";
         methods := ["json_export"; "api_token"; "local_database"];
         data_types := ["messages"; "media"; "stickers"; "channels"; "groups"] |}
  | XExtractor =>
      {| platform := "X"; status := "ready";
         methods := ["api_v2"; "archive_export"; "web_scrape"];
         data_types := ["tweets"; "replies"; "retweets"; "likes"; "bookmarks"; "dms"] |}
  | FacebookExtractor =>
      {| platform := "Facebook"; status := "ready";
         methods := ["data_export"; "api_token"; "graph_api"];
         data_types := ["posts"; "comments"; "messages"; "reactions"; "photos"] |}
  | InstagramExtractor =>
      {| platform := "Instagram"; status := "ready";
         methods := ["data_export"; "api_token"; "graph_api"];
         data_types := ["posts"; "comments"; "dms"; "stories"; "reels"; "likes"] |}
  | RedditExtractor =>
      {| platform := "Reddit"; status := "ready";
         methods := ["api_token"; "pushshift_api"; "web_scrape"];
         data_types := ["posts"; "comments"; "awards"; "saved"; "subscriptions"] |}
  | LinkedInExtractor =>
      {| platform := "LinkedIn"; status := "ready";
         methods := ["data_export"; "api_token"];
         data_types := ["posts"; "comments"; "messages"; "connections"; "endorsements"] |}
  | TikTokExtractor =>
      {| platform := "TikTok"; status := "ready";
         methods := ["api_token"; "data_export"; "web_scrape"];
         data_types := ["videos"; "comments"; "likes"; "bookmarks"; "messages"] |}
  | TwitchExtractor =>
      {| platform := "Twitch"; status := "ready";
         methods := ["api_token"; "chat_logs"];
         data_types := ["chat_messages"; "clips"; "vods"; "follows"; "subscriptions"] |}
  | YouTubeExtractor =>
      {| platform := "YouTube"; status := "ready";
         methods := ["api_token"; "transcript_api"];
         data_types := ["comments"; "transcripts"; "metadata"; "likes"; "playlists"] |}
  | MastodonExtractor =>
      {| platform := "Mastodon"; status := "ready";
         methods := ["api_token"; "instance_api"];
         data_types := ["toots"; "replies"; "boosts"; "favorites"; "dms"] |}
  | BlueSkyExtractor =>
      {| platform := "BlueSky"; status := "ready";
         methods := ["api_token"; "firehose"];
         data_types := ["posts"; "replies"; "reposts"; "likes"; "follows"] |}
  end.

(** [self.extractors], as [__init__] builds it. *)
Definition extractors : dict extractor :=
  [("discord", DiscordExtractor); ("telegram", TelegramExtractor);
   ("x", XExtractor); ("facebook", FacebookExtractor);
   ("instagram", InstagramExtractor); ("reddit", RedditExtractor);
   ("linkedin", LinkedInExtractor); ("tiktok", TikTokExtractor);
   ("twitch", TwitchExtractor); ("youtube", YouTubeExtractor);
   ("mastodon", MastodonExtractor); ("bluesky", BlueSkyExtractor)].

(** A dict filled key by key from the items of another:
    [for k, a in items: acc[k] = f(k, a)]. *)
Fixpoint fill {A V : Type} (f : string -> A -> V) (items : list (string * A))
    (acc : dict V) : dict V :=
  match items with
  | [] => acc
  | (k, a) :: rest => fill f rest (dict_set k (f k a) acc)
  end.

Definition get_all_platforms : dict descriptor :=
  fill (fun _ e => extract e "") extractors [].

(** The result of [extract_from_platform]: the error dict or a descriptor. *)
Inductive extraction : Type :=
| NotSupported (message : string)
| Extracted (d : descriptor).

Definition extract_from_platform (platform source : string) : extraction :=
  match dict_get (lower platform) extractors with
  | None => NotSupported ("Platform " ++ platform ++ " not supported")
  | Some e => Extracted (extract e source)
  end.

Definition extract_all (sources : dict string) : dict extraction :=
  fill extract_from_platform sources [].

End UnifiedExtractor.

(** ** merkabah_joinity.py: the orchestrator object *)

Module Joinity.

Import JoinityOrchestrator Backends.

(** One entry of [self.nodes]: a dict with the keys "model", "endpoint"
    and "specialty", and the key "api_key" once one was configured. *)
Record node : Type := {
  model : string;
  endpoint : string;
  specialty : string;
  api_key : option string
}.

Definition set_model (v : string) (n : node) : node :=
  {| model := v; endpoint := endpoint n; specialty := specialty n; api_key := api_key n |}.
Definition set_endpoint (v : string) (n : node) : node :=
  {| model := model n; endpoint := v; specialty := specialty n; api_key := api_key n |}.
Definition set_api_key (v : string) (n : node) : node :=
  {| model := model n; endpoint := endpoint n; specialty := specialty n; api_key := Some v |}.

(** The orchestrator object: [self.nodes], and the two attributes that
    [orchestrate] assigns. *)
Record t : Type := {
  nodes : dict node;
  attributes : self
}.

(** [__init__] *)
Definition init : t :=
  {| nodes :=
       [("MAN", {| model := "gpt-4"; endpoint := "openai";
                   specialty := "Witness/Interaction"; api_key := None |});
        ("LION", {| model := "claude-3"; endpoint := "anthropic";
                    specialty := "Judge/Verification"; api_key := None |});
        ("OX", {| model := "mistral"; endpoint := "ollama";
                  specialty := "Servant/Processing"; api_key := None |});
        ("EAGLE", {| model := "deepseek"; endpoint := "deepseek";
                     specialty := "Seer/Prediction"; api_key := None |})];
     attributes := {| self_responses := []; self_harmony_score := 0.0 |} |}.

(** [configure_node]: the object after the call and the dict returned.
    [api_key] is [None] for Python's [None], the default. *)
Definition configure_node (self : t) (face model endpoint : string)
    (api_key : option string) : t * dict string :=
  match dict_get face (nodes self) with
  | Some n =>
      let n := set_model model n in
      let n := set_endpoint endpoint n in
      let n := if not_key api_key then n else set_api_key (key_of api_key) n in
      ({| nodes := dict_set face n (nodes self); attributes := attributes self |},
       [("status", "configured"); ("face", face); ("model", model)])
  | None =>
      (self, [("status", "error"); ("message", "Face " ++ face ++ " not found")])
  end.

(** The requests a face's query sends when [orchestrate] calls it. *)
Definition outbound (getenv : string -> option string) (prompt face : string)
    : list request :=
  match backend_of_face face with
  | Some b =>
      if lacks_credential getenv b then []
      else [request_of b (api_key_of getenv b) prompt (default_model b)]
  | None => []
  end.

(** The values a slice [v[:200]] is defined on: a [str] or a list. *)
Definition sliceable (v : json) : bool :=
  match v with
  | JStr _ | JArr _ => true
  | _ => false
  end.

Section World.

Variable getenv : string -> option string.
Variable network : list event -> request -> outcome response.
Variable utcnow : string.
Variable subscript_error : json -> key -> string.
Variable str_other : json -> string.
(** [str(e)] of the exception that [v[:200]] raises on a value that is
    neither a [str] nor a list. *)
Variable slice_error : json -> string.
(** [str(x)] of a [float], as an f-string formats it. *)
Variable str_float : float -> string.
(** The two characters of the report's template outside Latin-1: the
    capital lambda and the check mark. *)
Variables lambda_sign check_sign : string.

(** [orchestrate] on the object. *)
Definition orchestrate (self : t) (prompt : string) (faces : option (list string))
    : io (orchestration * t) :=
  bind (JoinityOrchestrator.orchestrate getenv network utcnow subscript_error
          str_other prompt faces)
    (fun '(result, attrs) =>
       ret (result, {| nodes := nodes self; attributes := attrs |})).

(** [responses.get(face, 'N/A')] *)
Definition get_response (responses : dict json) (face : string) : json :=
  match dict_get face responses with
  | Some r => r
  | None => JStr "N/A"
  end.

(** [v[:200]] inside an f-string: the slice, formatted. *)
Definition slice200 (v : json) : outcome string :=
  match v with
  | JStr s => Return (substring 0 200 s)
  | JArr items => Return (str_other (JArr (firstn 200 items)))
  | _ => Raise (Exception (slice_error v))
  end.

(** The f-string of [synthesize], with its fields filled in. *)
Definition report (prompt man lion ox eagle harmony : string) : string :=
  newline ++ "=== JOINITY SYNTHESIS ===" ++ newline
  ++ "Prompt: " ++ prompt ++ newline
  ++ newline
  ++ "[MAN - Witness]: " ++ man ++ "..." ++ newline
  ++ newline
  ++ "[LION - Judge]: " ++ lion ++ "..." ++ newline
  ++ newline
  ++ "[OX - Servant]: " ++ ox ++ "..." ++ newline
  ++ newline
  ++ "[EAGLE - Seer]: " ++ eagle ++ "..." ++ newline
  ++ newline
  ++ "Harmony Score (" ++ lambda_sign ++ "): " ++ harmony ++ newline
  ++ "Status: SYNTHESIZED " ++ check_sign ++ newline
  ++ "===" ++ newline.

Definition synthesize (self : t) (prompt : string) : io (string * t) :=
  bind (orchestrate self prompt None)
    (fun '(orchestration, self) =>
       lift (obind (slice200 (get_response (responses orchestration) "MAN")) (fun man =>
             obind (slice200 (get_response (responses orchestration) "LION")) (fun lion =>
             obind (slice200 (get_response (responses orchestration) "OX")) (fun ox =>
             obind (slice200 (get_response (responses orchestration) "EAGLE")) (fun eagle =>
             Return (report prompt man lion ox eagle
                       (str_float (harmony_score orchestration)), self))))))).

End World.

End Joinity.

(** A world in which every request is answered 200 with [null] where the
    OpenAI-style field path leads. *)
Module JoinityDemo.

Import JoinityOrchestrator.

Definition null_content : response :=
  {| status_code := 200;
     json_body :=
       Return (JObj [("choices",
                      JArr [JObj [("message", JObj [("content", JNull)])]])]) |}.

Definition null_network : list event -> request -> outcome response :=
  fun _ _ => Return null_content.

Definition not_subscriptable : json -> string := fun _ => "not subscriptable".
Definition no_float : float -> string := fun _ => "".

End JoinityDemo.

(** A world in which each remote backend fails in its own way, and two
    sets of collected responses. *)
Module FailureDemo.

Import JoinityOrchestrator.

(** Every credential is set. *)
Definition full_env : string -> option string := fun _ => Some "key".

(** A 500 response without a body. *)
Definition unavailable : response :=
  {| status_code := 500; json_body := Raise (Exception "no body") |}.

(** A 200 response whose body is an empty object. *)
Definition empty_body : response :=
  {| status_code := 200; json_body := Return (JObj []) |}.

(** The OpenAI endpoint cannot be reached, the Anthropic one answers 200
    with an empty object, the local model answers "pong", and the DeepSeek
    one answers 500. *)
Definition mixed_network : list event -> request -> outcome response :=
  fun _ r =>
    if String.eqb (url r) "https://api.openai.com/v1/chat/completions"
    then Raise (Exception "connection refused")
    else if String.eqb (url r) "https://api.anthropic.com/v1/messages"
    then Return empty_body
    else if String.eqb (url r) "http://localhost:11434/api/generate"
    then Return Demo.pong
    else Return unavailable.

(** [str(e)] of a KeyError is the key in quotes. *)
Definition key_error : json -> key -> string :=
  fun _ k =>
    match k with
    | KStr s => "'" ++ s ++ "'"
    | KInt _ => "list index out of range"
    end.

Definition three_responses : dict json :=
  [("MAN", JStr "hello");
   ("LION", JStr "[LION] Anthropic API key not configured");
   ("OX", JStr "pong!")].

(** Two responses of 1500 and 900 characters. *)
Definition long_responses : dict json :=
  [("MAN", JStr (String.concat "" (repeat "x" 1500)));
   ("OX", JStr (String.concat "" (repeat "y" 900)))].

End FailureDemo.

(** ** merkabah_whatsapp.py: the extractor object *)

Module WhatsApp.

Import WhatsAppExtractor.

Local Abbreviation dict := JoinityOrchestrator.dict.
Local Abbreviation dict_get := JoinityOrchestrator.dict_get.
Local Abbreviation dict_set := JoinityOrchestrator.dict_set.
Local Abbreviation outcome := JoinityOrchestrator.outcome.
Local Abbreviation Return := JoinityOrchestrator.Return.
Local Abbreviation Raise := JoinityOrchestrator.Raise.
Local Abbreviation Exception := JoinityOrchestrator.Exception.
Local Abbreviation obind := JoinityOrchestrator.obind.

(** [all(cls(c) for c in s)] *)
Fixpoint all_chars (cls : ascii -> bool) (s : string) : bool :=
  match s with
  | EmptyString => true
  | String c s' => cls c && all_chars cls s'
  end.

(** [n] decimal digits. *)
Definition digits (n : Z) (s : string) : bool := all_chars Re.digit s && (len s =? n).

(** The extractor object: its three attributes. *)
Record t : Type := {
  messages : list Message.t;
  harmony_scores : dict float;
  extracted_at : string
}.

(** [__init__]; [utcnow] is the clock's reading. *)
Definition init (utcnow : string) : t :=
  {| messages := []; harmony_scores := []; extracted_at := utcnow |}.

(** [extract_from_txt] on the object. *)
Definition extract_from_txt (fs : string -> file) (self : t) (file_path : string)
    : t * extract_result :=
  let (messages, result) :=
    WhatsAppExtractor.extract_from_txt fs (messages self) file_path in
  ({| messages := messages; harmony_scores := harmony_scores self;
      extracted_at := extracted_at self |}, result).

(** The dict [analyze_messages] returns when there are messages. *)
Record analysis : Type := {
  total_messages : Z;
  total_characters : Z;
  total_words : Z;
  average_message_length : float;
  contacts : list string;
  analysis_harmony_scores : dict float;
  average_harmony : float;
  max_harmony : float;
  min_harmony : float
}.

Inductive analyze_result : Type :=
| AnalyzeError (message : string)
| Analysis (a : analysis).

(** [sum(f(m) for m in messages)] over [int]s *)
Fixpoint sum_of (f : Message.t -> Z) (messages : list Message.t) : Z :=
  match messages with
  | [] => 0
  | m :: rest => f m + sum_of f rest
  end.

(** The loop of [analyze_messages] over the messages: each score is
    stored under the message's timestamp. *)
Fixpoint record_scores (messages : list Message.t) (scores : dict float) : dict float :=
  match messages with
  | [] => scores
  | msg :: rest =>
      let harmony := calculate_harmony_score (Message.message msg) in
      record_scores rest (dict_set (Message.timestamp msg) harmony scores)
  end.

(** [d.values()] *)
Definition values {V : Type} (d : dict V) : list V := map snd d.

Section World.

(** [list(set(xs))]: the distinct strings of [xs] in the order the set
    yields them. *)
Variable list_of_set : list string -> list string.
(** [sum(xs)] over [float]s. *)
Variable float_sum : list float -> float.
(** [str(e)] of the exceptions of a division by zero and of [max] and
    [min] on an empty sequence. *)
Variables zero_division_error max_empty_error min_empty_error : string.

(** [max(xs)] and [min(xs)]: the first item, replaced by each later one
    that is strictly greater (smaller). *)
Definition py_max_list (xs : list float) : outcome float :=
  match xs with
  | [] => Raise (Exception max_empty_error)
  | x :: rest => Return (fold_left py_max rest x)
  end.

Definition py_min_list (xs : list float) : outcome float :=
  match xs with
  | [] => Raise (Exception min_empty_error)
  | x :: rest => Return (fold_left py_min rest x)
  end.

(** [x / n] for a [float] and an [int] *)
Definition float_truediv (x : float) (n : Z) : outcome float :=
  if n =? 0 then Raise (Exception zero_division_error)
  else Return (x / float_of_int n)%float.

(** [analyze_messages]: the object after the call, and what the call
    returns or raises.  The scores are stored in [self.harmony_scores]
    before the three aggregates are computed. *)
Definition analyze_messages (self : t) : t * outcome analyze_result :=
  match messages self with
  | [] => (self, Return (AnalyzeError "No messages extracted"))
  | _ =>
      let n := Z.of_nat (List.length (messages self)) in
      let total_characters := sum_of Message.length (messages self) in
      let total_words := sum_of Message.word_count (messages self) in
      let average_message_length :=
        JoinityOrchestrator.truediv (sum_of Message.length (messages self)) n in
      let contacts := list_of_set (map Message.contact (messages self)) in
      match average_message_length with
      | JoinityOrchestrator.Raise e => (self, Raise e)
      | JoinityOrchestrator.Return average_message_length =>
          let scores := record_scores (messages self) (harmony_scores self) in
          let self' := {| messages := messages self; harmony_scores := scores;
                          extracted_at := extracted_at self |} in
          (self',
           obind (float_truediv (float_sum (values scores))
                    (Z.of_nat (List.length scores))) (fun average =>
           obind (py_max_list (values scores)) (fun maximum =>
           obind (py_min_list (values scores)) (fun minimum =>
           Return (Analysis
             {| total_messages := n;
                total_characters := total_characters;
                total_words := total_words;
                average_message_length := average_message_length;
                contacts := contacts;
                analysis_harmony_scores := [];
                average_harmony := round3 average;
                max_harmony := round3 maximum;
                min_harmony := round3 minimum |})))))
      end
  end.

(** The document [export_to_mega] writes.  Its "harmony_scores" is the
    dict object of [self.harmony_scores] itself, which the analysis for
    the last field then updates in place. *)
Record export_data : Type := {
  export_extracted_at : string;
  export_messages : list Message.t;
  export_harmony_scores : dict float;
  export_analysis : analyze_result
}.

Inductive export_result : Type :=
| ExportError (message : string)
| ExportSuccess (exported_to : string) (size : Z).

(** The [strftime] reading of the local clock. *)
Variable now_stamp : string.
(** Opening the path for writing and dumping the document into it:
    [None] when both succeed, else [str(e)] of the exception. *)
Variable write_json : string -> export_data -> option string.
(** [len(json.dumps(data))] *)
Variable dumps_size : export_data -> Z.

(** [not output_path], for a [str] or [None] *)
Definition not_path (output_path : option string) : bool :=
  match output_path with
  | None => true
  | Some p => String.eqb p ""
  end.

(** [export_to_mega]: the object after the call, what the call returns
    or raises, and the write it attempted, if it came to one. *)
Definition export_to_mega (self : t) (output_path : option string)
    : t * outcome export_result * option (string * export_data) :=
  let output_path :=
    if not_path output_path
    then "/home/ubuntu/whatsapp_export_" ++ now_stamp ++ ".json"
    else match output_path with Some p => p | None => "" end in
  let (self', analysis) := analyze_messages self in
  match analysis with
  | JoinityOrchestrator.Raise e => (self', Raise e, None)
  | JoinityOrchestrator.Return analysis =>
      let export_data :=
        {| export_extracted_at := extracted_at self;
           export_messages := messages self;
           export_harmony_scores := harmony_scores self';
           export_analysis := analysis |} in
      (self',
       Return match write_json output_path export_data with
              | None => ExportSuccess output_path (dumps_size export_data)
              | Some e => ExportError e
              end,
       Some (output_path, export_data))
  end.

(** What [main] hands to [print(json.dumps(...))], or the usage text. *)
Inductive printed : Type :=
| PrintedExtract (result : extract_result)
| PrintedAnalysis (result : analyze_result)
| PrintedExport (result : export_result)
| PrintedPipe (result : piped)
| Usage
| Nothing.

Variable fs : string -> file.
(** The clock's readings when the extractor is made and when a message
    is piped. *)
Variables started_at piped_at : string.

(** [main], for [sys.argv] = [argv]: what it prints or raises, and the
    write it attempted. *)
Definition main (argv : list string) : outcome printed * option (string * export_data) :=
  let extractor := init started_at in
  match argv with
  | _ :: command :: args =>
      if String.eqb command "extract" && (2 <? Z.of_nat (List.length argv)) then
        (Return (PrintedExtract
                   (snd (extract_from_txt fs extractor (nth 2 argv "")))), None)
      else if String.eqb command "analyze" then
        (obind (snd (analyze_messages extractor))
           (fun analysis => Return (PrintedAnalysis analysis)), None)
      else if String.eqb command "export" then
        let '(_, result, written) := export_to_mega extractor None in
        (obind result (fun export_result => Return (PrintedExport export_result)),
         written)
      else if String.eqb command "pipe" && (2 <? Z.of_nat (List.length argv)) then
        let message := String.concat " " (skipn 2 argv) in
        (Return (PrintedPipe (pipe_through_merkabah piped_at message)), None)
      else (Return Nothing, None)
  | _ => (Return Usage, None)
  end.

End World.

End WhatsApp.

(** A small world to run the extractor in: one chat file of two lines
    of the same minute. *)
Module WhatsAppDemo.

Import WhatsAppExtractor.

Definition chat : list string :=
  ["[14:05, 01/02/2023] Alice: Hello there!" ++ newline;
   "[14:05, 01/02/2023] Bob: Thanks, great!" ++ newline].

Definition disk : string -> file :=
  fun path => if String.eqb path "chat.txt" then Lines chat else Missing.

(** Left-to-right addition from 0. *)
Definition plain_sum (xs : list float) : float := fold_left PrimFloat.add xs 0%float.

Definition in_order (xs : list string) : list string := nodup string_dec xs.

Definition clock : string := "2024-01-01T00:00:00".

(** The fresh extractor after it has read the chat file. *)
Definition loaded : WhatsApp.t :=
  fst (WhatsApp.extract_from_txt disk (WhatsApp.init clock) "chat.txt").

(** A second chat file, of two later minutes. *)
Definition chat_later : list string :=
  ["[09:00, 02/02/2023] Alice: Thanks, that is great news! I am so happy." ++ newline;
   "[09:01, 02/02/2023] Bob: no" ++ newline].

Definition disk_later : string -> file :=
  fun path => if String.eqb path "later.txt" then Lines chat_later else disk path.

(** The extractor after it has read and analysed the first file and then
    read the second: it holds the messages of the second file and the score
    stored for the minute of the first. *)
Definition reloaded : WhatsApp.t :=
  fst (WhatsApp.extract_from_txt disk_later
         (fst (WhatsApp.analyze_messages in_order plain_sum "" "" "" loaded))
         "later.txt").

End WhatsAppDemo.


(** * Facts about binary64 arithmetic

    The operations of [float] are specified by the standard library's
    [SpecFloat] functions on sign, mantissa and exponent; the lemmas here
    bound what those functions round to. *)

Module SFBounds.

Import Binary64.

Lemma digits2_pos_bounds (p : positive) :
  2 ^ (Z.pos (digits2_pos p) - 1) <= Z.pos p < 2 ^ Z.pos (digits2_pos p).
Proof.
  induction p as [p IH | p IH |]; cbn [digits2_pos].
  - rewrite Pos2Z.inj_succ, (Pos2Z.inj_xI p).
    replace (Z.succ (Z.pos (digits2_pos p)) - 1) with (Z.succ (Z.pos (digits2_pos p) - 1)) by lia.
    rewrite !Z.pow_succ_r by lia.
    generalize dependent (2 ^ (Z.pos (digits2_pos p) - 1)).
    generalize (2 ^ Z.pos (digits2_pos p)). lia.
  - rewrite Pos2Z.inj_succ, (Pos2Z.inj_xO p).
    replace (Z.succ (Z.pos (digits2_pos p)) - 1) with (Z.succ (Z.pos (digits2_pos p) - 1)) by lia.
    rewrite !Z.pow_succ_r by lia.
    generalize dependent (2 ^ (Z.pos (digits2_pos p) - 1)).
    generalize (2 ^ Z.pos (digits2_pos p)). lia.
  - cbn. lia.
Qed.

Lemma Zdigits2_bounds (m : Z) :
  0 < m -> 2 ^ (Zdigits2 m - 1) <= m < 2 ^ Zdigits2 m.
Proof.
  destruct m as [|p|p]; try lia. intros _. apply digits2_pos_bounds.
Qed.

Lemma Zdigits2_unique (m d : Z) :
  2 ^ (d - 1) <= m < 2 ^ d -> 0 < d -> Zdigits2 m = d.
Proof.
  intros [Hlo Hhi] Hd.
  assert (Hm : 0 < m) by (pose proof (Z.pow_pos_nonneg 2 (d - 1)); lia).
  destruct (Zdigits2_bounds m Hm) as [Hlo' Hhi'].
  assert (Hpos : 0 < Zdigits2 m) by (destruct m; cbn; lia).
  destruct (Z.lt_trichotomy (Zdigits2 m) d) as [Hlt | [Heq | Hgt]]; [ | exact Heq | ].
  - assert (2 ^ Zdigits2 m <= 2 ^ (d - 1)) by (apply Z.pow_le_mono_r; lia). lia.
  - assert (2 ^ d <= 2 ^ (Zdigits2 m - 1)) by (apply Z.pow_le_mono_r; lia). lia.
Qed.

Lemma Zdigits2_mono (m n : Z) : 0 < m -> m <= n -> Zdigits2 m <= Zdigits2 n.
Proof.
  intros Hm Hmn.
  destruct (Zdigits2_bounds m Hm) as [Hlo _].
  destruct (Zdigits2_bounds n ltac:(lia)) as [_ Hhi].
  destruct (Z.le_gt_cases (Zdigits2 m) (Zdigits2 n)) as [H | H]; [exact H | ].
  assert (2 ^ Zdigits2 n <= 2 ^ (Zdigits2 m - 1)) by (apply Z.pow_le_mono_r; lia). lia.
Qed.

(** Truncating a [d]-digit number to its 53 leading digits. *)
Lemma trunc53_bounds (m d : Z) :
  2 ^ (d - 1) <= m < 2 ^ d -> 53 <= d ->
  2 ^ 52 <= m / 2 ^ (d - 53) < 2 ^ 53.
Proof.
  intros [Hlo Hhi] Hd.
  assert (Hp : 0 < 2 ^ (d - 53)) by (apply Z.pow_pos_nonneg; lia).
  assert (E1 : 2 ^ (d - 1) = 2 ^ (d - 53) * 2 ^ 52)
    by (rewrite <- Z.pow_add_r by lia; f_equal; lia).
  assert (E2 : 2 ^ d = 2 ^ (d - 53) * 2 ^ 53)
    by (rewrite <- Z.pow_add_r by lia; f_equal; lia).
  split.
  - apply Z.div_le_lower_bound; lia.
  - apply Z.div_lt_upper_bound; lia.
Qed.

Lemma shr_m_of_loc (m : Z) (l : location) : shr_m (shr_record_of_loc m l) = m.
Proof. destruct l as [|[]]; reflexivity. Qed.

Lemma shr_1_m (r : shr_record) : 0 <= shr_m r -> shr_m (shr_1 r) = shr_m r / 2.
Proof.
  destruct r as [m b s]; cbn [shr_m]. intros Hm.
  destruct m as [|[p|p|]|p]; cbn [shr_1 shr_m]; try lia.
  - reflexivity.
  - rewrite (Pos2Z.inj_xI p). apply Z.div_unique with (r := 1); lia.
  - rewrite (Pos2Z.inj_xO p). apply Z.div_unique with (r := 0); lia.
  - reflexivity.
Qed.

Lemma iter_pos_shr_1_m (p : positive) : forall r,
  0 <= shr_m r -> shr_m (iter_pos shr_1 p r) = shr_m r / 2 ^ Z.pos p.
Proof.
  assert (Hstep : forall r, 0 <= shr_m r -> 0 <= shr_m (shr_1 r)).
  { intros r Hr. rewrite shr_1_m by exact Hr. apply Z.div_pos; lia. }
  assert (Hpow : forall q : positive, 0 < 2 ^ Z.pos q)
    by (intros q; apply Z.pow_pos_nonneg; lia).
  induction p as [p IH | p IH |]; intros r Hr; cbn [iter_pos].
  - assert (H1 : 0 <= shr_m (iter_pos shr_1 p (shr_1 r)))
      by (rewrite IH by auto; apply Z.div_pos; auto).
    rewrite IH, IH, shr_1_m by auto.
    pose proof (Hpow p).
    rewrite !Z.div_div by lia.
    f_equal. rewrite (Pos2Z.inj_xI p).
    replace (2 * Z.pos p + 1) with (1 + Z.pos p + Z.pos p) by lia.
    rewrite !Z.pow_add_r by lia. change (2 ^ 1) with 2. lia.
  - assert (H1 : 0 <= shr_m (iter_pos shr_1 p r))
      by (rewrite IH by auto; apply Z.div_pos; auto).
    rewrite IH, IH by auto.
    pose proof (Hpow p).
    rewrite !Z.div_div by lia.
    f_equal. rewrite (Pos2Z.inj_xO p).
    replace (2 * Z.pos p) with (Z.pos p + Z.pos p) by lia.
    rewrite !Z.pow_add_r by lia. lia.
  - rewrite shr_1_m by assumption. reflexivity.
Qed.

Lemma shr_spec (r : shr_record) (e n : Z) :
  0 <= n -> 0 <= shr_m r ->
  exists r', shr r e n = (r', e + n) /\ shr_m r' = shr_m r / 2 ^ n.
Proof.
  intros Hn Hr. destruct n as [|p|p]; try lia; cbn [shr].
  - exists r. rewrite Z.add_0_r, Z.div_1_r. auto.
  - eexists; split; [reflexivity | apply iter_pos_shr_1_m; exact Hr].
Qed.

Lemma round_nearest_even_bounds (m : Z) (l : location) :
  m <= round_nearest_even m l <= m + 1.
Proof.
  destruct l as [|[]]; cbn [round_nearest_even]; try lia.
  destruct (Z.even m); lia.
Qed.

Lemma above_weaken (E M E' M' : Z) (r : spec_float) :
  above E M r -> E' < E \/ (E' = E /\ M' <= M) -> above E' M' r.
Proof.
  intros [Hinf | (m & e & Hr & Hd & He & Hord)] Hle; [left; exact Hinf | right].
  exists m, e. repeat split; try assumption; try lia.
Qed.

Lemma above_valid (E M : Z) (r : spec_float) :
  above E M r -> valid_binary r = true.
Proof.
  intros [-> | (m & e & -> & Hd & He & _)]; [reflexivity | ].
  cbn [valid_binary]. unfold bounded, canonical_mantissa, fexp, SpecFloat.emin, prec, emax.
  rewrite Hd. apply andb_true_intro; split.
  - apply Z.eqb_eq. lia.
  - apply Z.leb_le. lia.
Qed.

Lemma binary_round_aux_above (mx ex : Z) (lx : location) :
  0 < mx -> 53 <= Zdigits2 mx -> -1074 <= ex + Zdigits2 mx - 53 ->
  above (ex + Zdigits2 mx - 53) (mx / 2 ^ (Zdigits2 mx - 53))
        (binary_round_aux prec emax false mx ex lx).
Proof.
  intros Hmx Hd He.
  set (d := Zdigits2 mx) in *.
  pose proof (Zdigits2_bounds mx Hmx) as Hb. fold d in Hb.
  pose proof (trunc53_bounds mx d Hb Hd) as Ht.
  unfold binary_round_aux, shr_fexp.
  fold d.
  replace (fexp prec emax (d + ex) - ex) with (d - 53)
    by (unfold fexp, SpecFloat.emin, prec, emax; lia).
  destruct (shr_spec (shr_record_of_loc mx lx) ex (d - 53)) as (r1 & -> & Hr1);
    [lia | rewrite shr_m_of_loc; lia | ].
  rewrite shr_m_of_loc in Hr1.
  set (m1 := mx / 2 ^ (d - 53)) in *.
  pose proof (round_nearest_even_bounds (shr_m r1) (loc_of_shr_record r1)) as Hrne.
  set (m2 := round_nearest_even (shr_m r1) (loc_of_shr_record r1)) in *.
  rewrite Hr1 in Hrne.
  change (2 ^ 52) with 4503599627370496 in Ht.
  change (2 ^ 53) with 9007199254740992 in Ht.
  assert (Hd2 : (Zdigits2 m2 = 53 /\ m2 < 9007199254740992) \/
                (Zdigits2 m2 = 54 /\ m2 = 9007199254740992)).
  { destruct (Z.eq_dec m2 9007199254740992) as [-> | Hne]; [right; split; reflexivity | left].
    split; [ | lia].
    apply Zdigits2_unique; [ | lia].
    change (2 ^ (53 - 1)) with 4503599627370496.
    change (2 ^ 53) with 9007199254740992. lia. }
  replace (fexp prec emax (Zdigits2 m2 + (ex + (d - 53))) - (ex + (d - 53)))
    with (Zdigits2 m2 - 53)
    by (unfold fexp, SpecFloat.emin, prec, emax; lia).
  destruct (shr_spec (shr_record_of_loc m2 loc_Exact) (ex + (d - 53)) (Zdigits2 m2 - 53))
    as (r2 & -> & Hr2); [lia | rewrite shr_m_of_loc; lia | ].
  rewrite shr_m_of_loc in Hr2.
  assert (H3 : 4503599627370496 <= shr_m r2 < 9007199254740992 /\
               (Zdigits2 m2 = 53 -> shr_m r2 = m2)).
  { rewrite Hr2. destruct Hd2 as [[-> Hlt] | [-> ->]].
    - change (2 ^ (53 - 53)) with 1. rewrite Z.div_1_r. lia.
    - split; [ | lia]. vm_compute. split; [discriminate | reflexivity]. }
  destruct H3 as [H3 H3'].
  destruct (shr_m r2) as [|m3|m3] eqn:Em3; try lia.
  unfold prec, emax. change (1024 - 53) with 971.
  destruct (Z.leb_spec (ex + (d - 53) + (Zdigits2 m2 - 53)) 971) as [Hle | Hgt];
    [right | left; reflexivity].
  exists m3, (ex + (d - 53) + (Zdigits2 m2 - 53)). split; [reflexivity | ].
  split.
  { change (Zdigits2 (Z.pos m3) = 53). apply Zdigits2_unique; [ | lia].
    change (2 ^ (53 - 1)) with 4503599627370496.
    change (2 ^ 53) with 9007199254740992. lia. }
  split; [lia | ].
  destruct Hd2 as [[Hd2 _] | [Hd2 _]].
  - right. split; [lia | ]. rewrite (H3' Hd2). lia.
  - left. lia.
Qed.


Lemma SFdiv_core_binary_53 (mx my : positive) (ex ey : Z) :
  Z.pos (digits2_pos mx) = 53 -> Z.pos (digits2_pos my) = 53 -> ey <= ex ->
  SFdiv_core_binary prec emax (Z.pos mx) ex (Z.pos my) ey
  = (Z.pos mx * 2 ^ 53 / Z.pos my, ex - ey - 53,
     new_location (Z.pos my) (Z.pos mx * 2 ^ 53 mod Z.pos my)).
Proof.
  intros Hdx Hdy Hle. unfold SFdiv_core_binary. cbn [Zdigits2].
  rewrite Hdx, Hdy.
  replace (Z.min (fexp prec emax (53 + ex - (53 + ey))) (ex - ey)) with (ex - ey - 53)
    by (unfold fexp, SpecFloat.emin, prec, emax; lia).
  replace (ex - ey - (ex - ey - 53)) with 53 by lia.
  rewrite Z.shiftl_mul_pow2 by lia.
  unfold Z.div, Z.modulo.
  destruct (Z.div_eucl (Z.pos mx * 2 ^ 53) (Z.pos my)); reflexivity.
Qed.

(** Dividing a 53-digit positive pair by one that is not larger gives at
    least 1.0, which is the pair [(2^52, -52)]. *)
Lemma SFdiv_above_one (mx my : positive) (ex ey : Z) :
  Z.pos (digits2_pos mx) = 53 -> Z.pos (digits2_pos my) = 53 ->
  ey < ex \/ (ex = ey /\ Z.pos my <= Z.pos mx) ->
  above (-52) 4503599627370496
        (SFdiv prec emax (S754_finite false mx ex) (S754_finite false my ey)).
Proof.
  intros Hdx Hdy Hord. cbn [SFdiv].
  rewrite SFdiv_core_binary_53 by (assumption || lia). cbn [xorb].
  pose proof (digits2_pos_bounds mx) as Hbx. rewrite Hdx in Hbx.
  pose proof (digits2_pos_bounds my) as Hby. rewrite Hdy in Hby.
  change (2 ^ (53 - 1)) with 4503599627370496 in Hbx, Hby.
  change (2 ^ 53) with 9007199254740992 in *.
  set (q := Z.pos mx * 9007199254740992 / Z.pos my).
  assert (Hq : 4503599627370496 <= q < 18014398509481984).
  { unfold q. split.
    - apply Z.div_le_lower_bound; nia.
    - apply Z.div_lt_upper_bound; nia. }
  assert (Hq' : ex = ey -> 9007199254740992 <= q).
  { intros ->. unfold q. apply Z.div_le_lower_bound; nia. }
  assert (Hdq : (Zdigits2 q = 53 /\ q < 9007199254740992) \/
                (Zdigits2 q = 54 /\ 9007199254740992 <= q)).
  { destruct (Z.lt_ge_cases q 9007199254740992) as [Hlt | Hge]; [left | right];
      (split; [apply Zdigits2_unique; [ | lia] | lia]).
    - change (2 ^ (53 - 1)) with 4503599627370496.
      change (2 ^ 53) with 9007199254740992. lia.
    - change (2 ^ (54 - 1)) with 9007199254740992.
      change (2 ^ 54) with 18014398509481984. lia. }
  assert (Hbra := binary_round_aux_above q (ex - ey - 53)
                    (new_location (Z.pos my) (Z.pos mx * 9007199254740992 mod Z.pos my))).
  eapply above_weaken.
  - apply Hbra; lia.
  - pose proof (trunc53_bounds q (Zdigits2 q) (Zdigits2_bounds q ltac:(lia)) ltac:(lia)) as Ht.
    change (2 ^ 52) with 4503599627370496 in Ht.
    destruct Hord as [Hlt | [-> Hm]].
    + destruct (Z.eq_dec (ex - ey - 53 + Zdigits2 q - 53) (-52)); [right | left]; lia.
    + right. specialize (Hq' eq_refl). lia.
Qed.

Lemma pos_iter_xO (m d : positive) : Z.pos (Pos.iter xO m d) = Z.pos m * 2 ^ Z.pos d.
Proof.
  revert m. induction d as [d IH | d IH |]; intros m; cbn [Pos.iter].
  - rewrite (Pos2Z.inj_xO (Pos.iter _ _ _)), IH, IH, (Pos2Z.inj_xI d).
    replace (2 * Z.pos d + 1) with (1 + Z.pos d + Z.pos d) by lia.
    rewrite !Z.pow_add_r by lia. change (2 ^ 1) with 2. lia.
  - rewrite IH, IH, (Pos2Z.inj_xO d).
    replace (2 * Z.pos d) with (Z.pos d + Z.pos d) by lia.
    rewrite !Z.pow_add_r by lia. lia.
  - rewrite (Pos2Z.inj_xO m). change (2 ^ 1) with 2. lia.
Qed.

(** [float(n)] is at or above [float(c)] when [c <= n] and [c] has at most
    53 binary digits. *)
Lemma binary_normalize_above (c n : positive) :
  Z.pos (digits2_pos c) <= 53 -> Z.pos c <= Z.pos n ->
  above (Z.pos (digits2_pos c) - 53) (Z.pos c * 2 ^ (53 - Z.pos (digits2_pos c)))
        (binary_normalize prec emax (Z.pos n) 0 false).
Proof.
  intros Hdc Hcn. cbn [binary_normalize]. unfold binary_round, shl_align.
  set (dc := Z.pos (digits2_pos c)) in *.
  set (dn := Z.pos (digits2_pos n)).
  assert (Hmono : dc <= dn) by (apply (Zdigits2_mono (Z.pos c) (Z.pos n)); lia).
  pose proof (digits2_pos_bounds n) as Hbn. fold dn in Hbn.
  replace (fexp prec emax (dn + 0) - 0) with (dn - 53)
    by (unfold fexp, SpecFloat.emin, prec, emax; lia).
  replace (fexp prec emax (dn + 0)) with (dn - 53)
    by (unfold fexp, SpecFloat.emin, prec, emax; lia).
  destruct (dn - 53) as [|k|k] eqn:Ek.
  - (* n has exactly 53 digits *)
    eapply above_weaken.
    + apply binary_round_aux_above; cbn [Zdigits2]; fold dn; lia.
    + cbn [Zdigits2]. fold dn. replace (dn - 53) with 0 by lia.
      rewrite Z.div_1_r.
      destruct (Z.eq_dec dc 53) as [E | NE]; [right | left; lia].
      split; [lia | ]. rewrite E. change (2 ^ (53 - 53)) with 1. lia.
  - (* n has more than 53 digits: it is rounded *)
    eapply above_weaken.
    + apply binary_round_aux_above; cbn [Zdigits2]; fold dn; lia.
    + cbn [Zdigits2]. fold dn. left. lia.
  - (* n has fewer than 53 digits: it is shifted left, exactly *)
    assert (Hshift : Z.pos (Pos.iter xO n k) = Z.pos n * 2 ^ (53 - dn))
      by (rewrite pos_iter_xO; f_equal; f_equal; lia).
    assert (Hdig : Zdigits2 (Z.pos (Pos.iter xO n k)) = 53).
    { apply Zdigits2_unique; [ | lia]. rewrite Hshift.
      assert (E1 : 2 ^ (53 - 1) = 2 ^ (dn - 1) * 2 ^ (53 - dn))
        by (rewrite <- Z.pow_add_r by lia; f_equal; lia).
      assert (E2 : 2 ^ 53 = 2 ^ dn * 2 ^ (53 - dn))
        by (rewrite <- Z.pow_add_r by lia; f_equal; lia).
      rewrite E1, E2.
      assert (0 < 2 ^ (53 - dn)) by (apply Z.pow_pos_nonneg; lia).
      split; [apply Z.mul_le_mono_nonneg_r | apply Z.mul_lt_mono_pos_r]; lia. }
    eapply above_weaken.
    + apply binary_round_aux_above; rewrite ?Hdig; lia.
    + rewrite Hdig. change (2 ^ (53 - 53)) with 1. rewrite Z.div_1_r, Hshift.
      destruct (Z.eq_dec dc dn) as [E | NE]; [right | left; lia].
      split; [lia | ]. rewrite E.
      assert (0 < 2 ^ (53 - dn)) by (apply Z.pow_pos_nonneg; lia).
      apply Z.mul_le_mono_nonneg_r; lia.
Qed.

Lemma above_not_ltb (E : Z) (M : positive) (r : spec_float) :
  above E (Z.pos M) r -> SFltb r (S754_finite false M E) = false.
Proof.
  intros [-> | (m & e & -> & Hd & He & Hord)]; [reflexivity | ].
  unfold SFltb, SFcompare.
  destruct Hord as [Hlt | [-> Hm]].
  - rewrite (proj2 (Z.compare_gt_iff e E)) by lia. reflexivity.
  - rewrite Z.compare_refl.
    pose proof (Pos.compare_spec m M) as Hc.
    unfold Pos.compare in Hc.
    destruct Hc as [Hc | Hc | Hc]; try reflexivity.
    apply Pos2Z.pos_lt_pos in Hc. lia.
Qed.


(** [float(n) / c >= 1.0] when [n >= c]: the quotient does not compare
    below one, whatever the rounding. *)
Lemma float_of_int_div_not_below_one (c n my : positive) (ey : Z) (C : float) :
  Prim2SF C = S754_finite false my ey ->
  Z.pos (digits2_pos my) = 53 ->
  Z.pos (digits2_pos c) <= 53 ->
  ey = Z.pos (digits2_pos c) - 53 ->
  Z.pos my = Z.pos c * 2 ^ (53 - Z.pos (digits2_pos c)) ->
  Z.pos c <= Z.pos n ->
  (float_of_int (Z.pos n) / C <? 1)%float = false.
Proof.
  intros HC Hdmy Hdc Hey Hmy Hcn.
  pose proof (binary_normalize_above c n Hdc Hcn) as Habove.
  rewrite <- Hey, <- Hmy in Habove.
  rewrite ltb_spec, div_spec. unfold float_of_int.
  rewrite Prim2SF_SF2Prim by (eapply above_valid; exact Habove).
  rewrite HC.
  assert (H1 : Prim2SF 1 = S754_finite false 4503599627370496 (-52)) by reflexivity.
  rewrite H1. apply above_not_ltb.
  destruct Habove as [-> | (m & e & -> & Hd & He & Hord)].
  - left. reflexivity.
  - unfold SF64div. apply SFdiv_above_one; assumption.
Qed.

End SFBounds.

(** * Facts about the scores *)

Module FloatFacts.

Import Binary64 Tables SFBounds.

Lemma In_Zrange (lo : Z) (n : nat) (z : Z) :
  lo <= z < lo + Z.of_nat n -> In z (Zrange lo n).
Proof.
  intros H. unfold Zrange. apply in_map_iff.
  exists (Z.to_nat (z - lo)). split; [lia | ].
  apply in_seq. lia.
Qed.

Lemma ratio_score_saturates (c : positive) (target : float) (my : positive) (n : Z) :
  Prim2SF target = S754_finite false my (Z.pos (digits2_pos c) - 53) ->
  Z.pos (digits2_pos my) = 53 ->
  Z.pos (digits2_pos c) <= 53 ->
  Z.pos my = Z.pos c * 2 ^ (53 - Z.pos (digits2_pos c)) ->
  Z.pos c <= n ->
  ratio_score target n = 1%float.
Proof.
  intros HC Hdmy Hdc Hmy Hcn. destruct n as [|p|p]; try lia.
  unfold ratio_score, py_min.
  rewrite (float_of_int_div_not_below_one c p my _ target HC Hdmy Hdc eq_refl Hmy Hcn).
  reflexivity.
Qed.

Lemma length_ratio_saturates (n : Z) : 200 <= n -> ratio_score 200 n = 1%float.
Proof.
  apply (ratio_score_saturates 200 200 7036874417766400); try reflexivity.
  cbn. lia.
Qed.

Lemma word_ratio_saturates (n : Z) : 50 <= n -> ratio_score 50 n = 1%float.
Proof.
  apply (ratio_score_saturates 50 50 7036874417766400); try reflexivity.
  cbn. lia.
Qed.

Lemma punctuation_ratio_saturates (n : Z) : 5 <= n -> ratio_score 5 n = 1%float.
Proof.
  apply (ratio_score_saturates 5 5 5629499534213120); try reflexivity.
  cbn. lia.
Qed.

Lemma ratio_score_in_table (target : float) (c : nat) (n : Z) :
  (forall k, Z.of_nat c <= k -> ratio_score target k = 1%float) ->
  0 <= n ->
  In (ratio_score target n) (map (ratio_score target) (Zrange 0 (S c))).
Proof.
  intros Hsat Hn. destruct (Z.lt_ge_cases n (Z.of_nat c)) as [Hlt | Hge].
  - apply in_map, In_Zrange. lia.
  - rewrite (Hsat n Hge), <- (Hsat (Z.of_nat c)) by lia.
    apply in_map, In_Zrange. lia.
Qed.

Lemma weighted_in_unit_tables :
  weighted_in_unit_on length_scores word_scores sentiment_scores punctuation_scores = true.
Proof. vm_compute. reflexivity. Qed.

Lemma weighted_in_unit (a b c d : float) :
  In a length_scores -> In b word_scores -> In c sentiment_scores ->
  In d punctuation_scores -> in_unit (weighted a b c d) = true.
Proof.
  intros Ha Hb Hc Hd.
  pose proof weighted_in_unit_tables as H. unfold weighted_in_unit_on in H.
  rewrite forallb_forall in H. specialize (H a Ha).
  rewrite forallb_forall in H. specialize (H b Hb).
  rewrite forallb_forall in H. specialize (H c Hc).
  rewrite forallb_forall in H. exact (H d Hd).
Qed.


(** Float multiplication and addition commute. *)
Lemma SFmul_comm (x y : spec_float) : SF64mul x y = SF64mul y x.
Proof.
  unfold SF64mul.
  destruct x as [sx|sx| |sx mx ex], y as [sy|sy| |sy my ey]; cbn [SFmul];
    rewrite ?(xorb_comm sx sy); try reflexivity.
  rewrite (Pos.mul_comm mx my), (Z.add_comm ex ey). reflexivity.
Qed.

Lemma SFadd_comm (x y : spec_float) : SF64add x y = SF64add y x.
Proof.
  unfold SF64add.
  destruct x as [sx|sx| |sx mx ex], y as [sy|sy| |sy my ey]; cbn [SFadd];
    try reflexivity; try (destruct sx, sy; reflexivity).
  rewrite (Z.min_comm ey ex), Z.add_comm. reflexivity.
Qed.

Lemma mul_comm (x y : float) : (x * y = y * x)%float.
Proof. apply Prim2SF_inj. rewrite !mul_spec. apply SFmul_comm. Qed.

Lemma add_comm (x y : float) : (x + y = y + x)%float.
Proof. apply Prim2SF_inj. rewrite !add_spec. apply SFadd_comm. Qed.

(** *** [round(x, 3)] keeps a score between 0 and 1 *)

Lemma rhe_shift_bounds (num k B : Z) :
  0 <= k -> 0 <= num -> num <= B * 2 ^ k -> 0 <= rhe_shift num k <= B.
Proof.
  intros Hk Hnum Hle. unfold rhe_shift.
  assert (Hden : 0 < 2 ^ k) by (apply Z.pow_pos_nonneg; lia).
  set (den := 2 ^ k) in *.
  pose proof (Z.div_mod num den ltac:(lia)) as Hdm.
  pose proof (Z.mod_pos_bound num den Hden) as Hr.
  assert (Hq0 : 0 <= num / den) by (apply Z.div_pos; lia).
  assert (HqB : num / den <= B) by (apply Z.div_le_upper_bound; lia).
  set (q := num / den) in *. set (r := num mod den) in *.
  destruct (Z.eq_dec q B) as [E | NE].
  - assert (r = 0) by (rewrite E in Hdm; lia).
    replace (2 * r ?= den) with Lt by (symmetry; apply Z.compare_lt_iff; lia). lia.
  - destruct (2 * r ?= den); [destruct (Z.even q) | | ]; lia.
Qed.

Lemma valid_digits (s : bool) (m : positive) (e : Z) :
  valid_binary (S754_finite s m e) = true -> Z.pos m < 2 ^ 53.
Proof.
  cbn [SpecFloat.valid_binary]. unfold bounded, canonical_mantissa.
  intros H. apply andb_prop in H. destruct H as [H _]. apply Z.eqb_eq in H.
  unfold fexp, SpecFloat.emin, prec, emax in H.
  pose proof (digits2_pos_bounds m) as [_ Hhi].
  assert (2 ^ Z.pos (digits2_pos m) <= 2 ^ 53) by (apply Z.pow_le_mono_r; lia).
  lia.
Qed.

Lemma SFleb_zero_finite (s : bool) (m : positive) (e : Z) :
  SFleb (S754_zero false) (S754_finite s m e) = true -> s = false.
Proof. destruct s; [discriminate | reflexivity]. Qed.

Lemma SFleb_finite_inv (m M : positive) (e E : Z) :
  SFleb (S754_finite false m e) (S754_finite false M E) = true ->
  e < E \/ (e = E /\ Z.pos m <= Z.pos M).
Proof.
  unfold SFleb, SFcompare.
  destruct (Z.compare_spec e E) as [-> | Hlt | Hgt]; [ | left; exact Hlt | discriminate].
  pose proof (Pos.compare_spec m M) as Hc. unfold Pos.compare in Hc.
  destruct Hc as [-> | Hc | Hc]; intros H; try discriminate; right; split; try reflexivity.
  apply Pos2Z.pos_lt_pos in Hc. lia.
Qed.

Lemma thousandths_in_unit : forallb in_unit thousandths = true.
Proof. vm_compute. reflexivity. Qed.

Lemma int_truediv_1000_in_unit (k : Z) :
  1 <= k <= 1000 -> in_unit (int_truediv k 1000) = true.
Proof.
  intros Hk. pose proof thousandths_in_unit as H.
  rewrite forallb_forall in H. apply H.
  unfold thousandths. apply (in_map (fun k => int_truediv k 1000)), In_Zrange. lia.
Qed.

Lemma round3_in_unit (x : float) : in_unit x = true -> in_unit (round3 x) = true.
Proof.
  intros Hx. pose proof Hx as Hx'. unfold in_unit in Hx'.
  apply andb_prop in Hx'. destruct Hx' as [H0 H1].
  rewrite leb_spec in H0, H1.
  assert (E0 : Prim2SF 0 = S754_zero false) by reflexivity.
  assert (E1 : Prim2SF 1 = S754_finite false 4503599627370496 (-52)) by reflexivity.
  rewrite E0 in H0. rewrite E1 in H1. clear E0 E1.
  pose proof (Prim2SF_valid x) as Hv.
  unfold round3.
  destruct (Prim2SF x) as [s|s| |s m e]; try exact Hx.
  apply SFleb_zero_finite in H0. subst s.
  apply SFleb_finite_inv in H1.
  apply valid_digits in Hv.
  change (2 ^ 53) with 9007199254740992 in Hv.
  assert (He : e <= -52) by lia.
  replace (0 <=? e) with false by (symmetry; apply Z.leb_gt; lia).
  assert (Hm : Z.pos m <= 2 ^ (- e)).
  { destruct H1 as [Hlt | [-> Hm]].
    - assert (2 ^ 53 <= 2 ^ (- e)) by (apply Z.pow_le_mono_r; lia).
      change (2 ^ 53) with 9007199254740992 in *. lia.
    - exact Hm. }
  pose proof (rhe_shift_bounds (Z.pos m * 1000) (- e) 1000 ltac:(lia) ltac:(lia) ltac:(lia)) as Hk.
  destruct (Z.eqb_spec (rhe_shift (Z.pos m * 1000) (- e)) 0) as [_ | Hne].
  - reflexivity.
  - apply int_truediv_1000_in_unit. lia.
Qed.

End FloatFacts.

Module ScoreFacts.

Import Tables FloatFacts.

Lemma len_nonneg (s : string) : 0 <= len s.
Proof. unfold len. lia. Qed.

Lemma count_chars_nonneg (p : ascii -> bool) (s : string) : 0 <= count_chars p s.
Proof. induction s as [|c s IH]; cbn [count_chars]; [lia | destruct (p c); lia]. Qed.

Lemma count_hits_bounds (words : list string) (text : string) :
  0 <= count_hits words text <= Z.of_nat (List.length words).
Proof.
  induction words as [|w ws IH]; cbn [count_hits List.length]; [lia | ].
  destruct (contains w text); lia.
Qed.

Lemma count_hits_app (l1 l2 : list string) (text : string) :
  count_hits (l1 ++ l2) text = count_hits l1 text + count_hits l2 text.
Proof.
  induction l1 as [|w ws IH]; cbn [count_hits app]; [reflexivity | ].
  rewrite IH. lia.
Qed.

Lemma count_hits_filter (words : list string) (text : string) :
  count_hits words text
  = Z.of_nat (List.length (filter (fun w => contains w text) words)).
Proof.
  induction words as [|w ws IH]; cbn [count_hits filter]; [reflexivity | ].
  destruct (contains w text); cbn [List.length]; lia.
Qed.

Lemma startswith_spec (w s : string) :
  startswith w s = true <-> exists post, s = w ++ post.
Proof.
  revert s. induction w as [|a w IH]; intros s; cbn [startswith].
  - split; [intros _; exists s; reflexivity | reflexivity].
  - destruct s as [|b s].
    + split; [discriminate | intros [post H]; discriminate H].
    + rewrite andb_true_iff, IH, Ascii.eqb_eq. split.
      * intros [-> [post ->]]. exists post. reflexivity.
      * intros [post H]. cbn in H. injection H as -> ->. split; [reflexivity | ].
        exists post. reflexivity.
Qed.

Lemma contains_spec (w s : string) :
  contains w s = true <-> exists pre post, s = pre ++ w ++ post.
Proof.
  split.
  - induction s as [|c s IH]; cbn [contains];
      destruct (startswith w _) eqn:E; try discriminate.
    + intros _. apply startswith_spec in E. destruct E as [post ->].
      exists "", post. reflexivity.
    + intros _. apply startswith_spec in E. destruct E as [post E].
      exists "", post. exact E.
    + intros H. destruct (IH H) as (pre & post & ->).
      exists (String c pre), post. reflexivity.
  - intros (pre & post & ->). induction pre as [|c pre IH].
    + cbn [append].
      assert (E : startswith w (w ++ post) = true)
        by (apply startswith_spec; exists post; reflexivity).
      destruct (w ++ post); cbn [contains]; rewrite E; reflexivity.
    + cbn [append contains]. rewrite IH.
      destruct (startswith w _); reflexivity.
Qed.

(** Every score is the rounded weighted sum of four table entries. *)
Lemma rounded_weighted_in_unit (positive negative : list string) (text : string) :
  (List.length positive <= 7)%nat -> (List.length negative <= 7)%nat ->
  in_unit
    (round3 (weighted
       (ratio_score 200 (len text))
       (ratio_score 50 (Z.of_nat (List.length (split text))))
       (sentiment_of (count_hits positive (lower text) - count_hits negative (lower text)))
       (ratio_score 5 (count_chars (fun c => contains (String c EmptyString) ".,!?;:") text))))
  = true.
Proof.
  intros Hp Hn. apply round3_in_unit, weighted_in_unit.
  - apply (ratio_score_in_table 200 200); [ | apply len_nonneg].
    intros k Hk. apply length_ratio_saturates. lia.
  - apply (ratio_score_in_table 50 50); [ | lia].
    intros k Hk. apply word_ratio_saturates. lia.
  - apply in_map, In_Zrange.
    pose proof (count_hits_bounds positive (lower text)).
    pose proof (count_hits_bounds negative (lower text)). lia.
  - apply (ratio_score_in_table 5 5); [ | apply count_chars_nonneg].
    intros k Hk. apply punctuation_ratio_saturates. lia.
Qed.

Lemma reference_score_unfold (positive negative : list string) (text : string) :
  HarmonyScorer.score positive negative text
  = round3 (weighted
       (ratio_score 200 (len text))
       (ratio_score 50 (Z.of_nat (List.length (split text))))
       (sentiment_of (count_hits positive (lower text) - count_hits negative (lower text)))
       (ratio_score 5 (count_chars (fun c => contains (String c EmptyString) ".,!?;:") text))).
Proof.
  unfold HarmonyScorer.score, HarmonyScorer.length_score, HarmonyScorer.word_score,
    HarmonyScorer.sentiment_score, HarmonyScorer.punctuation_score, HarmonyScorer.clamp,
    HarmonyScorer.positive_hits, HarmonyScorer.negative_hits,
    weighted, ratio_score, sentiment_of.
  rewrite !(mul_comm 0.25), (add_comm 0.5). reflexivity.
Qed.

(** C1. For every text, both message scorers compute the reference
    score of the specification (the 0.25-weighted sum of the length, word,
    sentiment and punctuation sub-scores, rounded to 3 decimals), each with
    its own lexicons; the result lies between 0 and 1; and the empty
    string scores 0.125.  The scorers are total functions of the text, so
    they return for every input and return the same value each time. *)
Theorem harmony_score_is_reference (text : string) :
  WhatsAppExtractor.calculate_harmony_score text
  = HarmonyScorer.score WhatsAppExtractor.positive_words
      WhatsAppExtractor.negative_words text
  /\ PlatformExtractor.calculate_harmony text
     = HarmonyScorer.score PlatformExtractor.positive_words
         PlatformExtractor.negative_words text
  /\ in_unit (WhatsAppExtractor.calculate_harmony_score text) = true
  /\ in_unit (PlatformExtractor.calculate_harmony text) = true
  /\ WhatsAppExtractor.calculate_harmony_score "" = 0.125%float
  /\ PlatformExtractor.calculate_harmony "" = 0.125%float.
Proof.
  assert (Hw : WhatsAppExtractor.calculate_harmony_score text
               = HarmonyScorer.score WhatsAppExtractor.positive_words
                   WhatsAppExtractor.negative_words text)
    by (rewrite reference_score_unfold; reflexivity).
  assert (Hp : PlatformExtractor.calculate_harmony text
               = HarmonyScorer.score PlatformExtractor.positive_words
                   PlatformExtractor.negative_words text)
    by (rewrite reference_score_unfold; reflexivity).
  split; [exact Hw | ]. split; [exact Hp | ].
  split; [ | split; [ | split; vm_compute; reflexivity]].
  - rewrite Hw, reference_score_unfold.
    apply rounded_weighted_in_unit; cbn; lia.
  - rewrite Hp, reference_score_unfold.
    apply rounded_weighted_in_unit; cbn; lia.
Qed.


(** *** Sentiment *)

Lemma sentiment_table : sentiment_table_ok = true.
Proof. vm_compute. reflexivity. Qed.

Lemma sentiment_of_monotone (d1 d2 : Z) :
  -7 <= d1 -> d1 <= d2 -> d2 <= 7 ->
  (sentiment_of d1 <=? sentiment_of d2)%float = true
  /\ (sentiment_of d2 <=? 1)%float = true
  /\ ((sentiment_of d2 =? 1)%float = true <-> 5 <= d2).
Proof.
  intros H1 H12 H2. pose proof sentiment_table as H.
  unfold sentiment_table_ok in H.
  rewrite forallb_forall in H. specialize (H d1 ltac:(apply In_Zrange; lia)).
  rewrite forallb_forall in H. specialize (H d2 ltac:(apply In_Zrange; lia)).
  replace (d1 <=? d2) with true in H by (symmetry; apply Z.leb_le; lia).
  cbn [implb] in H. rewrite !andb_true_iff in H. destruct H as [[Ha Hb] Hc].
  apply Bool.eqb_prop in Hc. rewrite Hc, Z.leb_le. tauto.
Qed.

Lemma hits_monotone (positive negative : list string) (t1 t2 : string) :
  (List.length positive <= 7)%nat -> (List.length negative <= 7)%nat ->
  count_hits negative (lower t1) = count_hits negative (lower t2) ->
  count_hits positive (lower t1) <= count_hits positive (lower t2) ->
  let s1 := sentiment_of (count_hits positive (lower t1) - count_hits negative (lower t1)) in
  let s2 := sentiment_of (count_hits positive (lower t2) - count_hits negative (lower t2)) in
  (s1 <=? s2)%float = true /\ (s2 <=? 1)%float = true
  /\ ((s2 =? 1)%float = true
      <-> 5 <= count_hits positive (lower t2) - count_hits negative (lower t2)).
Proof.
  intros Hp Hn Hneg Hpos.
  pose proof (count_hits_bounds positive (lower t1)).
  pose proof (count_hits_bounds positive (lower t2)).
  pose proof (count_hits_bounds negative (lower t1)).
  pose proof (count_hits_bounds negative (lower t2)).
  apply sentiment_of_monotone; lia.
Qed.

(** C7, as the code has it.  With two positive hits ("thanks" and
    "great") and no negative one the sentiment sub-score of
    "Thanks! Great, great, great." is 0.7, not 1.0.  In both scorers, for
    two texts with the same count of negative hits, the text with at least
    as many positive hits has at least as high a sentiment sub-score; the
    sub-score never exceeds 1.0, and it is 1.0 exactly when the positive hits
    exceed the negative hits by 5 or more. *)
Theorem sentiment_monotone_in_positive_hits (t1 t2 : string) :
  (WhatsAppExtractor.negative_count t1 = WhatsAppExtractor.negative_count t2 ->
   WhatsAppExtractor.positive_count t1 <= WhatsAppExtractor.positive_count t2 ->
   (WhatsAppExtractor.sentiment_score t1 <=? WhatsAppExtractor.sentiment_score t2)%float = true
   /\ (WhatsAppExtractor.sentiment_score t2 <=? 1)%float = true
   /\ ((WhatsAppExtractor.sentiment_score t2 =? 1)%float = true
       <-> 5 <= WhatsAppExtractor.positive_count t2 - WhatsAppExtractor.negative_count t2))
  /\ (PlatformExtractor.negative t1 = PlatformExtractor.negative t2 ->
      PlatformExtractor.positive t1 <= PlatformExtractor.positive t2 ->
      (PlatformExtractor.sentiment t1 <=? PlatformExtractor.sentiment t2)%float = true
      /\ (PlatformExtractor.sentiment t2 <=? 1)%float = true
      /\ ((PlatformExtractor.sentiment t2 =? 1)%float = true
          <-> 5 <= PlatformExtractor.positive t2 - PlatformExtractor.negative t2))
  /\ WhatsAppExtractor.positive_count "Thanks! Great, great, great." = 2
  /\ WhatsAppExtractor.negative_count "Thanks! Great, great, great." = 0
  /\ WhatsAppExtractor.sentiment_score "Thanks! Great, great, great." = 0.7%float
  /\ PlatformExtractor.sentiment "Thanks! Great, great, great." = 0.7%float.
Proof.
  split; [ | split; [ | repeat split; vm_compute; reflexivity]].
  - intros Hneg Hpos.
    apply (hits_monotone WhatsAppExtractor.positive_words WhatsAppExtractor.negative_words);
      try assumption; cbn; lia.
  - intros Hneg Hpos.
    apply (hits_monotone PlatformExtractor.positive_words PlatformExtractor.negative_words);
      try assumption; cbn; lia.
Qed.

Lemma sentiment_monotone_witness :
  (WhatsAppExtractor.sentiment_score "good" <=? WhatsAppExtractor.sentiment_score "good, great!")%float = true
  /\ (PlatformExtractor.sentiment "good" <=? PlatformExtractor.sentiment "good, great!")%float = true.
Proof.
  destruct (sentiment_monotone_in_positive_hits "good" "good, great!") as [Hw [Hp _]].
  split.
  - apply Hw; vm_compute; [reflexivity | discriminate].
  - apply Hp; vm_compute; [reflexivity | discriminate].
Defined.

(** C7, as the specification states it, fails: the sentiment sub-score of
    "Thanks! Great, great, great." is not 1.0 in either scorer. *)
Lemma sentiment_two_hits_not_saturated :
  (WhatsAppExtractor.sentiment_score "Thanks! Great, great, great." =? 1)%float = false
  /\ (PlatformExtractor.sentiment "Thanks! Great, great, great." =? 1)%float = false.
Proof. split; vm_compute; reflexivity. Qed.

(** *** The two scorers *)

Lemma whatsapp_positive_count (text : string) :
  WhatsAppExtractor.positive_count text
  = PlatformExtractor.positive text + (if contains "please" (lower text) then 1 else 0).
Proof.
  unfold WhatsAppExtractor.positive_count, PlatformExtractor.positive.
  change WhatsAppExtractor.positive_words
    with (PlatformExtractor.positive_words ++ ["please"])%list.
  rewrite count_hits_app. cbn [count_hits]. lia.
Qed.

Lemma whatsapp_negative_count (text : string) :
  WhatsAppExtractor.negative_count text
  = PlatformExtractor.negative text + (if contains "sorry" (lower text) then 1 else 0).
Proof.
  unfold WhatsAppExtractor.negative_count, PlatformExtractor.negative.
  change WhatsAppExtractor.negative_words
    with (PlatformExtractor.negative_words ++ ["sorry"])%list.
  rewrite count_hits_app. cbn [count_hits]. lia.
Qed.

(** C8, as the code has it.  The two message scorers return the same
    value on every text whose lower-cased form contains neither "please"
    nor "sorry", the two words only the WhatsApp lexicons list. *)
Theorem scorers_agree_without_please_sorry (text : string) :
  contains "please" (lower text) = false ->
  contains "sorry" (lower text) = false ->
  WhatsAppExtractor.calculate_harmony_score text
  = PlatformExtractor.calculate_harmony text.
Proof.
  intros Hplease Hsorry.
  unfold WhatsAppExtractor.calculate_harmony_score, PlatformExtractor.calculate_harmony,
    WhatsAppExtractor.sentiment_score, PlatformExtractor.sentiment.
  rewrite whatsapp_positive_count, whatsapp_negative_count, Hplease, Hsorry, !Z.add_0_r.
  reflexivity.
Qed.

Lemma scorers_agree_witness :
  WhatsAppExtractor.calculate_harmony_score "Hello there!"
  = PlatformExtractor.calculate_harmony "Hello there!".
Proof.
  apply (scorers_agree_without_please_sorry "Hello there!"); vm_compute; reflexivity.
Defined.

(** C8, as stated, fails: on "please" the WhatsApp scorer returns 0.163
    and the platform scorer 0.138. *)
Lemma scorers_differ_on_please :
  WhatsAppExtractor.calculate_harmony_score "please" = 0.163%float
  /\ PlatformExtractor.calculate_harmony "please" = 0.138%float
  /\ (WhatsAppExtractor.calculate_harmony_score "please"
      =? PlatformExtractor.calculate_harmony "please")%float = false.
Proof. repeat split; vm_compute; reflexivity. Qed.

(** C10.  A sentiment count is the number of lexicon words that occur,
    as contiguous runs of characters, in the lower-cased text: a word counts
    once however often it occurs, and it counts inside a longer word too
    ("no" in "know"). *)
Theorem sentiment_hits_are_substring_hits (text : string) :
  WhatsAppExtractor.positive_count text
  = Z.of_nat (List.length (filter (fun w => contains w (lower text))
                             WhatsAppExtractor.positive_words))
  /\ WhatsAppExtractor.negative_count text
     = Z.of_nat (List.length (filter (fun w => contains w (lower text))
                                WhatsAppExtractor.negative_words))
  /\ PlatformExtractor.positive text
     = Z.of_nat (List.length (filter (fun w => contains w (lower text))
                                PlatformExtractor.positive_words))
  /\ PlatformExtractor.negative text
     = Z.of_nat (List.length (filter (fun w => contains w (lower text))
                                PlatformExtractor.negative_words))
  /\ (forall w s, contains w s = true <-> exists pre post, s = pre ++ w ++ post)
  /\ (forall w s, count_hits [w] s = if contains w s then 1 else 0)
  /\ WhatsAppExtractor.positive_count "great great great" = 1
  /\ WhatsAppExtractor.positive_count "GREAT" = 1
  /\ WhatsAppExtractor.negative_count "know" = 1
  /\ PlatformExtractor.negative "know" = 1.
Proof.
  split; [apply count_hits_filter | ].
  split; [apply count_hits_filter | ].
  split; [apply count_hits_filter | ].
  split; [apply count_hits_filter | ].
  split; [exact contains_spec | ].
  split.
  - intros w s. cbn [count_hits]. destruct (contains w s); reflexivity.
  - repeat split; vm_compute; reflexivity.
Qed.

End ScoreFacts.

(** * Facts about the tier classifier *)

Module TierFacts.

Lemma is_nan_Prim2SF (s : float) : is_nan s = false -> Prim2SF s <> S754_nan.
Proof.
  unfold is_nan. rewrite eqb_spec. intros H E. rewrite E in H. discriminate H.
Qed.

(** Against a positive finite bound, [x <= c] is the negation of [c < x]
    for every [x] but NaN. *)
Lemma SFleb_negb_SFltb (x : spec_float) (M : positive) (E : Z) :
  x <> S754_nan ->
  SFleb x (S754_finite false M E) = negb (SFltb (S754_finite false M E) x).
Proof.
  intros Hx. unfold SFleb, SFltb, SFcompare.
  destruct x as [s|s| |s m e]; try congruence; try (destruct s; reflexivity).
  destruct s; [reflexivity | ].
  rewrite (Z.compare_antisym e E).
  destruct (e ?= E); cbn [CompOpp]; try reflexivity.
  pose proof (Pos.compare_cont_antisym m M Eq) as Ha. cbn [CompOpp] in Ha.
  rewrite <- Ha. destruct (Pos.compare_cont Eq m M); reflexivity.
Qed.

(** A value above a positive finite bound is above every smaller one. *)
Lemma SFltb_lower_bound (x : spec_float) (M1 M2 : positive) (E1 E2 : Z) :
  E2 < E1 \/ (E2 = E1 /\ Z.pos M2 <= Z.pos M1) ->
  SFltb (S754_finite false M1 E1) x = true ->
  SFltb (S754_finite false M2 E2) x = true.
Proof.
  intros Hord. unfold SFltb, SFcompare.
  destruct x as [s|s| |s m e]; try discriminate; try (destruct s; intros H; exact H).
  destruct s; [discriminate | ].
  destruct (Z.compare_spec E1 e) as [-> | Hlt | Hgt]; try discriminate.
  - pose proof (Pos.compare_spec M1 m) as Hc. unfold Pos.compare in Hc.
    destruct Hc as [-> | Hc | Hc]; try discriminate. intros _.
    apply Pos2Z.pos_lt_pos in Hc.
    destruct (Z.compare_spec E2 e) as [-> | Hlt | Hgt]; try reflexivity; [ | lia].
    pose proof (Pos.compare_spec M2 m) as Hc2. unfold Pos.compare in Hc2.
    destruct Hc2 as [-> | Hc2 | Hc2]; try reflexivity; [lia | ].
    apply Pos2Z.pos_lt_pos in Hc2. lia.
  - intros _. replace (E2 ?= e) with Lt by (symmetry; apply Z.compare_lt_iff; lia).
    reflexivity.
Qed.

Section Thresholds.

Variable s : float.
Hypothesis s_number : is_nan s = false.

Lemma leb_negb_ltb (c : float) (M : positive) (E : Z) :
  Prim2SF c = S754_finite false M E -> (s <=? c)%float = negb (c <? s)%float.
Proof.
  intros Hc. rewrite leb_spec, ltb_spec, Hc.
  apply SFleb_negb_SFltb, is_nan_Prim2SF, s_number.
Qed.

Lemma ltb_lower_bound (c1 c2 : float) (M1 M2 : positive) (E1 E2 : Z) :
  Prim2SF c1 = S754_finite false M1 E1 -> Prim2SF c2 = S754_finite false M2 E2 ->
  E2 < E1 \/ (E2 = E1 /\ Z.pos M2 <= Z.pos M1) ->
  (c1 <? s)%float = true -> (c2 <? s)%float = true.
Proof.
  intros H1 H2 Hord. rewrite !ltb_spec, H1, H2. apply SFltb_lower_bound, Hord.
Qed.

Lemma above_08_above_06 : (0.8 <? s)%float = true -> (0.6 <? s)%float = true.
Proof.
  apply (ltb_lower_bound 0.8 0.6 7205759403792794 5404319552844595 (-53) (-53));
    try reflexivity.
  right. split; [reflexivity | ]. intros H. discriminate H.
Qed.

Lemma above_06_above_04 : (0.6 <? s)%float = true -> (0.4 <? s)%float = true.
Proof.
  apply (ltb_lower_bound 0.6 0.4 5404319552844595 7205759403792794 (-53) (-54));
    try reflexivity.
  left. reflexivity.
Qed.

Lemma leb_08 : (s <=? 0.8)%float = negb (0.8 <? s)%float.
Proof. apply (leb_negb_ltb 0.8 7205759403792794 (-53)). reflexivity. Qed.

Lemma leb_06 : (s <=? 0.6)%float = negb (0.6 <? s)%float.
Proof. apply (leb_negb_ltb 0.6 5404319552844595 (-53)). reflexivity. Qed.

Lemma leb_04 : (s <=? 0.4)%float = negb (0.4 <? s)%float.
Proof. apply (leb_negb_ltb 0.4 7205759403792794 (-54)). reflexivity. Qed.

Lemma in_range_iff_route (t : Action) :
  TierClassifier.in_range t s = true <-> snd (WhatsAppExtractor.route s) = t.
Proof.
  unfold TierClassifier.in_range, WhatsAppExtractor.route.
  rewrite leb_08, leb_06, leb_04.
  pose proof above_08_above_06 as H86. pose proof above_06_above_04 as H64.
  destruct (0.8 <? s)%float, (0.6 <? s)%float, (0.4 <? s)%float;
    try (specialize (H86 eq_refl); discriminate H86);
    try (specialize (H64 eq_refl); discriminate H64);
    destruct t; cbn; split; intros H; try reflexivity; discriminate H.
Qed.

End Thresholds.

(** C2.  For every score (a float that is a number), the classifier's
    tier is the one tier whose range of the specification's table holds the
    score: above 0.8 ARCHIVE, above 0.6 up to 0.8 VERIFY, above 0.4 up to
    0.6 PROCESS, up to 0.4 REVIEW; so the four ranges cover every score and
    no two overlap.  Both classifiers of the code agree, and 0.81, 0.8, 0.6,
    0.4 and 0.0 fall in ARCHIVE, VERIFY, PROCESS, REVIEW and REVIEW. *)
Theorem tier_of_score (s : float) :
  is_nan s = false ->
  (forall t, TierClassifier.in_range t s = true <-> snd (WhatsAppExtractor.route s) = t)
  /\ WhatsAppExtractor.route s
     = (PlatformExtractor.assign_face s, action_of_face (PlatformExtractor.assign_face s))
  /\ snd (WhatsAppExtractor.route 0.81) = ARCHIVE
  /\ snd (WhatsAppExtractor.route 0.8) = VERIFY
  /\ snd (WhatsAppExtractor.route 0.6) = PROCESS
  /\ snd (WhatsAppExtractor.route 0.4) = REVIEW
  /\ snd (WhatsAppExtractor.route 0.0) = REVIEW.
Proof.
  intros Hs. split; [intros t; apply in_range_iff_route, Hs | ].
  split; [ | repeat split; vm_compute; reflexivity].
  unfold WhatsAppExtractor.route, PlatformExtractor.assign_face.
  destruct (0.8 <? s)%float, (0.6 <? s)%float, (0.4 <? s)%float; reflexivity.
Qed.

Lemma tier_of_score_witness :
  is_nan 0.8 = false
  /\ (TierClassifier.in_range VERIFY 0.8 = true
      <-> snd (WhatsAppExtractor.route 0.8) = VERIFY).
Proof.
  split; [reflexivity | ].
  apply (proj1 (tier_of_score 0.8 eq_refl) VERIFY).
Defined.

End TierFacts.

(** * Facts about the orchestrator *)

Module JoinityFacts.

Import JoinityOrchestrator Backends.

Section World.

Variable getenv : string -> option string.
Variable network : list event -> request -> outcome response.
Variable utcnow : string.
Variable subscript_error : json -> key -> string.
Variable str_other : json -> string.

Local Abbreviation getitem := (JoinityOrchestrator.getitem subscript_error).
Local Abbreviation str := (JoinityOrchestrator.str str_other).
Local Abbreviation total_length := (JoinityOrchestrator.total_length str_other).
Local Abbreviation calculate_harmony := (JoinityOrchestrator.calculate_harmony str_other).
Local Abbreviation ask := (JoinityOrchestrator.ask getenv network subscript_error).
Local Abbreviation ask_all := (JoinityOrchestrator.ask_all getenv network subscript_error).
Local Abbreviation orchestrate :=
  (JoinityOrchestrator.orchestrate getenv network utcnow subscript_error str_other).
Local Abbreviation extract := (Backends.extract subscript_error).
Local Abbreviation query := (Backends.query getenv network subscript_error).
Local Abbreviation answer := (Backends.answer network subscript_error).
Local Abbreviation lacks_credential := (Backends.lacks_credential getenv).
Local Abbreviation api_key_of := (Backends.api_key_of getenv).
Local Abbreviation reply := (Backends.reply getenv network subscript_error).
Local Abbreviation traffic := (Backends.traffic getenv network).
Local Abbreviation collect := (Backends.collect getenv network subscript_error).
Local Abbreviation endpoint := (Backends.endpoint getenv).

Lemma query_unfold (b : backend) (prompt model : string) (t : list event) :
  query b prompt model t =
    if lacks_credential b then (Return (JStr (missing_credential_text b)), t)
    else
      let r := request_of b (api_key_of b) prompt model in
      (Return (answer b t r), (t ++ [Sent r; Received (network t r)])%list).
Proof.
  destruct b; unfold query, lacks_credential, api_key_of, credential, answer, extract;
    cbn [request_of field_path follow];
    unfold query_openai, query_anthropic, query_ollama, query_deepseek,
      try_except, bind, post, ret, lift, key_of;
    try (destruct (not_key _); [reflexivity | ]);
    (destruct (network t _) as [resp | e]; [ | reflexivity]);
    (destruct (status_code resp =? 200); [ | reflexivity]);
    (destruct (json_body resp) as [body | e]; [ | reflexivity]); cbn [obind];
    repeat (match goal with
            | |- context [JoinityOrchestrator.getitem subscript_error ?v ?k] =>
                destruct (JoinityOrchestrator.getitem subscript_error v k); cbn [obind]
            end); reflexivity.
Qed.


Lemma query_reply (b : backend) (prompt : string) (t : list event) :
  query b prompt (default_model b) t
  = (Return (reply b prompt t), (t ++ traffic b prompt t)%list).
Proof.
  rewrite query_unfold. unfold reply, traffic.
  destruct (lacks_credential b); [rewrite app_nil_r | ]; reflexivity.
Qed.

Lemma ask_collect (prompt face : string) (d : dict json) (t : list event) :
  ask prompt face d t
  = (Return (fst (collect prompt [face] d t)), snd (collect prompt [face] d t)).
Proof.
  unfold ask, collect, backend_of_face, bind, ret.
  destruct (String.eqb face "MAN");
    [ pose proof (query_reply OpenAI prompt t) as H; cbn [query default_model] in H;
      rewrite H; reflexivity | ].
  destruct (String.eqb face "LION");
    [ pose proof (query_reply Anthropic prompt t) as H; cbn [query default_model] in H;
      rewrite H; reflexivity | ].
  destruct (String.eqb face "OX");
    [ pose proof (query_reply Ollama prompt t) as H; cbn [query default_model] in H;
      rewrite H; reflexivity | ].
  destruct (String.eqb face "EAGLE");
    [ pose proof (query_reply DeepSeek prompt t) as H; cbn [query default_model] in H;
      rewrite H; reflexivity | ].
  reflexivity.
Qed.

Lemma ask_all_collect (prompt : string) (faces : list string) :
  forall (d : dict json) (t : list event),
  ask_all prompt faces d t
  = (Return (fst (collect prompt faces d t)), snd (collect prompt faces d t)).
Proof.
  induction faces as [|face rest IH]; intros d t; [reflexivity | ].
  cbn [ask_all]. unfold bind at 1. rewrite ask_collect. cbn [collect].
  destruct (backend_of_face face); cbn [fst snd]; apply IH.
Qed.

Lemma calculate_harmony_returns (d : dict json) :
  exists h, calculate_harmony d = Return h.
Proof.
  destruct d as [|kv d]; [eexists; reflexivity | ].
  unfold calculate_harmony, truediv.
  destruct (Z.eqb_spec (Z.of_nat (List.length (kv :: d))) 0) as [E | _];
    [cbn [List.length] in E; lia | ].
  cbn [obind]. eexists. reflexivity.
Qed.


(** *** Dicts *)

Lemma dict_get_set_same {V : Type} (k : string) (v : V) (d : dict V) :
  dict_get k (dict_set k v d) = Some v.
Proof.
  induction d as [|[k' v'] d IH]; cbn [dict_set dict_get].
  - rewrite String.eqb_refl. reflexivity.
  - destruct (String.eqb k k') eqn:E; cbn [dict_get]; rewrite ?String.eqb_refl, ?E; auto.
Qed.

Lemma dict_get_set_other {V : Type} (k k' : string) (v : V) (d : dict V) :
  k <> k' -> dict_get k (dict_set k' v d) = dict_get k d.
Proof.
  intros Hne. induction d as [|[k'' v''] d IH]; cbn [dict_set dict_get].
  - rewrite (proj2 (String.eqb_neq k k') Hne). reflexivity.
  - destruct (String.eqb k' k'') eqn:E; cbn [dict_get].
    + apply String.eqb_eq in E. subst k''.
      rewrite (proj2 (String.eqb_neq k k') Hne). reflexivity.
    + destruct (String.eqb k k''); [reflexivity | exact IH].
Qed.

Lemma backend_of_face_name (face : string) (b : backend) :
  backend_of_face face = Some b -> face_of b = face.
Proof.
  unfold backend_of_face.
  destruct (String.eqb_spec face "MAN") as [-> | _]; [intros [= <-]; reflexivity | ].
  destruct (String.eqb_spec face "LION") as [-> | _]; [intros [= <-]; reflexivity | ].
  destruct (String.eqb_spec face "OX") as [-> | _]; [intros [= <-]; reflexivity | ].
  destruct (String.eqb_spec face "EAGLE") as [-> | _]; [intros [= <-]; reflexivity | ].
  discriminate.
Qed.

Lemma backend_of_face_of (b : backend) : backend_of_face (face_of b) = Some b.
Proof. destruct b; reflexivity. Qed.

Lemma face_of_injective (b b' : backend) : face_of b = face_of b' -> b = b'.
Proof.
  intros H. pose proof (backend_of_face_of b) as E. rewrite H, backend_of_face_of in E.
  congruence.
Qed.

(** *** The loop over the faces *)

Lemma collect_keys (prompt : string) (faces : list string) :
  forall (d : dict json) (t : list event) (k : string),
  dict_get k (fst (collect prompt faces d t)) <> None
  <-> dict_get k d <> None \/ (In k faces /\ backend_of_face k <> None).
Proof.
  induction faces as [|face rest IH]; intros d t k; cbn [collect In].
  - cbn [fst]. tauto.
  - destruct (backend_of_face face) as [b|] eqn:Eb.
    + rewrite IH. pose proof (backend_of_face_name face b Eb) as Hname.
      destruct (String.eqb_spec k face) as [-> | Hne].
      * rewrite Hname, dict_get_set_same, Eb. split; [ | left; discriminate].
        intros _. right. split; [left; reflexivity | discriminate].
      * rewrite dict_get_set_other by congruence.
        split; intros [H | [H1 H2]]; auto; right; split; auto.
        destruct H1 as [H1 | H1]; [congruence | exact H1].
    + rewrite IH. split; intros [H | [H1 H2]]; auto; right; split; auto.
      destruct H1 as [H1 | H1]; [congruence | exact H1].
Qed.

Lemma collect_missing_credential (prompt : string) (b : backend) (faces : list string) :
  lacks_credential b = true ->
  forall (d : dict json) (t : list event),
  In (face_of b) faces \/ dict_get (face_of b) d = Some (JStr (missing_credential_text b)) ->
  dict_get (face_of b) (fst (collect prompt faces d t))
  = Some (JStr (missing_credential_text b)).
Proof.
  intros Hlack. induction faces as [|face rest IH]; intros d t H; cbn [collect].
  - destruct H as [[] | H]. exact H.
  - destruct (backend_of_face face) as [b'|] eqn:Eb.
    + pose proof (backend_of_face_name face b' Eb) as Hname.
      destruct (String.eqb_spec (face_of b) (face_of b')) as [E | NE].
      * apply face_of_injective in E. subst b'. apply IH. right.
        rewrite dict_get_set_same. unfold reply. rewrite Hlack. reflexivity.
      * apply IH. rewrite dict_get_set_other by exact NE.
        destruct H as [[H | H] | H]; [congruence | left; exact H | right; exact H].
    + apply IH. destruct H as [[H | H] | H]; [ | left; exact H | right; exact H].
      rewrite H, backend_of_face_of in Eb. discriminate Eb.
Qed.

Lemma one_at_a_time_cons2 (r : request) (o : outcome response) (t : list event) :
  one_at_a_time (Sent r :: Received o :: t) = one_at_a_time t.
Proof. reflexivity. Qed.

Lemma collect_traffic (prompt : string) (faces : list string) :
  forall (d : dict json) (t : list event),
  exists added,
    snd (collect prompt faces d t) = (t ++ added)%list
    /\ one_at_a_time added = true
    /\ map url (requests_of added) = flat_map (endpoint prompt) faces.
Proof.
  induction faces as [|face rest IH]; intros d t; cbn [collect flat_map].
  - exists []. rewrite app_nil_r. repeat split.
  - unfold endpoint at 1. destruct (backend_of_face face) as [b|]; [ | apply IH].
    destruct (IH (dict_set (face_of b) (reply b prompt t) d) (t ++ traffic b prompt t)%list)
      as (added & Ht & Hseq & Hurl).
    exists (traffic b prompt t ++ added)%list. rewrite Ht, app_assoc.
    split; [reflexivity | ]. unfold traffic.
    destruct (lacks_credential b); cbn [app one_at_a_time requests_of map];
      rewrite Hurl; auto.
Qed.

(** An entry of the responses is what the query of its face returned,
    at the traffic it was called with. *)
Lemma collect_entries (prompt : string) (faces : list string) :
  forall (d : dict json) (t : list event) (face : string) (v : json),
  dict_get face (fst (collect prompt faces d t)) = Some v ->
  dict_get face d = Some v
  \/ exists b pre rest,
       backend_of_face face = Some b /\ In face faces
       /\ snd (collect prompt faces d t)
          = ((t ++ pre) ++ traffic b prompt (t ++ pre) ++ rest)%list
       /\ v = reply b prompt (t ++ pre)%list.
Proof.
  induction faces as [|face0 rest0 IH]; intros d t face v; cbn [collect];
    [cbn [fst]; auto | ].
  destruct (backend_of_face face0) as [b0|] eqn:Eb.
  - intros H. apply IH in H. destruct H as [H | (b & pre & rest & Hb & Hin & Ht & Hv)].
    + destruct (String.eqb_spec face (face_of b0)) as [-> | Hne].
      * rewrite dict_get_set_same in H. injection H as <-. right.
        destruct (collect_traffic prompt rest0
                    (dict_set (face_of b0) (reply b0 prompt t) d)
                    (t ++ traffic b0 prompt t)%list) as (added & Ht & _).
        exists b0, [], added. rewrite app_nil_r.
        split; [apply backend_of_face_of | ].
        split; [left; symmetry; apply backend_of_face_name; exact Eb | ].
        split; [rewrite Ht, app_assoc; reflexivity | reflexivity].
      * rewrite dict_get_set_other in H by exact Hne. left. exact H.
    + right. exists b, (traffic b0 prompt t ++ pre)%list, rest.
      rewrite (app_assoc t (traffic b0 prompt t) pre).
      split; [exact Hb | ]. split; [right; exact Hin | ].
      split; [exact Ht | exact Hv].
  - intros H. apply IH in H. destruct H as [H | (b & pre & rest & Hb & Hin & Ht & Hv)];
      [left; exact H | ].
    right. exists b, pre, rest. repeat split; auto. right. exact Hin.
Qed.

(** *** The claims *)

(** C3, as the code has it.  For every backend variant, prompt and
    model, the query returns a value and never raises.  A variant that uses
    a credential (OpenAI, Anthropic, DeepSeek) returns its missing-credential
    text, with no request sent, when the credential is absent or empty; the
    local-model variant uses none and always sends its request.  A query
    that sends its one request returns the backend's error text with the
    status code when the status is not 200, its error text with the
    exception's text when the call raises (timeout, connection failure) or
    when the body does not decode or lacks the backend's field path, and
    otherwise the value found at that path. *)
Theorem backend_query_returns (b : backend) (prompt model : string) (t : list event) :
  exists v t',
    query b prompt model t = (Return v, t')
    /\ (lacks_credential b = true ->
        v = JStr (missing_credential_text b) /\ t' = t)
    /\ (lacks_credential b = false ->
        let r := request_of b (api_key_of b) prompt model in
        t' = (t ++ [Sent r; Received (network t r)])%list
        /\ (forall e, network t r = Raise e ->
            v = JStr (exception_text b (str_of_exn e)))
        /\ (forall resp, network t r = Return resp -> status_code resp <> 200 ->
            v = JStr (remote_error_text b (status_code resp)))
        /\ (forall resp e, network t r = Return resp -> status_code resp = 200 ->
            extract b resp = Raise e ->
            v = JStr (exception_text b (str_of_exn e)))
        /\ (forall resp x, network t r = Return resp -> status_code resp = 200 ->
            extract b resp = Return x -> v = x))
    /\ (lacks_credential b = true <->
        exists var, credential b = Some var /\ not_key (getenv var) = true)
    /\ credential Ollama = None.
Proof.
  rewrite query_unfold. destruct (lacks_credential b) eqn:Hlack.
  - exists (JStr (missing_credential_text b)), t.
    split; [reflexivity | ]. split; [auto | ]. split; [discriminate | ].
    split; [ | reflexivity].
    unfold lacks_credential in Hlack. destruct (credential b) as [var|]; [ | discriminate].
    split; [intros _; exists var; auto | reflexivity].
  - cbv zeta. eexists. eexists. split; [reflexivity | ].
    split; [discriminate | ]. split.
    + intros _. split; [reflexivity | ]. unfold answer.
      split; [intros e -> ; reflexivity | ].
      split; [intros resp -> Hs; apply Z.eqb_neq in Hs; rewrite Hs; reflexivity | ].
      split; intros resp y -> Hs He; rewrite Hs, He; reflexivity.
    + split; [ | reflexivity]. split; [discriminate | ].
      intros (var & Hc & Hk). unfold lacks_credential in Hlack.
      rewrite Hc, Hk in Hlack. discriminate Hlack.
Qed.

(** C4.  For every prompt and every list of requested faces,
    [orchestrate] returns a complete result and never raises: the result
    carries the prompt, the clock's reading, the status "complete" and the
    aggregate harmony of its responses; its responses hold an entry for
    exactly the requested faces that name a backend; a backend that lacks its
    credential has its missing-credential text as its entry; and when MAN
    lacks its credential and OX answers with a text, the responses are the
    two entries, MAN's missing-credential text and OX's text.  Every entry
    is what the query of its face's backend returned when the loop called it
    (the last time, for a face requested more than once), and the traffic of
    that call is part of the run's traffic.  So each failure is recorded as
    the entry of its own backend: the missing-credential text; the
    backend's error text with the exception's text when the request raised
    (timeout, connection failure); its error text with the status code when
    the status was not 200; its error text with the exception's text when
    the body did not decode or lacked the field path; and otherwise the
    value found at that path. *)
Theorem orchestrate_never_fails (prompt : string) (faces : option (list string))
    (t : list event) :
  exists res me t',
    orchestrate prompt faces t
    = (Return (res, me), t')
    /\ JoinityOrchestrator.prompt res = prompt
    /\ status res = "complete"
    /\ timestamp res = utcnow
    /\ calculate_harmony (responses res) = Return (harmony_score res)
    /\ self_responses me = responses res
    /\ self_harmony_score me = harmony_score res
    /\ (forall face, dict_get face (responses res) <> None
                     <-> In face (requested faces) /\ backend_of_face face <> None)
    /\ (forall b, In (face_of b) (requested faces) -> lacks_credential b = true ->
        dict_get (face_of b) (responses res) = Some (JStr (missing_credential_text b)))
    /\ (forall text resp,
        faces = Some ["MAN"; "OX"] ->
        lacks_credential OpenAI = true ->
        network t (request_of Ollama None prompt "mistral") = Return resp ->
        status_code resp = 200 ->
        extract Ollama resp = Return (JStr text) ->
        responses res = [("MAN", JStr "[MAN] OpenAI API key not configured");
                         ("OX", JStr text)])
    /\ (forall face v,
        dict_get face (responses res) = Some v ->
        exists b pre rest,
          let tb := (t ++ pre)%list in
          let r := request_of b (api_key_of b) prompt (default_model b) in
          backend_of_face face = Some b
          /\ In face (requested faces)
          /\ t' = (tb ++ traffic b prompt tb ++ rest)%list
          /\ query b prompt (default_model b) tb
             = (Return v, (tb ++ traffic b prompt tb)%list)
          /\ (lacks_credential b = true -> v = JStr (missing_credential_text b))
          /\ (lacks_credential b = false ->
              (forall e, network tb r = Raise e ->
                         v = JStr (exception_text b (str_of_exn e)))
              /\ (forall resp, network tb r = Return resp ->
                               status_code resp <> 200 ->
                               v = JStr (remote_error_text b (status_code resp)))
              /\ (forall resp e, network tb r = Return resp ->
                                 status_code resp = 200 ->
                                 extract b resp = Raise e ->
                                 v = JStr (exception_text b (str_of_exn e)))
              /\ (forall resp x, network tb r = Return resp ->
                                 status_code resp = 200 ->
                                 extract b resp = Return x ->
                                 v = x))).
Proof.
  unfold orchestrate. fold (requested faces).
  unfold bind at 1. rewrite ask_all_collect.
  destruct (calculate_harmony_returns (fst (collect prompt (requested faces) [] t)))
    as [h Hh].
  unfold bind, lift, ret. rewrite Hh.
  eexists. eexists. eexists. split; [reflexivity | ]. cbn [JoinityOrchestrator.prompt
    status timestamp responses harmony_score self_responses self_harmony_score].
  repeat (split; [reflexivity || exact Hh | ]).
  split; [ | split; [ | split]].
  - intros face. rewrite collect_keys. cbn [dict_get]. tauto.
  - intros b Hin Hlack. apply collect_missing_credential; auto.
  - intros text resp -> Hlack Hnet Hs Hbody.
    cbn [requested collect]. cbn [backend_of_face String.eqb Ascii.eqb Bool.eqb].
    cbn [collect fst face_of].
    unfold reply, traffic. rewrite Hlack. rewrite app_nil_r.
    change (lacks_credential Ollama) with false. cbv iota.
    unfold answer, api_key_of. cbn [credential default_model].
    rewrite Hnet, Hs. cbn [Z.eqb Pos.eqb]. rewrite Hbody.
    reflexivity.
  - intros face v Hv. apply collect_entries in Hv.
    destruct Hv as [Hv | (b & pre & rest & Hb & Hin & Ht & ->)]; [discriminate Hv | ].
    exists b, pre, rest. cbv zeta.
    split; [exact Hb | ]. split; [exact Hin | ]. split; [exact Ht | ].
    split; [apply query_reply | ].
    unfold reply, answer. split.
    + intros ->. reflexivity.
    + intros ->. repeat split.
      * intros e ->. reflexivity.
      * intros resp -> Hs. destruct (Z.eqb_spec (status_code resp) 200); [contradiction | ].
        reflexivity.
      * intros resp e -> -> He. cbn [Z.eqb Pos.eqb].
        change (Backends.extract subscript_error b resp) with (extract b resp).
        rewrite He. reflexivity.
      * intros resp x -> -> Hx. cbn [Z.eqb Pos.eqb].
        change (Backends.extract subscript_error b resp) with (extract b resp).
        rewrite Hx. reflexivity.
Qed.

(** C5.  For every non-empty dict of collected responses, the
    aggregate harmony is the specification's: the total character length of
    the response values over their count, over 1000, capped at 1.0, rounded
    to 3 decimals. *)
Theorem aggregate_harmony_is_reference (rs : dict json) :
  rs <> [] ->
  calculate_harmony rs
  = Return (Orchestrator.aggregate_harmony (map (fun kv => str (snd kv)) rs)).
Proof.
  intros Hne. destruct rs as [|kv rs]; [congruence | ].
  unfold calculate_harmony, truediv, Orchestrator.aggregate_harmony.
  destruct (Z.eqb_spec (Z.of_nat (List.length (kv :: rs))) 0) as [E | _];
    [cbn [List.length] in E; lia | ].
  cbn [obind]. rewrite length_map.
  assert (Htot : forall d : dict json,
             total_length d
             = Orchestrator.total_characters (map (fun kv => str (snd kv)) d)).
  { induction d as [|[k v] d IH]; cbn [total_length map Orchestrator.total_characters
      fold_right snd]; [reflexivity | ].
    unfold Orchestrator.total_characters in IH. rewrite IH. reflexivity. }
  rewrite Htot. reflexivity.
Qed.



End World.

Lemma backend_query_witness :
  exists v t',
    Backends.query Demo.empty_env Demo.pong_network Demo.no_detail OpenAI "ping" "gpt-4" []
    = (Return v, t')
    /\ v = JStr "[MAN] OpenAI API key not configured" /\ t' = [].
Proof.
  destruct (backend_query_returns Demo.empty_env Demo.pong_network Demo.no_detail
              OpenAI "ping" "gpt-4" []) as (v & t' & H & Hmissing & _).
  exists v, t'. split; [exact H | apply Hmissing; reflexivity].
Defined.

(** C3, as stated, fails for the local-model backend: with no variable
    set in the environment its query still sends its request, and returns
    the text of the response. *)
Lemma ollama_asks_without_credential :
  (forall name, Demo.empty_env name = None)
  /\ Backends.query Demo.empty_env Demo.pong_network Demo.no_detail Ollama "ping" "mistral" []
     = (Return (JStr "pong"),
        [Sent (request_of Ollama None "ping" "mistral"); Received (Return Demo.pong)]).
Proof. split; [reflexivity | vm_compute; reflexivity]. Qed.

Lemma orchestrate_witness :
  (exists res me t',
     JoinityOrchestrator.orchestrate Demo.empty_env Demo.pong_network Demo.clock
       Demo.no_detail Demo.no_text "ping" (Some ["MAN"; "OX"]) []
     = (Return (res, me), t')
     /\ responses res = [("MAN", JStr "[MAN] OpenAI API key not configured");
                         ("OX", JStr "pong")])
  /\ (exists res me t',
       JoinityOrchestrator.orchestrate FailureDemo.full_env FailureDemo.mixed_network
         Demo.clock FailureDemo.key_error Demo.no_text "ping" None []
       = (Return (res, me), t')
       /\ responses res = [("MAN", JStr "[MAN] Error: connection refused");
                           ("LION", JStr "[LION] Error: 'content'");
                           ("OX", JStr "pong");
                           ("EAGLE", JStr "[EAGLE] DeepSeek error: 500")]
       /\ exists pre rest,
            t' = (pre
                  ++ [Sent (request_of DeepSeek (Some "key") "ping" "deepseek-chat");
                      Received (Return FailureDemo.unavailable)]
                  ++ rest)%list).
Proof.
  split.
  - destruct (orchestrate_never_fails Demo.empty_env Demo.pong_network Demo.clock
                Demo.no_detail Demo.no_text "ping" (Some ["MAN"; "OX"]) [])
      as (res & me & t' & H & _ & _ & _ & _ & _ & _ & _ & _ & Hboth & _).
    exists res, me, t'. split; [exact H | ].
    apply (Hboth "pong" Demo.pong); reflexivity.
  - destruct (orchestrate_never_fails FailureDemo.full_env FailureDemo.mixed_network
                Demo.clock FailureDemo.key_error Demo.no_text "ping" None [])
      as (res & me & t' & H & _ & _ & _ & _ & _ & _ & _ & _ & _ & Hentry).
    exists res, me, t'. split; [exact H | ].
    assert (Hres : responses res
                   = [("MAN", JStr "[MAN] Error: connection refused");
                      ("LION", JStr "[LION] Error: 'content'");
                      ("OX", JStr "pong");
                      ("EAGLE", JStr "[EAGLE] DeepSeek error: 500")]).
    { vm_compute in H. injection H as <- _ _. reflexivity. }
    split; [exact Hres | ].
    destruct (Hentry "EAGLE" (JStr "[EAGLE] DeepSeek error: 500"))
      as (b & pre & rest & Hb & _ & Ht & _); [rewrite Hres; reflexivity | ].
    injection Hb as <-. exists pre, rest. rewrite Ht. reflexivity.
Defined.

Lemma aggregate_harmony_witness :
  (FailureDemo.three_responses <> []
   /\ JoinityOrchestrator.calculate_harmony Demo.no_text FailureDemo.three_responses
      = Return (Orchestrator.aggregate_harmony
                  ["hello"; "[LION] Anthropic API key not configured"; "pong!"])
   /\ Orchestrator.aggregate_harmony
        ["hello"; "[LION] Anthropic API key not configured"; "pong!"]
      = 0.016%float
   /\ Orchestrator.total_characters
        ["hello"; "[LION] Anthropic API key not configured"; "pong!"]
      = 49)
  /\ (FailureDemo.long_responses <> []
      /\ JoinityOrchestrator.calculate_harmony Demo.no_text FailureDemo.long_responses
         = Return (Orchestrator.aggregate_harmony
                     (map (fun kv => JoinityOrchestrator.str Demo.no_text (snd kv))
                        FailureDemo.long_responses))
      /\ Orchestrator.total_characters
           (map (fun kv => JoinityOrchestrator.str Demo.no_text (snd kv))
              FailureDemo.long_responses)
         = 2400
      /\ Orchestrator.aggregate_harmony
           (map (fun kv => JoinityOrchestrator.str Demo.no_text (snd kv))
              FailureDemo.long_responses)
         = 1%float).
Proof.
  assert (H3 : FailureDemo.three_responses <> []) by discriminate.
  assert (HL : FailureDemo.long_responses <> []) by discriminate.
  split.
  - split; [exact H3 | ].
    split; [exact (aggregate_harmony_is_reference Demo.no_text
                     FailureDemo.three_responses H3) | ].
    split; vm_compute; reflexivity.
  - split; [exact HL | ].
    split; [exact (aggregate_harmony_is_reference Demo.no_text
                     FailureDemo.long_responses HL) | ].
    split; vm_compute; reflexivity.
Defined.


End JoinityFacts.


(** * Facts about the message ingester *)

Module IngestFacts.

Import Re WhatsAppExtractor.

Lemma hd_error_flat_map {A B : Type} (g : A -> list B) (l : list A) (y : B) :
  hd_error (flat_map g l) = Some y -> exists a, In a l /\ hd_error (g a) = Some y.
Proof.
  induction l as [|a l IH]; cbn [flat_map]; [discriminate | ].
  destruct (g a) as [|b bs] eqn:E; cbn [app].
  - intros H. destruct (IH H) as (a' & Hin & Ha'). exists a'. split; [right | ]; assumption.
  - intros H. exists a. split; [left; reflexivity | rewrite E; exact H].
Qed.

Lemma hd_error_bind {A B : Type} (p : pattern A) (f : A -> pattern B) (s : string)
    (y : B * string) :
  hd_error (bind p f s) = Some y ->
  exists a r, In (a, r) (p s) /\ hd_error (f a r) = Some y.
Proof.
  unfold bind. intros H. apply hd_error_flat_map in H.
  destruct H as ([a r] & Hin & H). exists a, r. split; assumption.
Qed.

(** The first match of [cls*] is the longest run. *)
Lemma star_longest (cls : ascii -> bool) (s : string) :
  exists rest, star cls s = longest cls s :: rest.
Proof.
  induction s as [|c s IH]; cbn [star longest].
  - exists []. reflexivity.
  - destruct (cls c); [ | exists []; reflexivity].
    destruct IH as [rest ->]. destruct (longest cls s) as [m r].
    cbn [map fst snd app]. eexists. reflexivity.
Qed.

Lemma longest_stops (cls : ascii -> bool) (s : string) :
  match snd (longest cls s) with
  | EmptyString => True
  | String c _ => cls c = false
  end.
Proof.
  induction s as [|c s IH]; cbn [longest]; [exact I | ].
  destruct (cls c) eqn:E; [ | cbn [snd]; exact E].
  destruct (longest cls s) as [m r]. exact IH.
Qed.

Lemma longest_head (cls : ascii -> bool) (s : string) :
  match fst (longest cls s), s with
  | String c _, String c' _ => c = c'
  | String _ _, EmptyString => False
  | EmptyString, _ => True
  end.
Proof.
  destruct s as [|c s]; cbn [longest]; [exact I | ].
  destruct (cls c); [ | exact I].
  destruct (longest cls s) as [m r]. reflexivity.
Qed.

(** The text the last group matches does not begin with whitespace. *)
Lemma message_group_lstripped (r : string) :
  lstrip (fst (longest dot (snd (longest isspace r))))
  = fst (longest dot (snd (longest isspace r))).
Proof.
  pose proof (longest_stops isspace r) as Hstop.
  pose proof (longest_head dot (snd (longest isspace r))) as Hhead.
  destruct (fst (longest dot (snd (longest isspace r)))) as [|c m]; [reflexivity | ].
  destruct (snd (longest isspace r)) as [|c' r']; [contradiction | ].
  subst c'. cbn [lstrip]. rewrite Hstop. reflexivity.
Qed.

Lemma line_pattern_message (line : string) (g : string * string * string * string)
    (rest : string) :
  hd_error (line_pattern line) = Some (g, rest) ->
  lstrip (snd g) = snd g.
Proof.
  unfold line_pattern. intros H.
  do 16 (apply hd_error_bind in H; destruct H as (? & ? & _ & H)).
  unfold bind in H.
  match type of H with
  | context [star isspace ?r] =>
      destruct (star_longest isspace r) as [tl1 E1]; rewrite E1 in H;
      destruct (star_longest dot (snd (longest isspace r))) as [tl2 E2]
  end.
  cbn [flat_map snd fst] in H. rewrite E2 in H.
  cbn [flat_map snd fst ret app hd_error] in H.
  injection H as <- _. cbn [snd]. apply message_group_lstripped.
Qed.

(** [split] ignores whitespace at either end. *)
Lemma split_lstrip (s : string) : split (lstrip s) = split s.
Proof.
  unfold split. induction s as [|c s IH]; cbn [lstrip split_aux]; [reflexivity | ].
  destruct (isspace c) eqn:E; [exact IH | ].
  cbn [split_aux]. rewrite E. reflexivity.
Qed.

Lemma split_aux_blank (s : string) :
  rstrip s = EmptyString ->
  forall cur, split_aux cur s = split_aux cur EmptyString.
Proof.
  induction s as [|c s IH]; [reflexivity | ].
  cbn [rstrip]. destruct (rstrip s) as [|c' r] eqn:E; [ | discriminate].
  destruct (isspace c) eqn:Ec; [ | discriminate].
  intros _ cur. cbn [split_aux]. rewrite Ec, (IH eq_refl).
  destruct cur; reflexivity.
Qed.

Lemma split_aux_cons (cur : string) (c : ascii) (s : string) :
  split_aux cur (String c s)
  = if isspace c then
      match cur with
      | EmptyString => split_aux "" s
      | _ => rev_string "" cur :: split_aux "" s
      end
    else split_aux (String c cur) s.
Proof. reflexivity. Qed.

Lemma split_aux_rstrip (s : string) :
  forall cur, split_aux cur (rstrip s) = split_aux cur s.
Proof.
  induction s as [|c s IH]; intros cur; [reflexivity | ].
  cbn [rstrip]. destruct (rstrip s) as [|c' r] eqn:E.
  - destruct (isspace c) eqn:Ec.
    + cbn [split_aux]. rewrite Ec, (split_aux_blank s E).
      destruct cur; reflexivity.
    + cbn [split_aux]. rewrite Ec, (split_aux_blank s E). reflexivity.
  - rewrite (split_aux_cons cur c (String c' r)), (split_aux_cons cur c s), !IH.
    reflexivity.
Qed.

Lemma split_strip (s : string) : split (strip s) = split s.
Proof.
  unfold strip. unfold split at 1. rewrite split_aux_rstrip.
  apply split_lstrip.
Qed.

(** What [rstrip] removes is whitespace at the end. *)
Lemma rstrip_trailing (s : string) :
  exists trailing, s = rstrip s ++ trailing /\ rstrip trailing = EmptyString.
Proof.
  induction s as [|c s (t & Hs & Ht)].
  - exists "". split; reflexivity.
  - cbn [rstrip]. destruct (rstrip s) as [|c' r] eqn:E.
    + destruct (isspace c) eqn:Ec.
      * exists (String c s). split; [reflexivity | ].
        cbn [rstrip]. rewrite E, Ec. reflexivity.
      * exists s. split; [reflexivity | exact E].
    + exists t. split; [ | exact Ht]. cbn [append]. f_equal. exact Hs.
Qed.

Lemma len_append (a b : string) : len (a ++ b) = len a + len b.
Proof.
  unfold len. induction a as [|c a IH]; cbn [append String.length]; lia.
Qed.

(** For every line that matches: [word_count] is the number of
    whitespace-delimited tokens of the stored body, and [length] is the
    number of characters of the body plus the whitespace that followed it. *)
Lemma parsed_message_counts (line : string) (m : Message.t) :
  parse_line line = Some m ->
  Message.word_count m = Z.of_nat (List.length (split (Message.message m)))
  /\ exists trailing,
       rstrip trailing = EmptyString
       /\ Message.length m = len (Message.message m) + len trailing.
Proof.
  unfold parse_line, re_match.
  destruct (line_pattern line) as [|[g rest] l] eqn:E; [discriminate | ].
  assert (Hl : lstrip (snd g) = snd g)
    by (apply (line_pattern_message line g rest); rewrite E; reflexivity).
  destruct g as [[[time_str date_str] contact] message]. cbn [snd] in Hl.
  intros [= <-]. cbn [Message.word_count Message.message Message.length].
  split; [rewrite split_strip; reflexivity | ].
  unfold strip. rewrite Hl.
  destruct (rstrip_trailing message) as (t & Hm & Ht).
  exists t. split; [exact Ht | ].
  rewrite Hm at 1. apply len_append.
Qed.


(** C6.  The line of the specification's example yields the one message
    the claim describes (sender "Alice", body "Hello there!", 2 words), a
    line that does not match yields none, and [word_count] is the token
    count of the body for every line that matches.  But [length] is taken
    from the text as matched, before [strip]: it is the character count of
    the body plus that of the whitespace that followed it, so a body
    followed by a space gets length 3 where the stored body "Hi" has 2
    characters. *)
Theorem length_counts_trailing_whitespace :
  (forall line m, parse_line line = Some m ->
     Message.word_count m = Z.of_nat (List.length (split (Message.message m)))
     /\ exists trailing,
          rstrip trailing = EmptyString
          /\ Message.length m = len (Message.message m) + len trailing)
  /\ parse_lines ["[14:05, 01/02/2023] Alice: Hello there!" ++ newline;
                  "Messages are end-to-end encrypted" ++ newline]
     = [Message.Build "01/02/2023 14:05" "Alice" "Hello there!" 12 2]
  /\ parse_lines ["[14:05, 01/02/2023] Alice: Hi " ++ newline]
     = [Message.Build "01/02/2023 14:05" "Alice" "Hi" 3 1]
  /\ len "Hi" = 2.
Proof.
  split; [exact parsed_message_counts | ].
  repeat split; vm_compute; reflexivity.
Qed.

End IngestFacts.

(** * More facts about binary64 arithmetic: signs *)

Module SignFacts.

Import Binary64 Sign SFBounds FloatFacts.

Lemma shr_m_nonneg (r : shr_record) (e n : Z) :
  0 <= shr_m r -> 0 <= shr_m (fst (shr r e n)).
Proof.
  intros Hr. destruct (Z.le_gt_cases 0 n) as [Hn | Hn].
  - destruct (shr_spec r e n Hn Hr) as (r' & E1 & E2). rewrite E1. cbn [fst].
    rewrite E2. apply Z.div_pos; [exact Hr | apply Z.pow_pos_nonneg; lia].
  - destruct n; try lia. exact Hr.
Qed.

Lemma binary_round_aux_not_negative (mx ex : Z) (lx : location) :
  0 <= mx -> not_negative (binary_round_aux prec emax false mx ex lx).
Proof.
  intros Hmx. unfold binary_round_aux, shr_fexp.
  pose proof (shr_m_nonneg (shr_record_of_loc mx lx) ex
                (fexp prec emax (Zdigits2 mx + ex) - ex)) as H1.
  rewrite shr_m_of_loc in H1. specialize (H1 Hmx).
  destruct (shr (shr_record_of_loc mx lx) ex _) as [r1 e1]. cbn [fst] in H1.
  pose proof (round_nearest_even_bounds (shr_m r1) (loc_of_shr_record r1)) as Hr.
  set (m2 := round_nearest_even (shr_m r1) (loc_of_shr_record r1)) in *.
  pose proof (shr_m_nonneg (shr_record_of_loc m2 loc_Exact) e1
                (fexp prec emax (Zdigits2 m2 + e1) - e1)) as H2.
  rewrite shr_m_of_loc in H2. specialize (H2 ltac:(lia)).
  destruct (shr (shr_record_of_loc m2 loc_Exact) e1 _) as [r2 e2]. cbn [fst] in H2.
  destruct (shr_m r2) as [|m|m]; [exact I | | lia].
  destruct (e2 <=? emax - prec); reflexivity.
Qed.

Lemma SFdiv_not_negative (x : spec_float) (my : positive) (ey : Z) :
  not_negative x -> not_negative (SF64div x (S754_finite false my ey)).
Proof.
  unfold SF64div.
  destruct x as [s|s| |s mx ex]; cbn [not_negative SFdiv]; intros Hx;
    try subst s; try exact I; try reflexivity; try contradiction.
  unfold SFdiv_core_binary.
  set (m' := match _ with Z.pos _ => _ | _ => _ end).
  assert (Hm' : 0 <= m').
  { unfold m'. destruct (_ - _ - _) as [|p|p]; try lia.
    rewrite Z.shiftl_mul_pow2 by lia. apply Z.mul_nonneg_nonneg; [lia | ].
    apply Z.pow_nonneg. lia. }
  pose proof (Z.div_pos m' (Z.pos my) Hm' ltac:(lia)) as Hq.
  unfold Z.div in Hq. destruct (Z.div_eucl m' (Z.pos my)) as [q r]. cbn [fst] in Hq.
  cbn [xorb]. apply binary_round_aux_not_negative. exact Hq.
Qed.

Lemma binary_normalize_not_negative (n e : Z) :
  0 <= n -> not_negative (binary_normalize prec emax n e false).
Proof.
  intros Hn. destruct n as [|p|p]; try lia; [exact I | ].
  cbn [binary_normalize]. unfold binary_round.
  destruct (shl_align p e _) as [mz ez].
  apply binary_round_aux_not_negative. lia.
Qed.

(** The float of a sign-mantissa-exponent triple that is not negative
    is not negative, whether or not the triple is normalised. *)
Lemma SF2Prim_not_negative (r : spec_float) :
  not_negative r -> not_negative (Prim2SF (SF2Prim r)).
Proof.
  destruct r as [s|s| |s m e]; cbn [not_negative SF2Prim]; intros Hr;
    try subst s; try reflexivity; try contradiction;
    [destruct s; exact I | ].
  rewrite Z_ldexp_spec, of_uint63_spec.
  pose proof (binary_normalize_not_negative
                (Uint63Axioms.to_Z (Uint63Axioms.of_Z (Z.pos m))) 0) as H.
  assert (H0 : 0 <= Uint63Axioms.to_Z (Uint63Axioms.of_Z (Z.pos m))).
  { apply Uint63.to_Z_bounded. }
  specialize (H H0).
  destruct (binary_normalize prec emax _ 0 false) as [s'|s'| |s' m' e'];
    cbn [not_negative SFldexp] in *; try exact H.
  subst s'.
  unfold binary_round. destruct (shl_align m' _ _) as [mz ez].
  apply binary_round_aux_not_negative. lia.
Qed.

Lemma int_truediv_not_negative (a b : Z) :
  0 <= a -> 0 < b -> not_negative (Prim2SF (int_truediv a b)).
Proof.
  intros Ha Hb. unfold int_truediv. apply SF2Prim_not_negative.
  destruct b as [|pb|pb]; try lia. cbn [Z2SF].
  apply SFdiv_not_negative. destruct a as [|pa|pa]; try lia; [exact I | reflexivity].
Qed.

(** [min(1.0, x)] of a value that is not negative lies between 0 and 1. *)
Lemma py_min_one_in_unit (x : float) :
  not_negative (Prim2SF x) -> in_unit (py_min 1 x) = true.
Proof.
  intros Hx. unfold py_min. destruct (x <? 1)%float eqn:E; [ | reflexivity].
  unfold in_unit. rewrite andb_true_iff. rewrite ltb_spec in E.
  rewrite !leb_spec. split.
  - assert (E0 : Prim2SF 0 = S754_zero false) by reflexivity. rewrite E0.
    destruct (Prim2SF x) as [s|s| |s m e]; cbn [not_negative] in Hx;
      try subst s; try contradiction; reflexivity.
  - unfold SFltb in E. unfold SFleb.
    destruct (SFcompare (Prim2SF x) (Prim2SF 1)) as [[ | | ]|]; try discriminate E.
    reflexivity.
Qed.

Lemma div_not_negative (x c : float) (my : positive) (ey : Z) :
  Prim2SF c = S754_finite false my ey ->
  not_negative (Prim2SF x) -> not_negative (Prim2SF (x / c)).
Proof.
  intros Hc Hx. rewrite div_spec, Hc. apply SFdiv_not_negative. exact Hx.
Qed.

End SignFacts.

(** * Order and rounding on the scores between 0 and 1 *)

Module UnitFacts.

Import Tables FloatFacts.

Lemma SFleb_finite_iff (m M : positive) (e E : Z) :
  SFleb (S754_finite false m e) (S754_finite false M E) = true
  <-> e < E \/ (e = E /\ Z.pos m <= Z.pos M).
Proof.
  split; [apply SFleb_finite_inv | ].
  unfold SFleb, SFcompare.
  destruct (Z.compare_spec e E) as [-> | Hlt | Hgt]; intros H; try reflexivity; try lia.
  pose proof (Pos.compare_spec m M) as Hc. unfold Pos.compare in Hc.
  destruct Hc as [-> | Hc | Hc]; try reflexivity.
  apply Pos2Z.pos_lt_pos in Hc. lia.
Qed.

Lemma SFltb_finite_iff (m M : positive) (e E : Z) :
  SFltb (S754_finite false m e) (S754_finite false M E) = true
  <-> e < E \/ (e = E /\ Z.pos m < Z.pos M).
Proof.
  unfold SFltb, SFcompare.
  destruct (Z.compare_spec e E) as [-> | Hlt | Hgt].
  - pose proof (Pos.compare_spec m M) as Hc. unfold Pos.compare in Hc.
    destruct Hc as [-> | Hc | Hc]; try apply Pos2Z.pos_lt_pos in Hc;
      split; intros H; try reflexivity; try discriminate; lia.
  - split; [left; exact Hlt | reflexivity].
  - split; [discriminate | lia].
Qed.

(** A float between 0 and 1 is a zero or a positive finite number. *)
Lemma in_unit_shape (x : float) :
  in_unit x = true ->
  (exists s, Prim2SF x = S754_zero s) \/ (exists m e, Prim2SF x = S754_finite false m e).
Proof.
  unfold in_unit. intros H. apply andb_prop in H. destruct H as [H0 H1].
  rewrite leb_spec in H0, H1.
  assert (E0 : Prim2SF 0 = S754_zero false) by reflexivity.
  assert (E1 : Prim2SF 1 = S754_finite false 4503599627370496 (-52)) by reflexivity.
  rewrite E0 in H0. rewrite E1 in H1. clear E0 E1.
  destruct (Prim2SF x) as [s|s| |s m e].
  - left. exists s. reflexivity.
  - destruct s; discriminate.
  - discriminate.
  - apply SFleb_zero_finite in H0. subst s. right. exists m, e. reflexivity.
Qed.

Lemma ltb_leb (a b : float) : (a <? b)%float = true -> (a <=? b)%float = true.
Proof.
  rewrite ltb_spec, leb_spec. unfold SFltb, SFleb.
  destruct (SFcompare (Prim2SF a) (Prim2SF b)) as [[ | | ]|]; auto.
Qed.

Lemma unit_leb_refl (a : float) : in_unit a = true -> (a <=? a)%float = true.
Proof.
  intros Ha. rewrite leb_spec.
  destruct (in_unit_shape a Ha) as [[s ->] | (m & e & ->)]; [reflexivity | ].
  apply SFleb_finite_iff. right. split; [reflexivity | lia].
Qed.

Lemma unit_leb_total (a b : float) :
  in_unit a = true -> in_unit b = true ->
  (a <? b)%float = false -> (b <=? a)%float = true.
Proof.
  intros Ha Hb. rewrite ltb_spec, leb_spec.
  destruct (in_unit_shape a Ha) as [[sa ->] | (ma & ea & ->)];
    destruct (in_unit_shape b Hb) as [[sb ->] | (mb & eb & ->)];
    try reflexivity; try discriminate.
  intros H. apply SFleb_finite_iff.
  destruct (SFltb (S754_finite false ma ea) (S754_finite false mb eb)) eqn:E;
    [discriminate | ].
  assert (Hn : ~ (ea < eb \/ (ea = eb /\ Z.pos ma < Z.pos mb))).
  { intros Hc. apply SFltb_finite_iff in Hc. congruence. }
  lia.
Qed.

Lemma unit_leb_trans (a b c : float) :
  in_unit a = true -> in_unit b = true -> in_unit c = true ->
  (a <=? b)%float = true -> (b <=? c)%float = true -> (a <=? c)%float = true.
Proof.
  intros Ha Hb Hc. rewrite !leb_spec.
  destruct (in_unit_shape a Ha) as [[sa ->] | (ma & ea & ->)];
    destruct (in_unit_shape b Hb) as [[sb ->] | (mb & eb & ->)];
    destruct (in_unit_shape c Hc) as [[sc ->] | (mc & ec & ->)];
    try reflexivity; try discriminate.
  rewrite !SFleb_finite_iff. lia.
Qed.

(** [max] over scores between 0 and 1: one of them, and none is greater. *)
Lemma fold_py_max (l : list float) :
  forall x : float,
  in_unit x = true -> Forall (fun v => in_unit v = true) l ->
  let r := fold_left py_max l x in
  in_unit r = true /\ In r (x :: l) /\ Forall (fun v => (v <=? r)%float = true) (x :: l).
Proof.
  induction l as [|y l IH]; intros x Hx Hl; cbn [fold_left].
  - split; [exact Hx | ]. split; [left; reflexivity | ].
    constructor; [apply unit_leb_refl; exact Hx | constructor].
  - inversion Hl as [|? ? Hy Hl']; subst.
    assert (Hc : in_unit (py_max x y) = true)
      by (unfold py_max; destruct (x <? y)%float; assumption).
    destruct (IH (py_max x y) Hc Hl') as (Hr & Hin & Hall).
    inversion Hall as [|? ? Hcr Hrest]; subst.
    split; [exact Hr | ]. split.
    + destruct Hin as [E | Hin]; [ | right; right; exact Hin].
      rewrite <- E. unfold py_max. destruct (x <? y)%float; [right; left | left]; reflexivity.
    + assert (Hxc : (x <=? py_max x y)%float = true).
      { unfold py_max. destruct (x <? y)%float eqn:E;
          [apply ltb_leb; exact E | apply unit_leb_refl; exact Hx]. }
      assert (Hyc : (y <=? py_max x y)%float = true).
      { unfold py_max. destruct (x <? y)%float eqn:E;
          [apply unit_leb_refl; exact Hy | apply unit_leb_total; assumption]. }
      constructor; [apply (unit_leb_trans x (py_max x y)); assumption | ].
      constructor; [apply (unit_leb_trans y (py_max x y)); assumption | exact Hrest].
Qed.

(** [min] over scores between 0 and 1: one of them, and none is smaller. *)
Lemma fold_py_min (l : list float) :
  forall x : float,
  in_unit x = true -> Forall (fun v => in_unit v = true) l ->
  let r := fold_left py_min l x in
  in_unit r = true /\ In r (x :: l) /\ Forall (fun v => (r <=? v)%float = true) (x :: l).
Proof.
  induction l as [|y l IH]; intros x Hx Hl; cbn [fold_left].
  - split; [exact Hx | ]. split; [left; reflexivity | ].
    constructor; [apply unit_leb_refl; exact Hx | constructor].
  - inversion Hl as [|? ? Hy Hl']; subst.
    assert (Hc : in_unit (py_min x y) = true)
      by (unfold py_min; destruct (y <? x)%float; assumption).
    destruct (IH (py_min x y) Hc Hl') as (Hr & Hin & Hall).
    inversion Hall as [|? ? Hcr Hrest]; subst.
    split; [exact Hr | ]. split.
    + destruct Hin as [E | Hin]; [ | right; right; exact Hin].
      rewrite <- E. unfold py_min. destruct (y <? x)%float; [right; left | left]; reflexivity.
    + assert (Hxc : (py_min x y <=? x)%float = true).
      { unfold py_min. destruct (y <? x)%float eqn:E;
          [apply ltb_leb; exact E | apply unit_leb_refl; exact Hx]. }
      assert (Hyc : (py_min x y <=? y)%float = true).
      { unfold py_min. destruct (y <? x)%float eqn:E;
          [apply unit_leb_refl; exact Hy | apply unit_leb_total; assumption]. }
      constructor; [apply (unit_leb_trans _ (py_min x y)); assumption | ].
      constructor; [apply (unit_leb_trans _ (py_min x y)); assumption | exact Hrest].
Qed.

(** *** [round(x, 3)] on a score that is already rounded *)

Lemma thousandths_fixed :
  forallb (fun g => PrimFloat.Leibniz.eqb (round3 g) g) thousandths = true.
Proof. vm_compute. reflexivity. Qed.

Lemma round3_thousandth (k : Z) :
  1 <= k <= 1000 -> round3 (int_truediv k 1000) = int_truediv k 1000.
Proof.
  intros Hk. pose proof thousandths_fixed as H.
  rewrite forallb_forall in H. apply FloatAxioms.Leibniz.eqb_spec, H.
  unfold thousandths. apply (in_map (fun k => int_truediv k 1000)), In_Zrange. lia.
Qed.

Lemma round3_zero (x : float) (s : bool) : Prim2SF x = S754_zero s -> round3 x = x.
Proof. intros H. unfold round3. rewrite H. reflexivity. Qed.

(** [round(x, 3)] of a float between 0 and 1 is a zero or one of the
    thousand doubles nearest to 0.001 .. 1.000. *)
Lemma round3_grid (x : float) :
  in_unit x = true ->
  (exists s, Prim2SF (round3 x) = S754_zero s)
  \/ (exists k, 1 <= k <= 1000 /\ round3 x = int_truediv k 1000).
Proof.
  intros Hx. pose proof Hx as Hx'. unfold in_unit in Hx'.
  apply andb_prop in Hx'. destruct Hx' as [_ H1].
  rewrite leb_spec in H1.
  assert (E1 : Prim2SF 1 = S754_finite false 4503599627370496 (-52)) by reflexivity.
  rewrite E1 in H1. clear E1.
  pose proof (Prim2SF_valid x) as Hv.
  destruct (in_unit_shape x Hx) as [[s Hs] | (m & e & Hs)].
  - left. exists s. rewrite (round3_zero x s Hs). exact Hs.
  - unfold round3. rewrite Hs in *.
    apply SFleb_finite_inv in H1.
    apply valid_digits in Hv.
    change (2 ^ 53) with 9007199254740992 in Hv.
    assert (He : e <= -52) by lia.
    replace (0 <=? e) with false by (symmetry; apply Z.leb_gt; lia).
    assert (Hm : Z.pos m <= 2 ^ (- e)).
    { destruct H1 as [Hlt | [-> Hm]].
      - assert (2 ^ 53 <= 2 ^ (- e)) by (apply Z.pow_le_mono_r; lia).
        change (2 ^ 53) with 9007199254740992 in *. lia.
      - exact Hm. }
    pose proof (rhe_shift_bounds (Z.pos m * 1000) (- e) 1000
                  ltac:(lia) ltac:(lia) ltac:(lia)) as Hk.
    destruct (Z.eqb_spec (rhe_shift (Z.pos m * 1000) (- e)) 0) as [_ | Hne].
    + left. exists false. reflexivity.
    + right. exists (rhe_shift (Z.pos m * 1000) (- e)). split; [lia | reflexivity].
Qed.

Lemma round3_idempotent (x : float) :
  in_unit x = true -> round3 (round3 x) = round3 x.
Proof.
  intros Hx. destruct (round3_grid x Hx) as [[s Hs] | (k & Hk & ->)].
  - apply (round3_zero _ s Hs).
  - apply round3_thousandth. exact Hk.
Qed.

(** Every message score is the rounding of a weighted sum between 0 and 1. *)
Lemma score_is_rounded (text : string) :
  exists w, in_unit w = true /\ WhatsAppExtractor.calculate_harmony_score text = round3 w.
Proof.
  eexists. split; [ | reflexivity].
  change (in_unit
    (weighted
       (ratio_score 200 (len text))
       (ratio_score 50 (Z.of_nat (List.length (split text))))
       (sentiment_of (count_hits WhatsAppExtractor.positive_words (lower text)
                      - count_hits WhatsAppExtractor.negative_words (lower text)))
       (ratio_score 5 (count_chars (fun c => contains (String c EmptyString) ".,!?;:") text)))
    = true).
  apply weighted_in_unit.
  - apply (ratio_score_in_table 200 200); [ | apply ScoreFacts.len_nonneg].
    intros k Hk. apply length_ratio_saturates. lia.
  - apply (ratio_score_in_table 50 50); [ | lia].
    intros k Hk. apply word_ratio_saturates. lia.
  - apply in_map, In_Zrange.
    pose proof (ScoreFacts.count_hits_bounds WhatsAppExtractor.positive_words (lower text)).
    pose proof (ScoreFacts.count_hits_bounds WhatsAppExtractor.negative_words (lower text)).
    cbn [List.length WhatsAppExtractor.positive_words WhatsAppExtractor.negative_words] in *.
    lia.
  - apply (ratio_score_in_table 5 5); [ | apply ScoreFacts.count_chars_nonneg].
    intros k Hk. apply punctuation_ratio_saturates. lia.
Qed.

Lemma score_in_unit (text : string) :
  in_unit (WhatsAppExtractor.calculate_harmony_score text) = true.
Proof.
  destruct (score_is_rounded text) as (w & Hw & ->). apply round3_in_unit. exact Hw.
Qed.

Lemma score_round3 (text : string) :
  round3 (WhatsAppExtractor.calculate_harmony_score text)
  = WhatsAppExtractor.calculate_harmony_score text.
Proof.
  destruct (score_is_rounded text) as (w & Hw & ->). apply round3_idempotent. exact Hw.
Qed.

End UnitFacts.

(** * The shape of a parsed message *)

Module ParseFacts.

Import Re WhatsAppExtractor WhatsApp.

Lemma In_bind {A B : Type} (p : pattern A) (f : A -> pattern B) (s : string)
    (y : B * string) :
  In y (bind p f s) -> exists a r, In (a, r) (p s) /\ In y (f a r).
Proof.
  unfold bind. rewrite in_flat_map. intros ([a r] & Hin & H). exists a, r. auto.
Qed.

Lemma In_one (cls : ascii -> bool) (s a r : string) :
  In (a, r) (one cls s) -> exists c, a = String c EmptyString /\ cls c = true.
Proof.
  unfold one. destruct s as [|c s]; [contradiction | ].
  destruct (cls c) eqn:E; [ | contradiction].
  intros [H | []]. injection H as <- _. exists c. auto.
Qed.

Lemma In_digits2 (s a r : string) : In (a, r) (digits2 s) -> digits 2 a = true.
Proof.
  unfold digits2. intros H.
  apply In_bind in H. destruct H as (x & r1 & Hx & H).
  apply In_bind in H. destruct H as (y & r2 & Hy & H).
  apply In_one in Hx. destruct Hx as (c & -> & Hc).
  apply In_one in Hy. destruct Hy as (d & -> & Hd).
  destruct H as [H | []]. injection H as <- _.
  unfold digits. cbn [append all_chars]. rewrite Hc, Hd. reflexivity.
Qed.

Lemma In_star (cls : ascii -> bool) (s : string) :
  forall a r, In (a, r) (star cls s) -> all_chars cls a = true.
Proof.
  induction s as [|c s IH]; intros a r; cbn [star].
  - intros [H | []]. injection H as <- _. reflexivity.
  - destruct (cls c) eqn:E.
    + rewrite in_app_iff, in_map_iff. intros [([a' r'] & H & Hin) | [H | []]].
      * injection H as <- _. cbn [fst all_chars]. rewrite E. apply (IH a' r' Hin).
      * injection H as <- _. reflexivity.
    + intros [H | []]. injection H as <- _. reflexivity.
Qed.

Lemma In_plus (cls : ascii -> bool) (s a r : string) :
  In (a, r) (plus cls s) -> all_chars cls a = true.
Proof.
  unfold plus. intros H.
  apply In_bind in H. destruct H as (x & r1 & Hx & H).
  apply In_bind in H. destruct H as (y & r2 & Hy & H).
  apply In_one in Hx. destruct Hx as (c & -> & Hc).
  apply In_star in Hy.
  destruct H as [H | []]. injection H as <- _.
  cbn [append all_chars]. rewrite Hc, Hy. reflexivity.
Qed.

Lemma all_chars_append (cls : ascii -> bool) (a b : string) :
  all_chars cls (a ++ b) = all_chars cls a && all_chars cls b.
Proof.
  induction a as [|c a IH]; cbn [append all_chars]; [reflexivity | ].
  rewrite IH, andb_assoc. reflexivity.
Qed.

Lemma digits_append (n k : Z) (a b : string) :
  digits n a = true -> digits k b = true -> digits (n + k) (a ++ b) = true.
Proof.
  unfold digits. rewrite !andb_true_iff, !Z.eqb_eq, all_chars_append, andb_true_iff.
  rewrite IngestFacts.len_append. intros [Ha <-] [Hb <-]. auto.
Qed.

(** *** [strip] *)

Lemma all_chars_lstrip (cls : ascii -> bool) (s : string) :
  all_chars cls s = true -> all_chars cls (lstrip s) = true.
Proof.
  induction s as [|c s IH]; cbn [lstrip all_chars]; [auto | ].
  intros H. apply andb_prop in H. destruct H as [Hc Hs].
  destruct (isspace c); [apply IH; exact Hs | ].
  cbn [all_chars]. rewrite Hc, Hs. reflexivity.
Qed.

Lemma all_chars_rstrip (cls : ascii -> bool) (s : string) :
  all_chars cls s = true -> all_chars cls (rstrip s) = true.
Proof.
  induction s as [|c s IH]; cbn [rstrip all_chars]; [auto | ].
  intros H. apply andb_prop in H. destruct H as [Hc Hs]. specialize (IH Hs).
  destruct (rstrip s) as [|c' r].
  - destruct (isspace c); [reflexivity | ]. cbn [all_chars]. rewrite Hc. reflexivity.
  - cbn [all_chars] in *. rewrite Hc, IH. reflexivity.
Qed.

Lemma all_chars_strip (cls : ascii -> bool) (s : string) :
  all_chars cls s = true -> all_chars cls (strip s) = true.
Proof. intros H. apply all_chars_rstrip, all_chars_lstrip, H. Qed.

Lemma rstrip_idempotent (s : string) : rstrip (rstrip s) = rstrip s.
Proof.
  induction s as [|c s IH]; [reflexivity | ].
  cbn [rstrip]. destruct (rstrip s) as [|c' r] eqn:E.
  - destruct (isspace c) eqn:Ec; [reflexivity | ].
    cbn [rstrip]. rewrite Ec. reflexivity.
  - cbn [rstrip]. cbn [rstrip] in IH. rewrite IH. reflexivity.
Qed.

Lemma lstrip_head (s : string) :
  match lstrip s with
  | EmptyString => True
  | String c _ => isspace c = false
  end.
Proof.
  induction s as [|c s IH]; cbn [lstrip]; [exact I | ].
  destruct (isspace c) eqn:E; [exact IH | exact E].
Qed.

Lemma lstrip_rstrip (s : string) :
  match s with
  | EmptyString => True
  | String c _ => isspace c = false
  end ->
  lstrip (rstrip s) = rstrip s.
Proof.
  destruct s as [|c s]; [reflexivity | ]. intros Hc.
  cbn [rstrip]. destruct (rstrip s) as [|c' r]; rewrite ?Hc; cbn [lstrip];
    rewrite Hc; reflexivity.
Qed.

Lemma strip_idempotent (s : string) : strip (strip s) = strip s.
Proof.
  unfold strip. rewrite (lstrip_rstrip (lstrip s)) by apply lstrip_head.
  apply rstrip_idempotent.
Qed.

(** The groups of a line that matches. *)
Lemma line_pattern_groups (line : string) (g : string * string * string * string)
    (rest : string) :
  hd_error (line_pattern line) = Some (g, rest) ->
  exists hh mi dd mo yyyy contact message,
    g = (hh ++ ":" ++ mi, dd ++ "/" ++ mo ++ "/" ++ yyyy, contact, message)
    /\ digits 2 hh = true /\ digits 2 mi = true /\ digits 2 dd = true
    /\ digits 2 mo = true /\ digits 4 yyyy = true
    /\ all_chars not_colon contact = true /\ all_chars dot message = true.
Proof.
  unfold line_pattern. intros H.
  apply IngestFacts.hd_error_bind in H. destruct H as (? & ? & _ & H).
  apply IngestFacts.hd_error_bind in H. destruct H as (hh & ? & Hhh & H).
  apply IngestFacts.hd_error_bind in H. destruct H as (? & ? & _ & H).
  apply IngestFacts.hd_error_bind in H. destruct H as (mi & ? & Hmi & H).
  apply IngestFacts.hd_error_bind in H. destruct H as (? & ? & _ & H).
  apply IngestFacts.hd_error_bind in H. destruct H as (? & ? & _ & H).
  apply IngestFacts.hd_error_bind in H. destruct H as (dd & ? & Hdd & H).
  apply IngestFacts.hd_error_bind in H. destruct H as (? & ? & _ & H).
  apply IngestFacts.hd_error_bind in H. destruct H as (mo & ? & Hmo & H).
  apply IngestFacts.hd_error_bind in H. destruct H as (? & ? & _ & H).
  apply IngestFacts.hd_error_bind in H. destruct H as (y1 & ? & Hy1 & H).
  apply IngestFacts.hd_error_bind in H. destruct H as (y2 & ? & Hy2 & H).
  apply IngestFacts.hd_error_bind in H. destruct H as (? & ? & _ & H).
  apply IngestFacts.hd_error_bind in H. destruct H as (? & ? & _ & H).
  apply IngestFacts.hd_error_bind in H. destruct H as (contact & ? & Hcontact & H).
  apply IngestFacts.hd_error_bind in H. destruct H as (? & ? & _ & H).
  apply IngestFacts.hd_error_bind in H. destruct H as (? & ? & _ & H).
  apply IngestFacts.hd_error_bind in H. destruct H as (message & ? & Hmessage & H).
  cbn [ret hd_error] in H. injection H as <- _.
  exists hh, mi, dd, mo, (y1 ++ y2), contact, message.
  split; [reflexivity | ].
  apply In_digits2 in Hhh, Hmi, Hdd, Hmo, Hy1, Hy2.
  apply In_plus in Hcontact. apply In_star in Hmessage.
  repeat (split; [assumption | ]).
  split; [apply (digits_append 2 2); assumption | ]. auto.
Qed.

(** X12.  Every message that [extract_from_txt] builds from a line
    has a timestamp of the shape DD/MM/YYYY HH:MM, all digits (any digits:
    the pattern does not check that they name a date or a time); a contact
    without a colon and a body without a line break, both as [strip] leaves
    them, so that stripping them again changes nothing.  The contact can be
    empty: a line whose sender is blank still matches. *)
Theorem parsed_message_shape (line : string) (m : Message.t) :
  parse_line line = Some m ->
  (exists hh mi dd mo yyyy,
     digits 2 hh = true /\ digits 2 mi = true /\ digits 2 dd = true
     /\ digits 2 mo = true /\ digits 4 yyyy = true
     /\ Message.timestamp m = (dd ++ "/" ++ mo ++ "/" ++ yyyy) ++ " " ++ (hh ++ ":" ++ mi))
  /\ all_chars not_colon (Message.contact m) = true
  /\ strip (Message.contact m) = Message.contact m
  /\ all_chars dot (Message.message m) = true
  /\ strip (Message.message m) = Message.message m
  /\ parse_line ("[14:05, 01/02/2023]  : hi" ++ newline)
     = Some (Message.Build "01/02/2023 14:05" "" "hi" 2 1).
Proof.
  unfold parse_line at 1, re_match.
  destruct (line_pattern line) as [|[g rest] l] eqn:E; [discriminate | ].
  destruct (line_pattern_groups line g rest) as
    (hh & mi & dd & mo & yyyy & contact & message & -> & Hhh & Hmi & Hdd & Hmo & Hy & Hc & Hm);
    [rewrite E; reflexivity | ].
  intros [= <-]. cbn [Message.timestamp Message.contact Message.message].
  split; [exists hh, mi, dd, mo, yyyy; repeat split; assumption | ].
  split; [apply all_chars_strip; exact Hc | ].
  split; [apply strip_idempotent | ].
  split; [apply all_chars_strip; exact Hm | ].
  split; [apply strip_idempotent | ].
  vm_compute. reflexivity.
Qed.

Lemma parsed_message_shape_witness :
  parse_line ("[14:05, 01/02/2023] Alice: Hello there!" ++ newline)
  = Some (Message.Build "01/02/2023 14:05" "Alice" "Hello there!" 12 2)
  /\ strip "Alice" = "Alice" /\ strip "Hello there!" = "Hello there!".
Proof.
  assert (H : parse_line ("[14:05, 01/02/2023] Alice: Hello there!" ++ newline)
              = Some (Message.Build "01/02/2023 14:05" "Alice" "Hello there!" 12 2))
    by (vm_compute; reflexivity).
  split; [exact H | ].
  destruct (parsed_message_shape _ _ H) as (_ & _ & Hc & _ & Hm & _).
  split; [exact Hc | exact Hm].
Defined.

Lemma parse_lines_app (l1 l2 : list string) :
  parse_lines (l1 ++ l2) = (parse_lines l1 ++ parse_lines l2)%list.
Proof.
  induction l1 as [|line l1 IH]; cbn [app parse_lines]; [reflexivity | ].
  destruct (parse_line line); cbn [app]; rewrite IH; reflexivity.
Qed.

Lemma parse_lines_length (lines : list string) :
  (List.length (parse_lines lines) <= List.length lines)%nat.
Proof.
  induction lines as [|line lines IH]; cbn [parse_lines List.length]; [lia | ].
  destruct (parse_line line); cbn [List.length]; lia.
Qed.

End ParseFacts.

(** * Facts about the platform extractors *)

Module UnifiedExtractorFacts.

Import JoinityOrchestrator UnifiedExtractor.

Lemma dict_set_fresh {V : Type} (k : string) (v : V) (d : dict V) :
  ~ In k (map fst d) -> dict_set k v d = (d ++ [(k, v)])%list.
Proof.
  induction d as [|[k' v'] d IH]; cbn [dict_set map fst In app]; [reflexivity | ].
  intros H. destruct (String.eqb_spec k k') as [-> | Hne]; [tauto | ].
  rewrite IH by tauto. reflexivity.
Qed.

(** Filling from items with distinct keys, none of them in the dict yet,
    appends one entry per item, in the order of the items. *)
Lemma fill_fresh {A V : Type} (f : string -> A -> V) (items : list (string * A)) :
  forall acc : dict V,
  NoDup (map fst items) ->
  (forall k, In k (map fst items) -> ~ In k (map fst acc)) ->
  fill f items acc = (acc ++ map (fun ka => (fst ka, f (fst ka) (snd ka))) items)%list.
Proof.
  induction items as [|[k a] rest IH]; intros acc Hnd Hfresh; cbn [fill map].
  - rewrite app_nil_r. reflexivity.
  - cbn [map fst] in Hnd, Hfresh. inversion Hnd as [|? ? Hk Hrest]; subst.
    rewrite IH.
    + rewrite dict_set_fresh by (apply Hfresh; left; reflexivity).
      rewrite <- app_assoc. reflexivity.
    + exact Hrest.
    + intros k' Hin. rewrite dict_set_fresh by (apply Hfresh; left; reflexivity).
      rewrite map_app, in_app_iff. cbn [map fst In].
      intros [H | [H | []]]; [apply (Hfresh k'); [right | ]; assumption | ].
      subst k'. contradiction.
Qed.

Lemma extract_ignores_source (e : extractor) (s1 s2 : string) :
  extract e s1 = extract e s2.
Proof. destruct e; reflexivity. Qed.

(** X14.  [extract_from_platform] looks the platform up by its lower-cased
    name and never reads the source: two spellings with the same lower-cased
    form, with any two sources, give the same descriptor; and a platform is
    refused, with its name as given in the message, exactly when its
    lower-cased name is none of the twelve keys. *)
Theorem extract_from_platform_by_lowercase (p1 p2 s1 s2 : string) :
  (lower p1 = lower p2 ->
   forall d, extract_from_platform p1 s1 = Extracted d ->
             extract_from_platform p2 s2 = Extracted d)
  /\ (extract_from_platform p1 s1 = NotSupported ("Platform " ++ p1 ++ " not supported")
      <-> ~ In (lower p1) (map fst extractors))
  /\ (forall msg, extract_from_platform p1 s1 = NotSupported msg ->
                  msg = "Platform " ++ p1 ++ " not supported").
Proof.
  unfold extract_from_platform. split; [ | split].
  - intros <-. destruct (dict_get (lower p1) extractors) as [e|]; [ | discriminate].
    intros d [= <-]. rewrite (extract_ignores_source e s2 s1). reflexivity.
  - assert (Hget : forall k, dict_get k extractors = None <-> ~ In k (map fst extractors)).
    { intros k. generalize extractors. intros d.
      induction d as [|[k' v'] d IH]; cbn [dict_get map fst In]; [tauto | ].
      destruct (String.eqb_spec k k') as [-> | Hne]; [ | rewrite IH].
      - split; [discriminate | tauto].
      - split; [intros H [E | E]; [congruence | tauto] | tauto]. }
    rewrite <- Hget. destruct (dict_get (lower p1) extractors);
      split; intros H; try reflexivity; discriminate H.
  - intros msg. destruct (dict_get (lower p1) extractors); [discriminate | ].
    intros [= <-]. reflexivity.
Qed.

Lemma extract_from_platform_witness :
  extract_from_platform "DISCORD" "a.json" = Extracted (extract DiscordExtractor "")
  /\ extract_from_platform "Discord" "b.json" = Extracted (extract DiscordExtractor "").
Proof.
  split; [reflexivity | ].
  apply (proj1 (extract_from_platform_by_lowercase "DISCORD" "Discord" "a.json" "b.json"));
    reflexivity.
Defined.

(** X15.  [get_all_platforms] has one entry for each of the twelve keys,
    in the order of the registry, and each entry leads back to itself: the
    descriptor's platform name, lower-cased, is its key, so
    [extract_from_platform] called with that name (and any source) returns
    the same descriptor; every descriptor reports the status "ready". *)
Theorem platform_name_round_trip (k : string) (d : descriptor) (source : string) :
  dict_get k get_all_platforms = Some d ->
  lower (platform d) = k
  /\ extract_from_platform (platform d) source = Extracted d
  /\ status d = "ready"
  /\ map fst get_all_platforms = map fst extractors.
Proof.
  intros H.
  assert (Hin : In (k, d) get_all_platforms).
  { revert H. generalize get_all_platforms. intros l.
    induction l as [|[k' d'] l IH]; cbn [dict_get In]; [discriminate | ].
    destruct (String.eqb_spec k k') as [-> | _]; [intros [= ->]; left; reflexivity | ].
    intros H. right. exact (IH H). }
  vm_compute in Hin.
  repeat (destruct Hin as [[= <- <-] | Hin];
          [repeat split; reflexivity | ]).
  contradiction.
Qed.

Lemma platform_name_round_trip_witness :
  extract_from_platform "BlueSky" "feed.json" = Extracted (extract BlueSkyExtractor "").
Proof.
  apply (platform_name_round_trip "bluesky" (extract BlueSkyExtractor "") "feed.json").
  reflexivity.
Defined.

(** X16.  [extract_all] returns one entry per source, under the key as
    the caller spelt it and in the caller's order, holding what
    [extract_from_platform] returns for that key and source; an unsupported
    platform gets its error entry and stops nothing. *)
Theorem extract_all_entrywise (sources : dict string) :
  NoDup (map fst sources) ->
  extract_all sources
  = map (fun ps => (fst ps, extract_from_platform (fst ps) (snd ps))) sources.
Proof.
  intros Hnd. unfold extract_all. rewrite fill_fresh; [reflexivity | exact Hnd | ].
  intros k _ [].
Qed.

Lemma extract_all_witness :
  extract_all [("Discord", "a.json"); ("myspace", "b.json")]
  = [("Discord", extract_from_platform "Discord" "a.json");
     ("myspace", NotSupported "Platform myspace not supported")].
Proof.
  apply (extract_all_entrywise [("Discord", "a.json"); ("myspace", "b.json")]).
  repeat constructor; cbn; intuition discriminate.
Defined.

End UnifiedExtractorFacts.

(** * The orchestrator object *)

Module JoinityObjectFacts.

Import JoinityOrchestrator Backends Joinity Sign.

Lemma dict_set_keys {V : Type} (k : string) (v : V) (d : dict V) :
  dict_get k d <> None -> map fst (dict_set k v d) = map fst d.
Proof.
  induction d as [|[k' v'] d IH]; cbn [dict_get dict_set map fst]; [congruence | ].
  destruct (String.eqb_spec k k') as [-> | Hne]; intros H; cbn [map fst].
  - reflexivity.
  - rewrite IH by exact H. reflexivity.
Qed.

Lemma total_length_nonneg (str_other : json -> string) (d : dict json) :
  0 <= total_length str_other d.
Proof.
  induction d as [|[k v] d IH]; cbn [total_length]; [lia | ].
  pose proof (ScoreFacts.len_nonneg (str str_other v)). lia.
Qed.

Lemma length_requests_of_outbound (getenv : string -> option string)
    (prompt : string) (faces : list string) :
  (List.length (flat_map (outbound getenv prompt) faces) <= List.length faces)%nat.
Proof.
  induction faces as [|face rest IH]; cbn [flat_map List.length]; [lia | ].
  rewrite length_app. unfold outbound at 1.
  destruct (backend_of_face face) as [b|]; [destruct (lacks_credential getenv b) | ];
    cbn [List.length]; lia.
Qed.

Lemma requests_of_app (t1 t2 : list event) :
  requests_of (t1 ++ t2) = (requests_of t1 ++ requests_of t2)%list.
Proof.
  induction t1 as [|[r|o] t1 IH]; cbn [app requests_of]; [reflexivity | | exact IH].
  rewrite IH. reflexivity.
Qed.

Section World.

Variable getenv : string -> option string.
Variable network : list event -> request -> outcome response.
Variable utcnow : string.
Variable subscript_error : json -> key -> string.
Variable str_other : json -> string.
Variable slice_error : json -> string.
Variable str_float : float -> string.
Variables lambda_sign check_sign : string.

Local Abbreviation calculate_harmony := (JoinityOrchestrator.calculate_harmony str_other).
Local Abbreviation extract := (Backends.extract subscript_error).
Local Abbreviation lacks_credential := (Backends.lacks_credential getenv).
Local Abbreviation api_key_of := (Backends.api_key_of getenv).
Local Abbreviation reply := (Backends.reply getenv network subscript_error).
Local Abbreviation traffic := (Backends.traffic getenv network).
Local Abbreviation collect := (Backends.collect getenv network subscript_error).
Local Abbreviation outbound := (Joinity.outbound getenv).
Local Abbreviation orchestrate :=
  (Joinity.orchestrate getenv network utcnow subscript_error str_other).
Local Abbreviation slice200 := (Joinity.slice200 str_other slice_error).
Local Abbreviation report := (Joinity.report lambda_sign check_sign).
Local Abbreviation synthesize :=
  (Joinity.synthesize getenv network utcnow subscript_error str_other slice_error
     str_float lambda_sign check_sign).

(** [orchestrate] on the object, through the loop as a function. *)
Lemma orchestrate_collect (self : t) (prompt : string) (faces : option (list string))
    (t0 : list event) :
  exists h,
    calculate_harmony (fst (collect prompt (requested faces) [] t0)) = Return h
    /\ orchestrate self prompt faces t0
       = (Return ({| prompt := prompt;
                     responses := fst (collect prompt (requested faces) [] t0);
                     harmony_score := h;
                     timestamp := utcnow;
                     status := "complete" |},
                  {| nodes := nodes self;
                     attributes :=
                       {| self_responses := fst (collect prompt (requested faces) [] t0);
                          self_harmony_score := h |} |}),
          snd (collect prompt (requested faces) [] t0)).
Proof.
  destruct (JoinityFacts.calculate_harmony_returns str_other
              (fst (collect prompt (requested faces) [] t0))) as [h Hh].
  exists h. split; [exact Hh | ].
  unfold Joinity.orchestrate, JoinityOrchestrator.orchestrate. fold (requested faces).
  unfold bind at 1 2. rewrite JoinityFacts.ask_all_collect.
  unfold bind, lift, ret. rewrite Hh. reflexivity.
Qed.

Lemma collect_requests (prompt : string) (faces : list string) :
  forall (d : dict json) (t0 : list event),
  exists added,
    snd (collect prompt faces d t0) = (t0 ++ added)%list
    /\ requests_of added = flat_map (outbound prompt) faces.
Proof.
  induction faces as [|face rest IH]; intros d t0; cbn [Backends.collect flat_map].
  - exists []. rewrite app_nil_r. split; reflexivity.
  - unfold Joinity.outbound at 1.
    destruct (backend_of_face face) as [b|]; [ | apply IH].
    destruct (IH (dict_set (face_of b) (reply b prompt t0) d) (t0 ++ traffic b prompt t0)%list)
      as (added & Ht & Hreq).
    exists (traffic b prompt t0 ++ added)%list. rewrite Ht, app_assoc.
    split; [reflexivity | ]. rewrite requests_of_app, Hreq. unfold Backends.traffic.
    destruct (lacks_credential b); reflexivity.
Qed.

(** The four entries of a run over all four faces. *)
Lemma collect_all_faces (prompt : string) (t0 : list event) :
  let t1 := (t0 ++ traffic OpenAI prompt t0)%list in
  let t2 := (t1 ++ traffic Anthropic prompt t1)%list in
  let t3 := (t2 ++ traffic Ollama prompt t2)%list in
  fst (collect prompt (requested None) [] t0)
  = [("MAN", reply OpenAI prompt t0); ("LION", reply Anthropic prompt t1);
     ("OX", reply Ollama prompt t2); ("EAGLE", reply DeepSeek prompt t3)].
Proof. reflexivity. Qed.

(** A reply that is neither a [str] nor a list is what the backend's
    field path led to in a 200 response. *)
Lemma reply_not_sliceable (b : backend) (prompt : string) (t0 : list event) :
  sliceable (reply b prompt t0) = false ->
  lacks_credential b = false
  /\ exists resp,
       network t0 (request_of b (api_key_of b) prompt (default_model b)) = Return resp
       /\ status_code resp = 200
       /\ extract b resp = Return (reply b prompt t0).
Proof.
  unfold Backends.reply. destruct (lacks_credential b); [discriminate | ].
  unfold Backends.answer.
  destruct (network t0 _) as [resp | e]; [ | discriminate].
  destruct (Z.eqb_spec (status_code resp) 200) as [E | _]; [ | discriminate].
  destruct (extract b resp) as [x | e] eqn:Ex; [ | discriminate].
  intros _. split; [reflexivity | ]. exists resp. auto.
Qed.

Lemma slice200_raises (v : json) (e : exn) :
  slice200 v = Raise e -> sliceable v = false /\ e = Exception (slice_error v).
Proof.
  destruct v; cbn [Joinity.slice200 sliceable]; intros H; inversion H; auto.
Qed.

(** X1.  [configure_node] on a face that [self.nodes] does not hold
    changes nothing and returns the error dict that names the face.  On a
    face it holds, it returns the "configured" dict and leaves the node of
    that face with the new model and endpoint, its old specialty, and the
    new API key if one was given and is not empty, else whatever key it had
    (a key is never cleared); the nodes of the other faces, the order of the
    faces and the attributes that [orchestrate] assigns are as before. *)
Theorem configure_node_updates_one_face (self : t) (face model endpoint : string)
    (api_key : option string) :
  match dict_get face (nodes self) with
  | None =>
      configure_node self face model endpoint api_key
      = (self, [("status", "error"); ("message", "Face " ++ face ++ " not found")])
  | Some old =>
      let self' := fst (configure_node self face model endpoint api_key) in
      snd (configure_node self face model endpoint api_key)
      = [("status", "configured"); ("face", face); ("model", model)]
      /\ dict_get face (nodes self')
         = Some {| Joinity.model := model;
                   Joinity.endpoint := endpoint;
                   specialty := specialty old;
                   Joinity.api_key :=
                     if not_key api_key then Joinity.api_key old else api_key |}
      /\ (forall other, other <> face ->
          dict_get other (nodes self') = dict_get other (nodes self))
      /\ map fst (nodes self') = map fst (nodes self)
      /\ attributes self' = attributes self
  end.
Proof.
  unfold configure_node. destruct (dict_get face (nodes self)) as [old|] eqn:E;
    [ | reflexivity].
  cbn [fst snd nodes attributes]. split; [reflexivity | ].
  split; [ | split; [ | split; [ | reflexivity]]].
  - rewrite JoinityFacts.dict_get_set_same. f_equal.
    destruct api_key as [k|]; cbn [not_key key_of]; [ | reflexivity].
    destruct (String.eqb k ""); reflexivity.
  - intros other Hne. apply JoinityFacts.dict_get_set_other. exact Hne.
  - apply dict_set_keys. congruence.
Qed.

(** X2.  Whatever the nodes are configured to, [orchestrate] adds to
    the traffic exactly the requests of the requested faces, in the order of
    the faces: for a face that names a backend whose credential is not
    missing, the fixed request of that backend (its own URL, its own
    credential from the environment in its headers, the default model and
    the prompt in its payload, its timeout), and none for any other face.
    So no request is sent a second time: there are at most as many requests
    as requested faces. *)
Theorem orchestrate_sends_the_fixed_requests (self : t) (prompt : string)
    (faces : option (list string)) (t0 : list event) :
  exists added,
    snd (orchestrate self prompt faces t0) = (t0 ++ added)%list
    /\ requests_of added = flat_map (outbound prompt) (requested faces)
    /\ (List.length (requests_of added) <= List.length (requested faces))%nat.
Proof.
  destruct (orchestrate_collect self prompt faces t0) as (h & _ & ->). cbn [snd].
  destruct (collect_requests prompt (requested faces) [] t0) as (added & Ht & Hreq).
  exists added. split; [exact Ht | ]. split; [exact Hreq | ].
  rewrite Hreq. apply length_requests_of_outbound.
Qed.

(** X3.  The aggregate harmony of any dict of responses is returned
    (no division by zero) and lies between 0 and 1.  The division of the two
    [int]s is the correctly rounded quotient; the OverflowError that Python
    raises for a quotient beyond the range of a double, from 2^1024 on, is
    outside this model, and no total of string lengths comes near. *)
Theorem calculate_harmony_in_unit (responses : dict json) :
  exists h, calculate_harmony responses = Return h /\ in_unit h = true.
Proof.
  destruct responses as [|kv d]; [exists 0%float; split; reflexivity | ].
  unfold JoinityOrchestrator.calculate_harmony, truediv.
  destruct (Z.eqb_spec (Z.of_nat (List.length (kv :: d))) 0) as [E | _];
    [cbn [List.length] in E; lia | ].
  cbn [obind]. eexists. split; [reflexivity | ].
  apply FloatFacts.round3_in_unit, SignFacts.py_min_one_in_unit.
  eapply SignFacts.div_not_negative; [reflexivity | ].
  apply SignFacts.int_truediv_not_negative.
  - apply total_length_nonneg.
  - cbn [List.length]. lia.
Qed.

(** X4.  [synthesize] asks all four faces, so the report never shows
    the 'N/A' default: the responses hold exactly the entries of MAN, LION,
    OX and EAGLE, in that order.  When the first 200 items of each of the
    four can be taken, [synthesize] returns the report built from them and
    from the harmony score of the run, and leaves the object with its nodes
    as they were and with the responses and the harmony score of the run. *)
Theorem synthesize_reports_every_face (self : t) (prompt : string) (t0 : list event) :
  exists o t' man lion ox eagle,
    orchestrate self prompt None t0
    = (Return (o, {| nodes := nodes self;
                     attributes := {| self_responses := responses o;
                                      self_harmony_score := harmony_score o |} |}), t')
    /\ responses o = [("MAN", man); ("LION", lion); ("OX", ox); ("EAGLE", eagle)]
    /\ forall a b c d,
         slice200 man = Return a -> slice200 lion = Return b ->
         slice200 ox = Return c -> slice200 eagle = Return d ->
         synthesize self prompt t0
         = (Return (report prompt a b c d (str_float (harmony_score o)),
                    {| nodes := nodes self;
                       attributes := {| self_responses := responses o;
                                        self_harmony_score := harmony_score o |} |}),
            t').
Proof.
  destruct (orchestrate_collect self prompt None t0) as (h & _ & Ho).
  pose proof (collect_all_faces prompt t0) as Hall. cbv zeta in Hall.
  set (t1 := (t0 ++ traffic OpenAI prompt t0)%list) in *.
  set (t2 := (t1 ++ traffic Anthropic prompt t1)%list) in *.
  set (t3 := (t2 ++ traffic Ollama prompt t2)%list) in *.
  rewrite Hall in Ho.
  eexists. exists (snd (collect prompt (requested None) [] t0)).
  exists (reply OpenAI prompt t0), (reply Anthropic prompt t1),
    (reply Ollama prompt t2), (reply DeepSeek prompt t3).
  split; [exact Ho | ]. cbn [responses harmony_score].
  split; [reflexivity | ].
  intros a b c d Ha Hb Hc Hd.
  unfold Joinity.synthesize. unfold bind at 1. rewrite Ho. unfold lift.
  cbn [responses harmony_score Joinity.get_response dict_get String.eqb Ascii.eqb Bool.eqb].
  rewrite Ha, Hb, Hc, Hd. reflexivity.
Qed.

(** X5.  [synthesize] can raise, and only in one way: some backend
    whose credential is not missing got a 200 response in which its field
    path leads to a value that is neither a [str] nor a list, and the
    exception is the one that slicing that value raises.  Missing
    credentials, failed calls, error statuses and malformed bodies never
    make it raise. *)
Theorem synthesize_raises_only_on_non_text (self : t) (prompt : string)
    (t0 t' : list event) (e : exn) :
  synthesize self prompt t0 = (Raise e, t') ->
  exists b tb resp v,
    lacks_credential b = false
    /\ network tb (request_of b (api_key_of b) prompt (default_model b)) = Return resp
    /\ status_code resp = 200
    /\ extract b resp = Return v
    /\ sliceable v = false
    /\ e = Exception (slice_error v).
Proof.
  destruct (orchestrate_collect self prompt None t0) as (h & _ & Ho).
  unfold Joinity.synthesize. unfold bind at 1. rewrite Ho.
  rewrite collect_all_faces. cbv zeta. unfold lift. cbn [responses].
  cbn [Joinity.get_response dict_get String.eqb Ascii.eqb Bool.eqb].
  set (t1 := (t0 ++ traffic OpenAI prompt t0)%list).
  set (t2 := (t1 ++ traffic Anthropic prompt t1)%list).
  set (t3 := (t2 ++ traffic Ollama prompt t2)%list).
  assert (Hraise : forall b tb,
             slice200 (reply b prompt tb) = Raise e ->
             exists b tb resp v,
               lacks_credential b = false
               /\ network tb (request_of b (api_key_of b) prompt (default_model b))
                  = Return resp
               /\ status_code resp = 200
               /\ extract b resp = Return v
               /\ sliceable v = false
               /\ e = Exception (slice_error v)).
  { intros b tb H. apply slice200_raises in H. destruct H as [Hs He].
    destruct (reply_not_sliceable b prompt tb Hs) as (Hl & resp & Hn & Hc & Hx).
    exists b, tb, resp, (reply b prompt tb). repeat split; assumption. }
  destruct (slice200 (reply OpenAI prompt t0)) as [a | e1] eqn:E1; cbn [obind];
    [ | intros H; inversion H; subst; eapply Hraise; exact E1].
  destruct (slice200 (reply Anthropic prompt t1)) as [b | e2] eqn:E2; cbn [obind];
    [ | intros H; inversion H; subst; eapply Hraise; exact E2].
  destruct (slice200 (reply Ollama prompt t2)) as [c | e3] eqn:E3; cbn [obind];
    [ | intros H; inversion H; subst; eapply Hraise; exact E3].
  destruct (slice200 (reply DeepSeek prompt t3)) as [d | e4] eqn:E4; cbn [obind];
    [ | intros H; inversion H; subst; eapply Hraise; exact E4].
  discriminate.
Qed.

End World.

(** A run of [configure_node] on the fresh object: LION gets a new model
    and endpoint and keeps its specialty. *)
Lemma configure_node_witness :
  dict_get "LION" (nodes (fst (configure_node init "LION" "claude-3-opus" "anthropic" None)))
  = Some {| model := "claude-3-opus"; endpoint := "anthropic";
            specialty := "Judge/Verification"; api_key := None |}.
Proof.
  pose proof (configure_node_updates_one_face init "LION" "claude-3-opus" "anthropic" None)
    as H.
  cbn [dict_get init nodes String.eqb Ascii.eqb Bool.eqb] in H.
  destruct H as (_ & H & _). exact H.
Defined.

Lemma synthesize_raises_witness :
  synthesize Demo.openai_env JoinityDemo.null_network Demo.clock Demo.no_detail
    Demo.no_text JoinityDemo.not_subscriptable JoinityDemo.no_float "" "" init "ping" []
  = (Raise (Exception "not subscriptable"),
     snd (synthesize Demo.openai_env JoinityDemo.null_network Demo.clock
            Demo.no_detail Demo.no_text JoinityDemo.not_subscriptable JoinityDemo.no_float
            "" "" init "ping" []))
  /\ exists b tb resp v,
       Backends.lacks_credential Demo.openai_env b = false
       /\ JoinityDemo.null_network tb
            (request_of b (Backends.api_key_of Demo.openai_env b) "ping" (default_model b))
          = Return resp
       /\ status_code resp = 200
       /\ Backends.extract Demo.no_detail b resp = Return v
       /\ sliceable v = false
       /\ Exception "not subscriptable" = Exception (JoinityDemo.not_subscriptable v).
Proof.
  split; [vm_compute; reflexivity | ].
  eapply (synthesize_raises_only_on_non_text Demo.openai_env
            JoinityDemo.null_network Demo.clock Demo.no_detail Demo.no_text
            JoinityDemo.not_subscriptable JoinityDemo.no_float "" "" init "ping" []).
  vm_compute. reflexivity.
Defined.

End JoinityObjectFacts.

(** * The extractor object *)

Module WhatsAppFacts.

Import JoinityOrchestrator WhatsAppExtractor WhatsApp.

(** *** Dicts *)

Lemma dict_set_set {V : Type} (k : string) (v1 v2 : V) (d : dict V) :
  dict_set k v2 (dict_set k v1 d) = dict_set k v2 d.
Proof.
  induction d as [|[k' v'] d IH]; cbn [dict_set].
  - rewrite String.eqb_refl. reflexivity.
  - destruct (String.eqb k k') eqn:E; cbn [dict_set].
    + rewrite String.eqb_refl. reflexivity.
    + rewrite E, IH. reflexivity.
Qed.

Lemma dict_set_comm {V : Type} (k k' : string) (v v' : V) (d : dict V) :
  k <> k' -> dict_get k d <> None ->
  dict_set k' v' (dict_set k v d) = dict_set k v (dict_set k' v' d).
Proof.
  intros Hne. induction d as [|[k0 v0] d IH]; cbn [dict_get dict_set]; [congruence | ].
  destruct (String.eqb_spec k k0) as [-> | Hk]; intros H.
  - cbn [dict_set]. destruct (String.eqb_spec k' k0) as [E | _]; [congruence | ].
    cbn [dict_set]. rewrite String.eqb_refl. reflexivity.
  - cbn [dict_set]. destruct (String.eqb_spec k' k0) as [-> | Hk'].
    + cbn [dict_set]. destruct (String.eqb_spec k k0) as [E | _]; [congruence | ].
      reflexivity.
    + cbn [dict_set]. destruct (String.eqb_spec k k0) as [E | _]; [congruence | ].
      rewrite IH by exact H. reflexivity.
Qed.

Lemma dict_set_stored {V : Type} (k : string) (v : V) (d : dict V) :
  dict_get k d = Some v -> dict_set k v d = d.
Proof.
  induction d as [|[k' v'] d IH]; cbn [dict_get dict_set]; [discriminate | ].
  destruct (String.eqb_spec k k') as [-> | Hne]; intros H.
  - injection H as ->. reflexivity.
  - rewrite IH by exact H. reflexivity.
Qed.

Lemma dict_get_set {V : Type} (k k' : string) (v : V) (d : dict V) :
  dict_get k (dict_set k' v d) = if String.eqb k k' then Some v else dict_get k d.
Proof.
  destruct (String.eqb_spec k k') as [-> | Hne].
  - apply JoinityFacts.dict_get_set_same.
  - apply JoinityFacts.dict_get_set_other. exact Hne.
Qed.

Lemma dict_set_not_empty {V : Type} (k : string) (v : V) (d : dict V) :
  dict_set k v d <> [].
Proof.
  destruct d as [|[k' v'] d]; cbn [dict_set]; [discriminate | ].
  destruct (String.eqb k k'); discriminate.
Qed.

Lemma dict_set_values {V : Type} (P : V -> Prop) (k : string) (v : V) (d : dict V) :
  P v -> Forall P (values d) -> Forall P (values (dict_set k v d)).
Proof.
  intros Hv. unfold values.
  induction d as [|[k' v'] d IH]; cbn [dict_set map snd]; intros H.
  - constructor; [exact Hv | constructor].
  - inversion H as [|? ? H1 H2]; subst.
    destruct (String.eqb k k'); cbn [map snd]; constructor; auto.
Qed.

(** *** The loop that stores the scores *)

Lemma find_app {A : Type} (p : A -> bool) (l1 l2 : list A) :
  find p (l1 ++ l2) = match find p l1 with Some x => Some x | None => find p l2 end.
Proof.
  induction l1 as [|a l1 IH]; cbn [app find]; [reflexivity | ].
  destruct (p a); [reflexivity | exact IH].
Qed.

(** After the loop, a timestamp holds the score of the last message
    that carries it, or what it held before if no message does. *)
Lemma record_scores_get (ts : string) (msgs : list Message.t) :
  forall d : dict float,
  dict_get ts (record_scores msgs d)
  = match find (fun m => String.eqb ts (Message.timestamp m)) (rev msgs) with
    | Some m => Some (calculate_harmony_score (Message.message m))
    | None => dict_get ts d
    end.
Proof.
  induction msgs as [|m msgs IH]; intros d; cbn [record_scores rev find]; [reflexivity | ].
  rewrite IH, find_app. cbn [find].
  destruct (find _ (rev msgs)); [reflexivity | ].
  rewrite dict_get_set. destruct (String.eqb ts (Message.timestamp m)); reflexivity.
Qed.

Lemma record_scores_not_empty (msgs : list Message.t) (d : dict float) :
  msgs <> [] -> record_scores msgs d <> [].
Proof.
  assert (H : forall l d', d' <> [] -> record_scores l d' <> []).
  { induction l as [|m l IH]; intros d' Hd; cbn [record_scores]; [exact Hd | ].
    apply IH, dict_set_not_empty. }
  destruct msgs as [|m msgs]; [congruence | ]. intros _. cbn [record_scores].
  apply H, dict_set_not_empty.
Qed.

Lemma record_scores_present (k : string) (msgs : list Message.t) :
  forall d : dict float,
  dict_get k d <> None -> dict_get k (record_scores msgs d) <> None.
Proof.
  induction msgs as [|m msgs IH]; intros d H; cbn [record_scores]; [exact H | ].
  apply IH. rewrite dict_get_set. destruct (String.eqb k _); [discriminate | exact H].
Qed.

(** A key that a later message stores again can be stored now with any
    value. *)
Lemma record_scores_overwrites (k : string) (v : float) (msgs : list Message.t) :
  In k (map Message.timestamp msgs) ->
  forall d : dict float,
  dict_get k d <> None ->
  record_scores msgs (dict_set k v d) = record_scores msgs d.
Proof.
  induction msgs as [|m msgs IH]; cbn [map In record_scores]; [contradiction | ].
  intros Hin d Hd.
  destruct (String.eqb_spec k (Message.timestamp m)) as [-> | Hne].
  - rewrite dict_set_set. reflexivity.
  - destruct Hin as [E | Hin]; [congruence | ].
    rewrite dict_set_comm by assumption.
    apply IH; [exact Hin | ].
    rewrite dict_get_set. destruct (String.eqb k _); [discriminate | exact Hd].
Qed.

Lemma record_scores_untouched (k : string) (msgs : list Message.t) :
  ~ In k (map Message.timestamp msgs) ->
  forall d : dict float, dict_get k (record_scores msgs d) = dict_get k d.
Proof.
  induction msgs as [|m msgs IH]; cbn [map In record_scores]; intros Hin d;
    [reflexivity | ].
  rewrite IH by tauto. apply JoinityFacts.dict_get_set_other. intros E. apply Hin.
  left. symmetry. exact E.
Qed.

(** Running the loop once more changes nothing. *)
Lemma record_scores_idempotent (msgs : list Message.t) :
  forall d : dict float,
  record_scores msgs (record_scores msgs d) = record_scores msgs d.
Proof.
  induction msgs as [|m msgs IH]; intros d; cbn [record_scores]; [reflexivity | ].
  set (k := Message.timestamp m). set (v := calculate_harmony_score (Message.message m)).
  set (e := dict_set k v d).
  destruct (in_dec string_dec k (map Message.timestamp msgs)) as [Hin | Hout].
  - rewrite record_scores_overwrites; [apply IH | exact Hin | ].
    apply record_scores_present. unfold e.
    rewrite JoinityFacts.dict_get_set_same. discriminate.
  - rewrite dict_set_stored; [apply IH | ].
    rewrite record_scores_untouched by exact Hout.
    apply JoinityFacts.dict_get_set_same.
Qed.

Lemma record_scores_values (P : float -> Prop) (msgs : list Message.t) :
  (forall text, P (calculate_harmony_score text)) ->
  forall d : dict float,
  Forall P (values d) -> Forall P (values (record_scores msgs d)).
Proof.
  intros HP. induction msgs as [|m msgs IH]; intros d Hd; cbn [record_scores];
    [exact Hd | ].
  apply IH, dict_set_values; [apply HP | exact Hd].
Qed.

Section World.

Variable list_of_set : list string -> list string.
Variable float_sum : list float -> float.
Variables zero_division_error max_empty_error min_empty_error : string.
Variable now_stamp : string.
Variable write_json : string -> export_data -> option string.
Variable dumps_size : export_data -> Z.
Variable fs : string -> file.
Variables started_at piped_at : string.

Local Abbreviation analyze_messages :=
  (WhatsApp.analyze_messages list_of_set float_sum zero_division_error
     max_empty_error min_empty_error).
Local Abbreviation export_to_mega :=
  (WhatsApp.export_to_mega list_of_set float_sum zero_division_error
     max_empty_error min_empty_error now_stamp write_json dumps_size).
Local Abbreviation main :=
  (WhatsApp.main list_of_set float_sum zero_division_error
     max_empty_error min_empty_error now_stamp write_json dumps_size fs
     started_at piped_at).

(** The analysis of an object that holds messages, with every step that
    could raise resolved. *)
Lemma analyze_messages_unfold (self : t) :
  messages self <> [] ->
  exists x rest,
    values (record_scores (messages self) (harmony_scores self)) = x :: rest
    /\ analyze_messages self
       = ({| messages := messages self;
             harmony_scores := record_scores (messages self) (harmony_scores self);
             extracted_at := extracted_at self |},
          Return (Analysis
            {| total_messages := Z.of_nat (List.length (messages self));
               total_characters := sum_of Message.length (messages self);
               total_words := sum_of Message.word_count (messages self);
               average_message_length :=
                 int_truediv (sum_of Message.length (messages self))
                   (Z.of_nat (List.length (messages self)));
               contacts := list_of_set (map Message.contact (messages self));
               analysis_harmony_scores := [];
               average_harmony :=
                 round3 (float_sum (values (record_scores (messages self)
                                              (harmony_scores self)))
                         / float_of_int
                             (Z.of_nat (List.length (record_scores (messages self)
                                                       (harmony_scores self)))));
               max_harmony := round3 (fold_left py_max rest x);
               min_harmony := round3 (fold_left py_min rest x) |})).
Proof.
  intros Hne. unfold WhatsApp.analyze_messages.
  pose proof (record_scores_not_empty (messages self) (harmony_scores self) Hne) as Hs.
  destruct (messages self) as [|m msgs] eqn:Em; [congruence | ].
  set (scores := record_scores (m :: msgs) (harmony_scores self)) in *.
  destruct scores as [|[k x] rest] eqn:Es; [congruence | ].
  exists x, (values rest). split; [reflexivity | ].
  unfold truediv, float_truediv.
  destruct (Z.eqb_spec (Z.of_nat (List.length (m :: msgs))) 0) as [E | _];
    [cbn [List.length] in E; lia | ].
  destruct (Z.eqb_spec (Z.of_nat (List.length ((k, x) :: rest))) 0) as [E | _];
    [cbn [List.length] in E; lia | ].
  reflexivity.
Qed.

Lemma analyze_messages_empty (self : t) :
  messages self = [] ->
  analyze_messages self = (self, Return (AnalyzeError "No messages extracted")).
Proof. intros H. unfold WhatsApp.analyze_messages. rewrite H. reflexivity. Qed.

Lemma analyze_messages_state (self : t) :
  fst (analyze_messages self)
  = {| messages := messages self;
       harmony_scores := record_scores (messages self) (harmony_scores self);
       extracted_at := extracted_at self |}.
Proof.
  destruct (messages self) as [|m msgs] eqn:Em.
  - rewrite analyze_messages_empty by exact Em. cbn [fst record_scores].
    rewrite <- Em. destruct self; reflexivity.
  - destruct (analyze_messages_unfold self) as (x & rest & _ & ->); [congruence | ].
    rewrite Em. reflexivity.
Qed.

Lemma analyze_messages_never_raises (self : t) :
  exists r, snd (analyze_messages self) = Return r.
Proof.
  destruct (messages self) as [|m msgs] eqn:Em.
  - rewrite analyze_messages_empty by exact Em. eexists. reflexivity.
  - destruct (analyze_messages_unfold self) as (x & rest & _ & ->); [congruence | ].
    eexists. reflexivity.
Qed.

(** X6.  [analyze_messages] never raises.  With no messages it
    returns the error dict and leaves the object as it is.  With messages it
    returns an analysis whose counts are those of the messages and whose
    "harmony_scores" entry is always the empty dict: the scores go to the
    object, not into the analysis.  (The average length is the correctly
    rounded quotient of two [int]s; Python's OverflowError for a quotient
    beyond the range of a double is outside this model.) *)
Theorem analyze_messages_returns (self : t) :
  exists r,
    snd (analyze_messages self) = Return r
    /\ match r with
       | AnalyzeError message =>
           messages self = [] /\ message = "No messages extracted"
           /\ fst (analyze_messages self) = self
       | Analysis a =>
           messages self <> []
           /\ total_messages a = Z.of_nat (List.length (messages self))
           /\ total_characters a = sum_of Message.length (messages self)
           /\ total_words a = sum_of Message.word_count (messages self)
           /\ analysis_harmony_scores a = []
       end.
Proof.
  destruct (messages self) as [|m msgs] eqn:Em.
  - rewrite analyze_messages_empty by exact Em. eexists. split; [reflexivity | ].
    cbn [fst]. auto.
  - destruct (analyze_messages_unfold self) as (x & rest & _ & ->); [congruence | ].
    eexists. split; [reflexivity | ]. rewrite Em.
    cbn [total_messages total_characters total_words analysis_harmony_scores].
    repeat split; congruence.
Qed.

(** X7.  After [analyze_messages], a timestamp holds the score of the
    last message that carries it: of two messages of the same minute only
    the later one's score is kept.  A timestamp that no message carries
    holds what it held before, so scores of earlier runs stay.  The messages
    and the extraction time are not changed. *)
Theorem analyze_messages_stores_last_score (self : t) (ts : string) :
  dict_get ts (harmony_scores (fst (analyze_messages self)))
  = match find (fun m => String.eqb ts (Message.timestamp m)) (rev (messages self)) with
    | Some m => Some (calculate_harmony_score (Message.message m))
    | None => dict_get ts (harmony_scores self)
    end
  /\ messages (fst (analyze_messages self)) = messages self
  /\ extracted_at (fst (analyze_messages self)) = extracted_at self.
Proof.
  rewrite analyze_messages_state. cbn [harmony_scores messages extracted_at].
  split; [apply record_scores_get | split; reflexivity].
Qed.

(** X8.  [analyze_messages] is idempotent: a second call right after
    the first leaves the object as the first left it and returns the same
    result. *)
Theorem analyze_messages_idempotent (self : t) :
  analyze_messages (fst (analyze_messages self)) = analyze_messages self.
Proof.
  destruct (messages self) as [|m msgs] eqn:Em.
  - rewrite (analyze_messages_empty self Em). cbn [fst].
    apply analyze_messages_empty. exact Em.
  - assert (Hne : messages self <> []) by congruence.
    rewrite analyze_messages_state.
    set (self' := {| messages := messages self;
                     harmony_scores := record_scores (messages self) (harmony_scores self);
                     extracted_at := extracted_at self |}).
    destruct (analyze_messages_unfold self Hne) as (x & rest & Hv & ->).
    destruct (analyze_messages_unfold self' Hne) as (x' & rest' & Hv' & ->).
    cbn [messages harmony_scores extracted_at self'] in *.
    rewrite record_scores_idempotent in *.
    rewrite Hv in Hv'. injection Hv' as <- <-. reflexivity.
Qed.

(** X9.  When every score stored so far is a message score, the
    analysis reports as "max_harmony" and "min_harmony" two of the scores
    the object holds after the call: no stored score is above the first or
    below the second, both lie between 0 and 1, and the rounding to 3
    decimals applied to them changes nothing. *)
Theorem max_and_min_harmony_are_stored_scores (self : t) :
  messages self <> [] ->
  Forall (fun v => exists text, v = calculate_harmony_score text)
    (values (harmony_scores self)) ->
  exists a,
    snd (analyze_messages self) = Return (Analysis a)
    /\ In (max_harmony a) (values (harmony_scores (fst (analyze_messages self))))
    /\ In (min_harmony a) (values (harmony_scores (fst (analyze_messages self))))
    /\ Forall (fun v => (v <=? max_harmony a)%float = true
                        /\ (min_harmony a <=? v)%float = true)
         (values (harmony_scores (fst (analyze_messages self))))
    /\ in_unit (max_harmony a) = true
    /\ in_unit (min_harmony a) = true.
Proof.
  intros Hne Hold. rewrite analyze_messages_state. cbn [harmony_scores].
  destruct (analyze_messages_unfold self Hne) as (x & rest & Hv & ->).
  eexists. split; [reflexivity | ]. cbn [max_harmony min_harmony].
  pose proof (record_scores_values (fun v => exists text, v = calculate_harmony_score text)
                (messages self) ltac:(intros text; exists text; reflexivity)
                (harmony_scores self) Hold) as Hall.
  rewrite Hv in *.
  assert (Hunit : Forall (fun v => in_unit v = true) (x :: rest)).
  { eapply Forall_impl; [ | exact Hall]. intros v [text ->]. apply UnitFacts.score_in_unit. }
  assert (Hfix : forall v, In v (x :: rest) -> round3 v = v).
  { intros v Hin. rewrite Forall_forall in Hall. destruct (Hall v Hin) as [text ->].
    apply UnitFacts.score_round3. }
  inversion Hunit as [|? ? Hx Hrest]; subst.
  destruct (UnitFacts.fold_py_max rest x Hx Hrest) as (Hmu & Hmin & Hmall).
  destruct (UnitFacts.fold_py_min rest x Hx Hrest) as (Hnu & Hnin & Hnall).
  rewrite (Hfix _ Hmin), (Hfix _ Hnin).
  repeat split; try assumption.
  rewrite Forall_forall in *. intros v Hin. split; auto.
Qed.

(** X13.  Reading a file replaces the messages and leaves the stored
    scores alone: after [extract_from_txt] on a readable file and then
    [analyze_messages], the object holds the messages of that file, at most
    one per line, and every timestamp that none of them carries still holds
    the score it held before the file was read. *)
Theorem extract_then_analyze_keeps_earlier_scores (self : t) (file_path : string)
    (lines : list string) :
  fs file_path = Lines lines ->
  let loaded := fst (extract_from_txt fs self file_path) in
  let analyzed := fst (analyze_messages loaded) in
  snd (extract_from_txt fs self file_path)
  = ExtractSuccess (Z.of_nat (List.length (parse_lines lines)))
  /\ messages analyzed = parse_lines lines
  /\ (List.length (messages analyzed) <= List.length lines)%nat
  /\ harmony_scores loaded = harmony_scores self
  /\ forall ts, ~ In ts (map Message.timestamp (parse_lines lines)) ->
       dict_get ts (harmony_scores analyzed) = dict_get ts (harmony_scores self).
Proof.
  intros Hfs loaded analyzed. unfold analyzed. rewrite analyze_messages_state.
  unfold loaded, WhatsApp.extract_from_txt, WhatsAppExtractor.extract_from_txt.
  rewrite Hfs. cbn [fst snd messages harmony_scores extracted_at].
  split; [reflexivity | ]. split; [reflexivity | ].
  split; [apply ParseFacts.parse_lines_length | ]. split; [reflexivity | ].
  intros ts Hts. apply record_scores_untouched. exact Hts.
Qed.

(** X10.  [export_to_mega] never raises and always comes to its
    write, also when there are no messages.  The path is the one given, or
    the default under /home/ubuntu when none or an empty one is given.  The
    document holds the messages, the analysis of this call and, because the
    object's dict of scores is the very dict that the analysis fills, the
    scores as they are after that analysis.  The result is the error text
    when the write fails, and else the path and the size of the document. *)
Theorem export_to_mega_writes_scores_after_analysis (self : t)
    (output_path : option string) :
  let path := if not_path output_path
              then "/home/ubuntu/whatsapp_export_" ++ now_stamp ++ ".json"
              else match output_path with Some p => p | None => "" end in
  exists result data,
    export_to_mega self output_path
    = (fst (analyze_messages self), Return result, Some (path, data))
    /\ export_extracted_at data = extracted_at self
    /\ export_messages data = messages self
    /\ export_harmony_scores data = record_scores (messages self) (harmony_scores self)
    /\ snd (analyze_messages self) = Return (export_analysis data)
    /\ result = match write_json path data with
                | None => ExportSuccess path (dumps_size data)
                | Some e => ExportError e
                end.
Proof.
  intros path. unfold WhatsApp.export_to_mega. fold path.
  destruct (analyze_messages_never_raises self) as (r & Hr).
  pose proof (analyze_messages_state self) as Hs.
  destruct (analyze_messages self) as [self' o]. cbn [fst snd] in *. subst o self'.
  cbn [harmony_scores].
  eexists. eexists. split; [reflexivity | ].
  cbn [export_extracted_at export_messages export_harmony_scores export_analysis].
  repeat split.
Qed.

(** X11.  [main] never raises, and each run starts from a fresh
    extractor: "analyze" always prints the no-messages error; "export"
    always writes a document with no messages, no scores and that error as
    its analysis, to the default path; "extract" with a path prints the
    result of reading that path into the fresh extractor, and "pipe" with
    arguments pipes them joined by single spaces; "extract" and "pipe"
    without their argument print nothing, and so does every unknown command,
    whatever arguments follow it; only "export" writes; and without a
    command the usage text is printed. *)
Theorem main_starts_from_a_fresh_extractor (argv : list string) :
  exists p w,
    main argv = (Return p, w)
    /\ (forall prog args, argv = prog :: "analyze" :: args ->
        p = PrintedAnalysis (AnalyzeError "No messages extracted") /\ w = None)
    /\ (forall prog args, argv = prog :: "export" :: args ->
        let path := "/home/ubuntu/whatsapp_export_" ++ now_stamp ++ ".json" in
        let data := {| export_extracted_at := started_at;
                       export_messages := [];
                       export_harmony_scores := [];
                       export_analysis := AnalyzeError "No messages extracted" |} in
        w = Some (path, data)
        /\ p = PrintedExport match write_json path data with
                             | None => ExportSuccess path (dumps_size data)
                             | Some e => ExportError e
                             end)
    /\ (forall prog command, argv = [prog; command] ->
        command <> "analyze" -> command <> "export" -> p = Nothing /\ w = None)
    /\ (forall prog command args, argv = prog :: command :: args ->
        command <> "extract" -> command <> "analyze" -> command <> "export" ->
        command <> "pipe" -> p = Nothing /\ w = None)
    /\ (forall prog file_path args, argv = prog :: "extract" :: file_path :: args ->
        p = PrintedExtract (snd (extract_from_txt fs (init started_at) file_path))
        /\ w = None)
    /\ (forall prog args, argv = prog :: "pipe" :: args -> args <> [] ->
        p = PrintedPipe (pipe_through_merkabah piped_at (String.concat " " args))
        /\ w = None)
    /\ (forall prog command args, argv = prog :: command :: args ->
        command <> "export" -> w = None)
    /\ ((List.length argv <= 1)%nat -> p = Usage /\ w = None).
Proof.
  assert (Hlen : forall (prog command : string) (args : list string),
             (2 <? Z.of_nat (List.length (prog :: command :: args)))
             = match args with [] => false | _ => true end).
  { intros prog command [|a args]; [reflexivity | ].
    apply Z.ltb_lt. cbn [List.length]. lia. }
  destruct argv as [|prog [|command args]].
  - exists Usage, None. cbn [List.length]. repeat split; try discriminate; try lia.
  - exists Usage, None. cbn [List.length]. repeat split; try discriminate; try lia.
  - unfold WhatsApp.main. rewrite Hlen. clear Hlen.
    destruct (String.eqb_spec command "extract") as [-> | Hx];
      [ | destruct (String.eqb_spec command "analyze") as [-> | Ha];
          [ | destruct (String.eqb_spec command "export") as [-> | He];
              [ | destruct (String.eqb_spec command "pipe") as [-> | Hp] ] ] ];
      destruct args as [|a args]; cbn;
      (eexists; eexists; split; [reflexivity | ]);
      repeat split; intros; cbn [List.length] in *;
      try discriminate; try congruence; try lia.
    injection H as <- <-. reflexivity.
Qed.

End World.

Lemma max_and_min_harmony_witness :
  messages WhatsAppDemo.reloaded <> []
  /\ values (harmony_scores WhatsAppDemo.reloaded)
     = [calculate_harmony_score "Thanks, great!"]
  /\ Forall (fun v => exists text, v = calculate_harmony_score text)
       (values (harmony_scores WhatsAppDemo.reloaded))
  /\ (exists a,
        snd (analyze_messages WhatsAppDemo.in_order WhatsAppDemo.plain_sum "" "" ""
               WhatsAppDemo.reloaded) = Return (Analysis a)
        /\ In (max_harmony a)
             (values (harmony_scores
                (fst (analyze_messages WhatsAppDemo.in_order WhatsAppDemo.plain_sum
                        "" "" "" WhatsAppDemo.reloaded))))
        /\ In (min_harmony a)
             (values (harmony_scores
                (fst (analyze_messages WhatsAppDemo.in_order WhatsAppDemo.plain_sum
                        "" "" "" WhatsAppDemo.reloaded))))
        /\ Forall (fun v => (v <=? max_harmony a)%float = true
                            /\ (min_harmony a <=? v)%float = true)
             (values (harmony_scores
                (fst (analyze_messages WhatsAppDemo.in_order WhatsAppDemo.plain_sum
                        "" "" "" WhatsAppDemo.reloaded))))
        /\ in_unit (max_harmony a) = true
        /\ in_unit (min_harmony a) = true)
  /\ values (harmony_scores
               (fst (analyze_messages WhatsAppDemo.in_order WhatsAppDemo.plain_sum
                       "" "" "" WhatsAppDemo.reloaded)))
     = [0.302%float; 0.448%float; 0.108%float]
  /\ match snd (analyze_messages WhatsAppDemo.in_order WhatsAppDemo.plain_sum "" "" ""
                  WhatsAppDemo.reloaded) with
     | Return (Analysis a) => (max_harmony a, min_harmony a)
     | _ => (0%float, 0%float)
     end
     = (0.448%float, 0.108%float).
Proof.
  assert (Hm : messages WhatsAppDemo.reloaded <> []) by (vm_compute; discriminate).
  assert (Hv : values (harmony_scores WhatsAppDemo.reloaded)
               = [calculate_harmony_score "Thanks, great!"])
    by (vm_compute; reflexivity).
  assert (Hs : Forall (fun v => exists text, v = calculate_harmony_score text)
                 (values (harmony_scores WhatsAppDemo.reloaded))).
  { rewrite Hv. constructor; [ | constructor]. exists "Thanks, great!". reflexivity. }
  split; [exact Hm | ]. split; [exact Hv | ]. split; [exact Hs | ].
  split; [ | split; vm_compute; reflexivity].
  exact (max_and_min_harmony_are_stored_scores WhatsAppDemo.in_order
           WhatsAppDemo.plain_sum "" "" "" WhatsAppDemo.reloaded Hm Hs).
Defined.

Lemma extract_then_analyze_witness :
  WhatsAppDemo.disk "chat.txt" = Lines WhatsAppDemo.chat
  /\ messages
       (fst (analyze_messages WhatsAppDemo.in_order WhatsAppDemo.plain_sum "" "" ""
               (fst (extract_from_txt WhatsAppDemo.disk
                       {| messages := [];
                          harmony_scores := [("31/01/2023 09:00", 0.5%float)];
                          extracted_at := WhatsAppDemo.clock |} "chat.txt"))))
     = parse_lines WhatsAppDemo.chat
  /\ dict_get "31/01/2023 09:00"
       (harmony_scores
          (fst (analyze_messages WhatsAppDemo.in_order WhatsAppDemo.plain_sum "" "" ""
                  (fst (extract_from_txt WhatsAppDemo.disk
                          {| messages := [];
                             harmony_scores := [("31/01/2023 09:00", 0.5%float)];
                             extracted_at := WhatsAppDemo.clock |} "chat.txt")))))
     = Some 0.5%float.
Proof.
  assert (H : WhatsAppDemo.disk "chat.txt" = Lines WhatsAppDemo.chat) by reflexivity.
  split; [exact H | ].
  destruct (extract_then_analyze_keeps_earlier_scores WhatsAppDemo.in_order
              WhatsAppDemo.plain_sum "" "" "" WhatsAppDemo.disk
              {| messages := [];
                 harmony_scores := [("31/01/2023 09:00", 0.5%float)];
                 extracted_at := WhatsAppDemo.clock |} "chat.txt" WhatsAppDemo.chat H)
    as (_ & Hm & _ & _ & Hs).
  split; [exact Hm | ].
  apply Hs. vm_compute. intros [E | [E | []]]; discriminate E.
Defined.

End WhatsAppFacts.
